(** * Enrollex: the winding-machine firmware (Final_dig.c)

    A shallow embedding of the control code of the thread / copper winding
    machine: the encoder interrupt handler, the unit conversions, the servo
    sweep, the two quantity selectors and the four winding routines, followed
    by the properties of the written description that were checked on them.

    Conventions.
    - C [int] values are [Z]; where the code can leave the 32-bit range the
      wrap-around is written out ([wrap_int]).
    - C [double] and [float] values are IEEE 754 binary64 and binary32 numbers
      ([spec_float] of the Standard Library), every operation rounding to
      nearest-even in the format the C expression is evaluated in
      (float operands give a float operation, a double operand promotes).
    - The hardware the loops poll is an explicit input: one [entrada] per pass
      of a polling loop.  The outputs (motor enable, servo commands, delays,
      display) are fields of [estado].
    - The encoder interrupt is served while the main loop sleeps: the edges
      of a pass arrive during its sweep (its 162 delays), and those of a
      debounce delay during that delay.  Between two delays the loop reads a
      single value of the volatile count.
    - The formula of the number of turns is also stated over the real
      numbers of the Standard Library, with pi itself ([Formula]), beside
      its evaluation with the code's 3.1416 over the rationals ([Ideal]). *)

From Stdlib Require Import ZArith QArith Qround Bool String List Lia.
From Stdlib Require Import Floats.SpecFloat.
From Stdlib Require Import Reals Lra.
Import ListNotations.

Local Open Scope Z_scope.

(** ** Machine integers *)

Definition INT_MAX : Z := 2147483647.
Definition INT_MIN : Z := -2147483648.

(** Two's-complement reduction to the range of a 32-bit [int]. *)
Definition wrap_int (z : Z) : Z := (z - INT_MIN) mod 2 ^ 32 + INT_MIN.

(** The integers [a, a+1, ..., b] in increasing order (empty when [b < a]):
    the values a counted [for] loop runs through. *)
Definition rango (a b : Z) : list Z :=
  map (fun k => a + Z.of_nat k) (seq 0 (Z.to_nat (b - a + 1))).

(** ** Floating point *)

Module C_float.

Definition double := spec_float.
Definition float := spec_float.

(** Rounding of a finite value into a format (precision, emax). *)
Definition redondear (prec emax : Z) (x : spec_float) : spec_float :=
  match x with
  | S754_finite s m e => binary_round prec emax s m e
  | _ => x
  end.

(** Conversions: [(double) i], [(float) i], double to float (rounds),
    float to double (exact). *)
Definition d_of_int (i : Z) : double := binary_normalize 53 1024 i 0 false.
Definition f_of_int (i : Z) : float := binary_normalize 24 128 i 0 false.
Definition f_of_d (x : double) : float := redondear 24 128 x.
Definition d_of_f (x : float) : double := redondear 53 1024 x.

(** A decimal literal [n / 10^k] of type double: the double nearest to the
    quotient (numerator and denominator are exact doubles). *)
Definition d_lit (n d : Z) : double := SFdiv 53 1024 (d_of_int n) (d_of_int d).

Definition d_add : double -> double -> double := SFadd 53 1024.
Definition d_mul : double -> double -> double := SFmul 53 1024.
Definition d_div : double -> double -> double := SFdiv 53 1024.
Definition d_sqrt : double -> double := SFsqrt 53 1024.
Definition f_mul : float -> float -> float := SFmul 24 128.
Definition f_div : float -> float -> float := SFdiv 24 128.

(** [(int) x]: the integer part, towards zero.  (Outside the [int] range the
    conversion is undefined in C; the callers stay far inside it.) *)
Definition int_of_d (x : double) : Z :=
  match x with
  | S754_finite s m e =>
      let v := if 0 <=? e then Z.pos m * 2 ^ e else Z.pos m / 2 ^ (- e) in
      if s then - v else v
  | _ => 0
  end.

(** The rational a finite floating-point number denotes. *)
Definition valor (x : spec_float) : Q :=
  match x with
  | S754_finite s m e =>
      let v := (inject_Z (Z.pos m) * Qpower 2 e)%Q in
      if s then Qopp v else v
  | _ => 0%Q
  end.

Definition finito (x : spec_float) : bool :=
  match x with
  | S754_finite _ _ _ | S754_zero _ => true
  | _ => false
  end.

End C_float.
Import C_float.

(** ** Pins and calibration constants *)

Definition HX711_DT : Z := 16.
Definition HX711_SCK : Z := 17.
Definition SERVO_PWM : Z := 18.
Definition OPT_ENCODER_DT : Z := 15.
Definition ROT_SW : Z := 11.
Definition ROT_DT : Z := 10.
Definition ROT_CLK : Z := 9.
Definition MOTOR_EN : Z := 0.

(** Event mask of the Pico SDK (hardware/gpio.h): falling edge. *)
Definition GPIO_IRQ_EDGE_FALL : Z := 4.

Definition PULSOS_POR_VUELTA : Z := 100.
Definition DIAMETRO_TAMBOR_CM : double := d_lit 14 10.
Definition CM_POR_VUELTA : double := d_mul (d_lit 31416 10000) DIAMETRO_TAMBOR_CM.
Definition PULSOS_POR_CM : double := d_div (d_of_int PULSOS_POR_VUELTA) CM_POR_VUELTA.
Definition PULSOS_POR_METRO : double := d_mul PULSOS_POR_CM (d_of_int 100).

(** ** Unit conversions *)

(** [int pulsos_deseados = metros_deseados * PULSOS_POR_METRO;] *)
Definition metresToPulses (metros_deseados : Z) : Z :=
  int_of_d (d_mul (d_of_int metros_deseados) PULSOS_POR_METRO).

(** [float metros = (float)pulsos / PULSOS_POR_METRO;] *)
Definition pulsesToMetres (pulsos : Z) : float :=
  f_of_d (d_div (d_of_f (f_of_int pulsos)) PULSOS_POR_METRO).

Definition calcular_vueltas_para_mH (milihenrios : Z) : Z :=
  let mu_0 : float := f_of_d (d_mul (d_of_int 4) (d_lit 31416 100000000000)) in
  let radio : float := f_of_d (d_lit 14 1000) in
  let altura : float := f_of_d (d_lit 28 1000) in
  let A : float :=
    f_of_d (d_mul (d_mul (d_lit 31416 10000) (d_of_f radio)) (d_of_f radio)) in
  let L : float :=
    f_of_d (d_div (d_of_f (f_of_int milihenrios)) (d_lit 1000 1)) in
  let N : float :=
    f_of_d (d_sqrt (d_of_f (f_div (f_mul L altura) (f_mul mu_0 A)))) in
  int_of_d (d_add (d_of_f N) (d_lit 5 10)).

(** The same quantities over the rationals, as the written description gives
    them but with the decimal constant 3.1416 that the code writes for pi. *)
Module Ideal.
Local Open Scope Q_scope.

Definition pi : Q := 31416 # 10000.
Definition pulses_per_revolution : Q := 100.
Definition drum_diameter_cm : Q := 14 # 10.
Definition pulses_per_cm : Q := pulses_per_revolution / (pi * drum_diameter_cm).
Definition pulsos (metres : Z) : Q := inject_Z metres * 100 * pulses_per_cm.

(** [N^2 = (L*h) / (mu0*A)] with [L = milliHenries / 1000], and with 3.1416
    for pi both in [mu0 = 4 * 3.1416e-7] and in [A = 3.1416 * r * r], as the
    code has them.  The formula with pi itself is [Formula.vueltas]. *)
Definition N_cuadrado (milliHenries : Z) : Q :=
  let mu0 := 4 * (31416 # 100000000000) in
  let r := 14 # 1000 in
  let h := 28 # 1000 in
  let A := pi * r * r in
  let L := inject_Z milliHenries / 1000 in
  (L * h) / (mu0 * A).
End Ideal.

(** The number of turns of the written formula over the reals, with pi
    itself: [N = sqrt ((L*h) / (mu0*A))], [mu0 = 4 pi 10^-7], [A = pi r^2],
    [L = milliHenries / 1000], and the radius and height of the code. *)
Module Formula.
Local Open Scope R_scope.

Definition mu0 : R := 4 * PI * / 10 ^ 7.
Definition r : R := 14 / 1000.
Definition h : R := 28 / 1000.
Definition A : R := PI * r * r.
Definition vueltas (milliHenries : Z) : R :=
  sqrt ((IZR milliHenries / 1000 * h) / (mu0 * A)).

End Formula.

(** ** Hardware inputs and machine state *)

(** What the hardware presents during one pass of a polling loop. *)
Record entrada := Entrada {
  irq : list (Z * Z);         (* interrupts raised while the pass sleeps: (gpio, events) *)
  hx711 : Z;                  (* what the load cell would deliver *)
  rot_clk : bool;             (* pin levels, as gpio_get returns them *)
  rot_dt : bool;
  rot_sw : bool;              (* low (false) while the switch is pressed *)
  irq_rebote : list (Z * Z)   (* interrupts raised during the debounce delay after a press *)
}.

(** A line of text handed to the display: a literal or a [sprintf] result,
    kept as its format and arguments. *)
Inductive texto :=
| Texto (s : string)
| Sprintf_d (fmt : string) (args : list Z)
| Sprintf_f (fmt : string) (x : float).

(** Actuator commands and delays, in the order they happen. *)
Inductive accion :=
| Servo (angle pulse : Z)     (* set_servo_angle(angle): PWM level [pulse] *)
| Dormir (ms : Z).            (* sleep_ms(ms) *)

Record estado := Estado {
  pulsos_encoder : Z;                 (* volatile int pulsos_encoder *)
  motor_en : bool;                    (* level driven on MOTOR_EN *)
  buffer : list (Z * Z * texto);      (* strings drawn since the last clear *)
  oled : list (Z * Z * texto);        (* what the panel shows *)
  traza : list accion                 (* servo commands and delays, oldest first *)
}.

Definition set_pulsos_encoder (n : Z) (s : estado) : estado :=
  Estado n (motor_en s) (buffer s) (oled s) (traza s).
Definition set_motor_en (v : bool) (s : estado) : estado :=
  Estado (pulsos_encoder s) v (buffer s) (oled s) (traza s).
Definition set_buffer (b : list (Z * Z * texto)) (s : estado) : estado :=
  Estado (pulsos_encoder s) (motor_en s) b (oled s) (traza s).
Definition set_oled (b : list (Z * Z * texto)) (s : estado) : estado :=
  Estado (pulsos_encoder s) (motor_en s) (buffer s) b (traza s).
Definition registrar (a : accion) (s : estado) : estado :=
  Estado (pulsos_encoder s) (motor_en s) (buffer s) (oled s) (traza s ++ [a]).

(** The machine after power-on initialisation. *)
Definition estado_inicial : estado := Estado 0 false [] [] [].

(** ** Platform and display primitives *)

Definition gpio_put (pin : Z) (v : bool) (s : estado) : estado :=
  if pin =? MOTOR_EN then set_motor_en v s else s.

Definition gpio_get (pin : Z) (e : entrada) : bool :=
  if pin =? ROT_SW then rot_sw e
  else if pin =? ROT_DT then rot_dt e
  else if pin =? ROT_CLK then rot_clk e
  else false.

Definition sleep_ms (ms : Z) (s : estado) : estado := registrar (Dormir ms) s.

Definition ssd1306_clear (s : estado) : estado := set_buffer [] s.
Definition ssd1306_draw_string (x y : Z) (t : texto) (s : estado) : estado :=
  set_buffer (buffer s ++ [(x, y, t)]) s.
Definition ssd1306_show (s : estado) : estado := set_oled (buffer s) s.

(** ** Encoder interrupt *)

Definition gpio_callback (gpio events : Z) (s : estado) : estado :=
  if (gpio =? OPT_ENCODER_DT) && negb (Z.land events GPIO_IRQ_EDGE_FALL =? 0)
  then set_pulsos_encoder (wrap_int (pulsos_encoder s + 1)) s
  else s.

(** The interrupts of a batch, served in order. *)
Definition atender (l : list (Z * Z)) (s : estado) : estado :=
  fold_left (fun s ge => gpio_callback (fst ge) (snd ge) s) l s.

(** ** Servo *)

(** [uint16_t pulse = 1953 + ((angle * (3906 - 1953)) / 180);] *)
Definition nivel_pwm (angle : Z) : Z :=
  (1953 + Z.quot (wrap_int (angle * (3906 - 1953))) 180) mod 2 ^ 16.

Definition set_servo_angle (angle : Z) (s : estado) : estado :=
  let pulse := nivel_pwm angle in
  registrar (Servo angle pulse) s.

(** The two counted loops, up and then down.  (The firmware calls it with
    50 and 130; a bound at the end of the [int] range, where the C loop
    counter would overflow, is outside what is modelled.) *)
Definition mover_servo_oscilando (min_angle max_angle pause_ms : Z) (s : estado) : estado :=
  let s :=
    fold_left (fun s angle => sleep_ms pause_ms (set_servo_angle angle s))
              (rango min_angle max_angle) s in
  fold_left (fun s angle => sleep_ms pause_ms (set_servo_angle angle s))
            (rev (rango min_angle max_angle)) s.

(** ** Load cell *)

(** The tension read of the firmware: not wired to the HX711, always 0. *)
Definition leer_fuerza (e : entrada) : Z := 0.

(** ** Polling loops *)

(** A winding routine either is still in its loop when the inputs run out
    (with its display bookkeeping variable), or has returned.  The routines
    return [void]; the outcome names the return taken: after the loop
    ([Completed]), from the switch branch ([AbortedByOperator]) or from the
    tension branch ([AbortedByTension]). *)
Inductive resultado := Completed | AbortedByOperator | AbortedByTension.

Inductive ejecucion :=
| EnCurso (ultimo : Z) (s : estado)
| Termina (r : resultado) (s : estado).

Definition estado_de (x : ejecucion) : estado :=
  match x with EnCurso _ s => s | Termina _ s => s end.

(** [while (cond) { cuerpo }  al_salir]: one [entrada] per pass. *)
Fixpoint mientras (cond : estado -> bool)
    (cuerpo : entrada -> Z -> estado -> ejecucion)
    (al_salir : estado -> ejecucion)
    (es : list entrada) (ultimo : Z) (s : estado) : ejecucion :=
  if cond s then
    match es with
    | [] => EnCurso ultimo s
    | e :: es' =>
        match cuerpo e ultimo s with
        | EnCurso ultimo' s' => mientras cond cuerpo al_salir es' ultimo' s'
        | fin => fin
        end
    end
  else al_salir s.

(** ** Quantity selectors *)

Fixpoint bucle_seleccionar_metros (es : list entrada) (metros : Z)
    (last_clk : bool) (s : estado) : option Z * estado :=
  match es with
  | [] => (None, s)
  | e :: es' =>
      let clk := gpio_get ROT_CLK e in
      let dt := gpio_get ROT_DT e in
      let '(metros, last_clk, s) :=
        if negb (Bool.eqb clk last_clk) then
          let metros := if negb (Bool.eqb dt clk) then metros + 1 else metros - 1 in
          let metros := if metros <? 1 then 1 else metros in
          let metros := if metros >? 999 then 999 else metros in
          let s := ssd1306_clear s in
          let s := ssd1306_draw_string 0 0 (Texto "HILO MANUAL") s in
          let s := ssd1306_draw_string 0 10 (Sprintf_d "Metros: %d" [metros]) s in
          let s := ssd1306_draw_string 0 20 (Texto "Presiona SW") s in
          let s := ssd1306_show s in
          (metros, clk, sleep_ms 100 s)
        else (metros, last_clk, s) in
      if negb (gpio_get ROT_SW e) then (Some metros, sleep_ms 200 s)
      else bucle_seleccionar_metros es' metros last_clk (sleep_ms 20 s)
  end.

Definition seleccionar_metros (e0 : entrada) (es : list entrada) (s : estado)
    : option Z * estado :=
  bucle_seleccionar_metros es 1 (gpio_get ROT_CLK e0) s.

Fixpoint bucle_seleccionar_mHenrios (es : list entrada) (mH : Z)
    (last_clk : bool) (s : estado) : option Z * estado :=
  match es with
  | [] => (None, s)
  | e :: es' =>
      let clk := gpio_get ROT_CLK e in
      let dt := gpio_get ROT_DT e in
      let '(mH, last_clk, s) :=
        if negb (Bool.eqb clk last_clk) then
          let mH := if negb (Bool.eqb dt clk) then mH + 10 else mH - 10 in
          let mH := if mH <? 10 then 10 else mH in
          let mH := if mH >? 2000 then 2000 else mH in
          let s := ssd1306_clear s in
          let s := ssd1306_draw_string 0 0 (Texto "COBRE MANUAL") s in
          let s := ssd1306_draw_string 0 10 (Sprintf_d "Valor: %d mH" [mH]) s in
          let s := ssd1306_draw_string 0 20 (Texto "Presiona SW") s in
          let s := ssd1306_show s in
          (mH, clk, sleep_ms 100 s)
        else (mH, last_clk, s) in
      if negb (gpio_get ROT_SW e) then (Some mH, sleep_ms 200 s)
      else bucle_seleccionar_mHenrios es' mH last_clk (sleep_ms 20 s)
  end.

Definition seleccionar_mHenrios (e0 : entrada) (es : list entrada) (s : estado)
    : option Z * estado :=
  bucle_seleccionar_mHenrios es 100 (gpio_get ROT_CLK e0) s.

(** ** Winding routines *)

(** The four routines are stated over the tension read they call, so that the
    loops can be exercised with any sensor; the firmware is their instance at
    [leer_fuerza] (see [enrollar] and [firmware] below). *)
Section Bobinado.

Variable sensor : entrada -> Z.

(** The tension branch, identical in the four loops. *)
Definition tension_excesiva (s : estado) : ejecucion :=
  let s := gpio_put MOTOR_EN false s in
  let s := ssd1306_clear s in
  let s := ssd1306_draw_string 0 0 (Texto "TENSION EXCESIVA!") s in
  let s := ssd1306_draw_string 0 10 (Texto "Motor detenido.") s in
  let s := ssd1306_show s in
  Termina AbortedByTension s.

(** *** Thread, automatic *)

Definition cuerpo_auto (e : entrada) (ultimo_pulso_mostrado : Z) (s : estado)
    : ejecucion :=
  let pulsos_actuales := pulsos_encoder s in
  let '(ultimo_pulso_mostrado, s) :=
    if 100 <=? wrap_int (pulsos_actuales - ultimo_pulso_mostrado) then
      let metros_actuales := pulsesToMetres pulsos_actuales in
      let s := ssd1306_clear s in
      let msg := Sprintf_f "Metros: %.2f" metros_actuales in
      let s := ssd1306_draw_string 0 0 (Texto "Enrollando (Auto)...") s in
      let s := ssd1306_draw_string 0 10 msg s in
      let s := ssd1306_draw_string 0 20 (Texto "Presiona SW") s in
      let s := ssd1306_show s in
      (pulsos_actuales, s)
    else (ultimo_pulso_mostrado, s) in
  let s := mover_servo_oscilando 50 130 15 s in
  let s := atender (irq e) s in
  if 3000 <? sensor e then tension_excesiva s
  else if negb (gpio_get ROT_SW e) then
    let s := sleep_ms 200 s in
    let s := atender (irq_rebote e) s in
    let s := gpio_put MOTOR_EN false s in
    let s := ssd1306_clear s in
    let s := ssd1306_draw_string 0 0 (Texto "Enrollado detenido.") s in
    let metros_finales := pulsesToMetres (pulsos_encoder s) in
    let final_msg := Sprintf_f "Total: %.2f m" metros_finales in
    let s := ssd1306_draw_string 0 10 final_msg s in
    let s := ssd1306_show s in
    let s := sleep_ms 2000 s in
    Termina AbortedByOperator s
  else EnCurso ultimo_pulso_mostrado s.

Definition enrollar_auto (es : list entrada) (s : estado) : ejecucion :=
  let s := set_pulsos_encoder 0 s in
  let s := ssd1306_clear s in
  let s := ssd1306_draw_string 0 0 (Texto "Auto Enrollando...") s in
  let s := ssd1306_draw_string 0 10 (Texto "Presiona SW para") s in
  let s := ssd1306_draw_string 0 20 (Texto "detener.") s in
  let s := ssd1306_show s in
  let s := gpio_put MOTOR_EN true s in
  let ultimo_pulso_mostrado := 0 in
  mientras (fun _ => true) cuerpo_auto
           (fun s => EnCurso ultimo_pulso_mostrado s)   (* while (1): never left *)
           es ultimo_pulso_mostrado s.

(** *** Thread, to a length *)

Definition cuerpo_hasta (e : entrada) (ultimo_pulso_mostrado : Z) (s : estado)
    : ejecucion :=
  let '(ultimo_pulso_mostrado, s) :=
    if 100 <=? wrap_int (pulsos_encoder s - ultimo_pulso_mostrado) then
      let metros_actuales := pulsesToMetres (pulsos_encoder s) in
      let msg := Sprintf_f "Metros: %.2f" metros_actuales in
      let s' := ssd1306_clear s in
      let s' := ssd1306_draw_string 0 0 (Texto "Enrollando...") s' in
      let s' := ssd1306_draw_string 0 10 msg s' in
      let s' := ssd1306_show s' in
      (pulsos_encoder s, s')
    else (ultimo_pulso_mostrado, s) in
  let s := mover_servo_oscilando 50 130 15 s in
  let s := atender (irq e) s in
  if 3000 <? sensor e then tension_excesiva s
  else EnCurso ultimo_pulso_mostrado s.

Definition enrollar_hasta (metros_deseados : Z) (es : list entrada) (s : estado)
    : ejecucion :=
  let pulsos_deseados := metresToPulses metros_deseados in
  let s := set_pulsos_encoder 0 s in
  let ultimo_pulso_mostrado := 0 in
  let s := ssd1306_clear s in
  let s := ssd1306_draw_string 0 0 (Texto "Enrollando...") s in
  let s := ssd1306_show s in
  let s := gpio_put MOTOR_EN true s in
  mientras (fun s => pulsos_encoder s <? pulsos_deseados) cuerpo_hasta
    (fun s =>
       let s := gpio_put MOTOR_EN false s in
       let s := ssd1306_clear s in
       let s := ssd1306_draw_string 0 0 (Texto "Enrollado completo!") s in
       let metros_finales := pulsesToMetres (pulsos_encoder s) in
       let final_msg := Sprintf_f "Total: %.2f m" metros_finales in
       let s := ssd1306_draw_string 0 10 final_msg s in
       let s := ssd1306_show s in
       let s := sleep_ms 2000 s in
       Termina Completed s)
    es ultimo_pulso_mostrado s.

(** *** Copper *)

(** The switch branch, identical in the two copper loops. *)
Definition cobre_detenido (e : entrada) (s : estado) : ejecucion :=
  let s := sleep_ms 200 s in
  let s := atender (irq_rebote e) s in
  let s := gpio_put MOTOR_EN false s in
  let s := ssd1306_clear s in
  let s := ssd1306_draw_string 0 0 (Texto "Enrollado detenido.") s in
  let final_msg := Sprintf_d "Vueltas: %d" [pulsos_encoder s] in
  let s := ssd1306_draw_string 0 10 final_msg s in
  let s := ssd1306_show s in
  let s := sleep_ms 2000 s in
  Termina AbortedByOperator s.

Definition cuerpo_cobre_manual (e : entrada) (ultima_muestra : Z) (s : estado)
    : ejecucion :=
  let '(ultima_muestra, s) :=
    if 20 <=? wrap_int (pulsos_encoder s - ultima_muestra) then
      let s' := ssd1306_clear s in
      let vueltas_msg := Sprintf_d "Vueltas: %d" [pulsos_encoder s] in
      let s' := ssd1306_draw_string 0 0 (Texto "Cobre Manual...") s' in
      let s' := ssd1306_draw_string 0 10 vueltas_msg s' in
      let s' := ssd1306_draw_string 0 20 (Texto "Presiona SW") s' in
      let s' := ssd1306_show s' in
      (pulsos_encoder s, s')
    else (ultima_muestra, s) in
  let s := mover_servo_oscilando 50 130 15 s in
  let s := atender (irq e) s in
  if 3000 <? sensor e then tension_excesiva s
  else if negb (gpio_get ROT_SW e) then cobre_detenido e s
  else EnCurso ultima_muestra s.

Definition enrollar_cobre_manual (milihenrios : Z) (es : list entrada)
    (s : estado) : ejecucion :=
  let vueltas_objetivo := calcular_vueltas_para_mH milihenrios in
  let s := set_pulsos_encoder 0 s in
  let ultima_muestra := 0 in
  let s := ssd1306_clear s in
  let s := ssd1306_draw_string 0 0 (Texto "Cobre Manual...") s in
  let msg := Sprintf_d "%d mH -> %d vueltas" [milihenrios; vueltas_objetivo] in
  let s := ssd1306_draw_string 0 10 msg s in
  let s := ssd1306_draw_string 0 20 (Texto "Presiona SW para parar") s in
  let s := ssd1306_show s in
  let s := gpio_put MOTOR_EN true s in
  mientras (fun s => pulsos_encoder s <? vueltas_objetivo) cuerpo_cobre_manual
    (fun s =>
       let s := gpio_put MOTOR_EN false s in
       let s := ssd1306_clear s in
       let s := ssd1306_draw_string 0 0 (Texto "Bobina completada!") s in
       let final_msg := Sprintf_d "%d mH" [milihenrios] in
       let s := ssd1306_draw_string 0 10 final_msg s in
       let s := ssd1306_show s in
       let s := sleep_ms 2000 s in
       Termina Completed s)
    es ultima_muestra s.

Definition cuerpo_cobre_auto (e : entrada) (ultima_muestra : Z) (s : estado)
    : ejecucion :=
  let '(ultima_muestra, s) :=
    if 20 <=? wrap_int (pulsos_encoder s - ultima_muestra) then
      let s' := ssd1306_clear s in
      let msg := Sprintf_d "Vueltas: %d" [pulsos_encoder s] in
      let s' := ssd1306_draw_string 0 0 (Texto "Cobre Auto (1H)...") s' in
      let s' := ssd1306_draw_string 0 10 msg s' in
      let s' := ssd1306_draw_string 0 20 (Texto "Presiona SW para parar") s' in
      let s' := ssd1306_show s' in
      (pulsos_encoder s, s')
    else (ultima_muestra, s) in
  let s := mover_servo_oscilando 50 130 15 s in
  let s := atender (irq e) s in
  if 3000 <? sensor e then tension_excesiva s
  else if negb (gpio_get ROT_SW e) then cobre_detenido e s
  else EnCurso ultima_muestra s.

Definition enrollar_cobre_auto (es : list entrada) (s : estado) : ejecucion :=
  let vueltas_objetivo := calcular_vueltas_para_mH 1000 in
  let s := set_pulsos_encoder 0 s in
  let ultima_muestra := 0 in
  let s := ssd1306_clear s in
  let s := ssd1306_draw_string 0 0 (Texto "Cobre Auto (1H)...") s in
  let s := ssd1306_draw_string 0 10 (Texto "Vueltas: ") s in
  let vueltas_msg := Sprintf_d "%d" [vueltas_objetivo] in
  let s := ssd1306_draw_string 60 10 vueltas_msg s in
  let s := ssd1306_show s in
  let s := gpio_put MOTOR_EN true s in
  mientras (fun s => pulsos_encoder s <? vueltas_objetivo) cuerpo_cobre_auto
    (fun s =>
       let s := gpio_put MOTOR_EN false s in
       let s := ssd1306_clear s in
       let s := ssd1306_draw_string 0 0 (Texto "Bobina completa!") s in
       let s := ssd1306_draw_string 0 10 (Texto "Vueltas: 1 Henrio") s in
       let s := ssd1306_show s in
       let s := sleep_ms 2000 s in
       Termina Completed s)
    es ultima_muestra s.

(** *** The task started from the menu *)

(** What [main] runs for (menu_state, sub_state) = (0,0), (0,1), (1,0), (1,1),
    with the quantity the selector returned. *)
Inductive modo :=
| HiloManual (metros : Z)
| HiloAuto
| CobreManual (milihenrios : Z)
| CobreAuto.

Definition enrollar (m : modo) (es : list entrada) (s : estado) : ejecucion :=
  match m with
  | HiloManual metros => enrollar_hasta metros es s
  | HiloAuto => enrollar_auto es s
  | CobreManual mHenrios => enrollar_cobre_manual mHenrios es s
  | CobreAuto => enrollar_cobre_auto es s
  end.

End Bobinado.

(** The firmware: the routines with the tension read of the source. *)
Definition firmware : modo -> list entrada -> estado -> ejecucion :=
  enrollar leer_fuerza.

Definition es_manual (m : modo) : bool :=
  match m with HiloManual _ | CobreManual _ => true | _ => false end.

(** The count at which the loop of a mode ends by itself, if it has one. *)
Definition objetivo (m : modo) : option Z :=
  match m with
  | HiloManual metros => Some (metresToPulses metros)
  | HiloAuto => None
  | CobreManual mHenrios => Some (calcular_vueltas_para_mH mHenrios)
  | CobreAuto => Some (calcular_vueltas_para_mH 1000)
  end.

(** ** Observations used in the statements *)

(** The angles commanded in a trace, in order, and the time slept. *)
Fixpoint angulos (t : list accion) : list Z :=
  match t with
  | [] => []
  | Servo a _ :: t' => a :: angulos t'
  | Dormir _ :: t' => angulos t'
  end.

Fixpoint dormido (t : list accion) : Z :=
  match t with
  | [] => 0
  | Servo _ _ :: t' => dormido t'
  | Dormir ms :: t' => ms + dormido t'
  end.

(** The servo position: the last angle commanded. *)
Definition posicion (s : estado) : option Z :=
  match rev (angulos (traza s)) with
  | [] => None
  | a :: _ => Some a
  end.

(** What a sweep over a list of angles adds to the trace. *)
Definition barrido (pause_ms : Z) (l : list Z) : list accion :=
  flat_map (fun a => [Servo a (nivel_pwm a); Dormir pause_ms]) l.

(** One call of [mover_servo_oscilando]: up, then down. *)
Definition ida_y_vuelta (min_angle max_angle : Z) : list Z :=
  rango min_angle max_angle ++ rev (rango min_angle max_angle).

(** Interrupts that the handler counts, and the count after a batch of
    interrupts, from count [n]. *)
Definition es_flanco (ge : Z * Z) : bool :=
  (fst ge =? OPT_ENCODER_DT) && negb (Z.land (snd ge) GPIO_IRQ_EDGE_FALL =? 0).

Definition contar (l : list (Z * Z)) (n : Z) : Z :=
  fold_left (fun n ge => if es_flanco ge then wrap_int (n + 1) else n) l n.

Definition flancos (l : list (Z * Z)) : Z :=
  Z.of_nat (length (filter es_flanco l)).

(** All the interrupts a list of passes can deliver. *)
Definition flancos_totales (es : list entrada) : Z :=
  fold_right (fun e n => flancos (irq e) + flancos (irq_rebote e) + n) 0 es.

(** The state without the display, and a run without its display
    bookkeeping. *)
Definition control (s : estado) : Z * bool * list accion :=
  (pulsos_encoder s, motor_en s, traza s).

Definition resumen (x : ejecucion) : option resultado * (Z * bool * list accion) :=
  match x with
  | EnCurso _ s => (None, control s)
  | Termina r s => (Some r, control s)
  end.

(** Inputs used in the examples: a quiet pass, a pass with [n] encoder
    edges, a pass with the switch pressed, a pass with load [f] on the cell. *)
Definition pasa : entrada := Entrada [] 0 true true true [].
Definition pasa_con (n : Z) : entrada :=
  Entrada (repeat (OPT_ENCODER_DT, GPIO_IRQ_EDGE_FALL) (Z.to_nat n)) 0 true true true [].
Definition pulsa_sw : entrada := Entrada [] 0 true true false [].
Definition carga (f : Z) : entrada := Entrada [] f true true true [].

(** A sensor wired to the load cell. *)
Definition sensor_hx711 (e : entrada) : Z := hx711 e.

(** The four routines share one loop shape; these name its parts per mode. *)
Definition detenible (m : modo) : bool :=
  match m with HiloManual _ => false | _ => true end.

Definition cond_de (m : modo) (s : estado) : bool :=
  match objetivo m with
  | Some n => pulsos_encoder s <? n
  | None => true
  end.

Definition cuerpo_de (sensor : entrada -> Z) (m : modo)
    : entrada -> Z -> estado -> ejecucion :=
  match m with
  | HiloManual _ => cuerpo_hasta sensor
  | HiloAuto => cuerpo_auto sensor
  | CobreManual _ => cuerpo_cobre_manual sensor
  | CobreAuto => cuerpo_cobre_auto sensor
  end.

(** One pass of a winding loop on the state without the display. *)
Definition paso_resumen (sensor : entrada -> Z) (para : bool) (e : entrada)
    (c : Z * bool * list accion) : option resultado * (Z * bool * list accion) :=
  let '(p, mot, t) := c in
  let p1 := contar (irq e) p in
  let t1 := t ++ barrido 15 (ida_y_vuelta 50 130) in
  if 3000 <? sensor e then (Some AbortedByTension, (p1, false, t1))
  else if para && negb (rot_sw e) then
    (Some AbortedByOperator,
     (contar (irq_rebote e) p1, false, t1 ++ [Dormir 200; Dormir 2000]))
  else (None, (p1, mot, t1)).

(** Decidable forms of the conversion properties, for checking them over
    the whole range a selector can return. *)
Definition revisar_metros (metros : Z) : bool :=
  let vuelta := pulsesToMetres (metresToPulses metros) in
  (metresToPulses metros =? Qfloor (Ideal.pulsos metros))
  && finito vuelta
  && Qle_bool (valor vuelta) (inject_Z metros)
  && negb (Qle_bool (valor vuelta) (inject_Z metros - (1 # 2000))).

Definition revisar_vueltas (mH : Z) : bool :=
  let n := calcular_vueltas_para_mH mH in
  let r := inject_Z n in
  let N2 := Qred (4 * Ideal.N_cuadrado mH) in
  (0 <? n)
  && Qle_bool ((2 * r - 1) * (2 * r - 1)) N2
  && negb (Qle_bool ((2 * r + 1) * (2 * r + 1)) N2)
  && (n <=? calcular_vueltas_para_mH (mH + 1)).

(** The result against the formula with pi itself, which lies between
    3.141592 and 3.141593: [(n - 1/2)^2 * pi^2 <= mH * 2500000 / 7] and
    [mH * 2500000 / 7 < (n + 3/2)^2 * pi^2], in integers. *)
Definition revisar_vueltas_pi (mH : Z) : bool :=
  let n := calcular_vueltas_para_mH mH in
  (1 <=? n)
  && ((2 * n - 1) * (2 * n - 1) * 3141593 * 3141593 * 7
      <=? 4 * mH * 2500000 * 1000000 * 1000000)
  && (4 * mH * 2500000 * 1000000 * 1000000
      <? (2 * n + 3) * (2 * n + 3) * 3141592 * 3141592 * 7).

(** ** Further observations *)

(** The first line a winding routine leaves on the panel when it returns. *)
Definition mensaje (m : modo) (r : resultado) : string :=
  match r with
  | AbortedByTension => "TENSION EXCESIVA!"
  | AbortedByOperator => "Enrollado detenido."
  | Completed =>
      match m with
      | CobreManual _ => "Bobina completada!"
      | CobreAuto => "Bobina completa!"
      | _ => "Enrollado completo!"
      end
  end.

(** The last delay of a routine that returned. *)
Definition ultima_espera (r : resultado) : accion :=
  match r with
  | AbortedByTension => Dormir 15
  | _ => Dormir 2000
  end.

(** [n] passes of a selector loop in which the knob goes one step further
    (CLK changes at every pass; DT differs from CLK when turning clockwise,
    equals it otherwise), the switch released. *)
Fixpoint giros (horario : bool) (n : nat) (last_clk : bool) : list entrada :=
  match n with
  | O => []
  | S n' =>
      let clk := negb last_clk in
      Entrada [] 0 clk (if horario then negb clk else clk) true []
      :: giros horario n' clk
  end.

Definition revisar_pulsos (metros : Z) : bool :=
  (metresToPulses metros <? metresToPulses (metros + 1))
  && (0 <=? metresToPulses metros)
  && (metresToPulses (metros + 1) <=? INT_MAX).


(** ** The display driver (ssd1306.c)

    The control code above uses the display through its text operations only;
    this is the driver underneath: the frame buffer of 128 x 64 pixels, one
    byte for eight pixels of a column, and what is written to the I2C bus. *)
Module SSD1306.

Definition SSD1306_I2C_ADDR : Z := 60.
Definition SSD1306_WIDTH : Z := 128.
Definition SSD1306_HEIGHT : Z := 64.

Record pantalla := Pantalla {
  buffer : list Z;        (* static uint8_t buffer[SSD1306_WIDTH * SSD1306_HEIGHT / 8] *)
  i2c : list (list Z)     (* the bytes of each i2c_write_blocking to the panel, oldest first *)
}.

(** Conversion to [uint8_t]. *)
Definition uint8 (z : Z) : Z := z mod 256.

(** [l[i] = v] for [i] inside the array. *)
Fixpoint poner (i : nat) (v : Z) (l : list Z) : list Z :=
  match l with
  | [] => []
  | h :: t =>
      match i with
      | O => v :: t
      | S i' => h :: poner i' v t
      end
  end.

Definition ssd1306_write_cmd (cmd : Z) (p : pantalla) : pantalla :=
  let buf := [0; cmd] in
  Pantalla (buffer p) (i2c p ++ [buf]).

Definition ssd1306_write_data (data : list Z) (len : nat) (p : pantalla) : pantalla :=
  let buf := 64 :: firstn len data in
  Pantalla (buffer p) (i2c p ++ [buf]).

Definition ssd1306_clear (p : pantalla) : pantalla :=
  Pantalla (repeat 0 (Z.to_nat (SSD1306_WIDTH * SSD1306_HEIGHT / 8))) (i2c p).

Definition ssd1306_show (p : pantalla) : pantalla :=
  fold_left
    (fun p page =>
       let p := ssd1306_write_cmd (176 + page) p in
       let p := ssd1306_write_cmd 0 p in
       let p := ssd1306_write_cmd 16 p in
       ssd1306_write_data (skipn (Z.to_nat (SSD1306_WIDTH * page)) (buffer p))
                          (Z.to_nat SSD1306_WIDTH) p)
    (rango 0 7) p.

(** [x] and [y] are [uint8_t] values. *)
Definition ssd1306_draw_pixel (x y : Z) (color : bool) (p : pantalla) : pantalla :=
  if (x >=? SSD1306_WIDTH) || (y >=? SSD1306_HEIGHT) then p
  else
    let i := Z.to_nat (x + (y / 8) * SSD1306_WIDTH) in
    let b := nth i (buffer p) 0 in
    let b' :=
      if color then Z.lor b (Z.shiftl 1 (y mod 8))
      else Z.land b (Z.lnot (Z.shiftl 1 (y mod 8))) in
    Pantalla (poner i (uint8 b') (buffer p)) (i2c p).

(** The configuration commands, then a blank frame.  (The set-up of the I2C
    peripheral and of its pins is outside what is modelled.) *)
Definition ssd1306_init (p : pantalla) : pantalla :=
  let p :=
    fold_left (fun p cmd => ssd1306_write_cmd cmd p)
      [174; 32; 0; 176; 200; 0; 16; 64; 129; 255; 161; 166; 168; 63;
       164; 211; 0; 213; 240; 217; 34; 218; 18; 219; 32; 141; 20; 175] p in
  let p := ssd1306_clear p in
  ssd1306_show p.

Section Fuente.

(** The table of font5x7.h, which is not part of the sources at hand: row
    [c - 32] holds the five column bytes of character [c]. *)
Variable font5x7 : Z -> Z -> Z.

(** [c] is the character code, 0 to 255. *)
Definition ssd1306_draw_char (x y c : Z) (p : pantalla) : pantalla :=
  fold_left
    (fun p i =>
       let line := uint8 (font5x7 (c - 32) i) in
       snd (fold_left
              (fun lp j =>
                 let '(line, p) := lp in
                 (Z.shiftr line 1,
                  ssd1306_draw_pixel (uint8 (x + i)) (uint8 (y + j))
                                     (negb (Z.land line 1 =? 0)) p))
              (rango 0 7) (line, p)))
    (rango 0 4) p.

(** The string is read up to its end or to a NUL character. *)
Fixpoint ssd1306_draw_string (x y : Z) (str : string) (p : pantalla) : pantalla :=
  match str with
  | EmptyString => p
  | String c str' =>
      if (Z.of_nat (Ascii.nat_of_ascii c) =? 0) then p
      else
        let p := ssd1306_draw_char x y (Z.of_nat (Ascii.nat_of_ascii c)) p in
        ssd1306_draw_string (uint8 (x + 6)) y str' p
  end.

End Fuente.

(** Observations: a pixel of the frame buffer; the frame buffer as the C
    array it is; a point of the screen; the data bytes and the command bytes
    of a list of bus transfers. *)
Definition pixel (x y : Z) (p : pantalla) : bool :=
  Z.testbit (nth (Z.to_nat (x + (y / 8) * SSD1306_WIDTH)) (buffer p) 0) (y mod 8).

Definition bien_formada (p : pantalla) : Prop :=
  length (buffer p) = 1024%nat /\ Forall (fun b => 0 <= b < 256) (buffer p).

Definition en_pantalla (x y : Z) : Prop :=
  0 <= x < SSD1306_WIDTH /\ 0 <= y < SSD1306_HEIGHT.

Definition datos (l : list (list Z)) : list Z :=
  flat_map (fun t => match t with 64 :: d => d | _ => [] end) l.

Definition ordenes (l : list (list Z)) : list Z :=
  flat_map (fun t => match t with [0; c] => [c] | _ => [] end) l.

(** A list of pixel writes, in order, and the colour the last write to
    (x', y') leaves there. *)
Definition pintar (ws : list (Z * Z * bool)) (p : pantalla) : pantalla :=
  fold_left (fun p w => ssd1306_draw_pixel (fst (fst w)) (snd (fst w)) (snd w) p) ws p.

Definition ultimo_color (x' y' : Z) (ws : list (Z * Z * bool)) (c0 : bool) : bool :=
  fold_left
    (fun acc w => if (x' =? fst (fst w)) && (y' =? snd (fst w)) then snd w else acc)
    ws c0.

(** The glyph bit of character [c] at column [i], row [j]. *)
Definition punto (font5x7 : Z -> Z -> Z) (c i j : Z) : bool :=
  Z.testbit (uint8 (font5x7 (c - 32) i)) j.

(** The character codes of a C string: what precedes its first NUL. *)
Fixpoint hasta_nul (str : string) : list Z :=
  match str with
  | EmptyString => []
  | String c str' =>
      if Z.of_nat (Ascii.nat_of_ascii c) =? 0 then []
      else Z.of_nat (Ascii.nat_of_ascii c) :: hasta_nul str'
  end.

End SSD1306.

(** ** Menus (main)

    [menu_state] and [sub_state] are globals that only the menu code of
    [main] uses; they are passed explicitly here.  The two polling loops of
    [main] are modelled up to the point where they are left: the first when
    the switch is pressed, the second when a press selects a branch, before
    the task of that branch is run. *)

Definition mostrar_menu (menu_state : Z) (s : estado) : estado :=
  let s := ssd1306_clear s in
  let s := ssd1306_draw_string 0 0 (Texto "Menu:") s in
  let s := ssd1306_draw_string 0 10
             (Texto (if (menu_state =? 0)%Z then "> Hilo" else "  Hilo")) s in
  let s := ssd1306_draw_string 0 20
             (Texto (if (menu_state =? 1)%Z then "> Cobre" else "  Cobre")) s in
  ssd1306_show s.

Definition mostrar_submenu (menu_state sub_state : Z) (s : estado) : estado :=
  let s := ssd1306_clear s in
  let s := ssd1306_draw_string 0 0
             (Texto (if (menu_state =? 0)%Z then "Hilo:" else "Cobre:")) s in
  let s := ssd1306_draw_string 0 10
             (Texto (if (sub_state =? 0)%Z then "> Manual" else "  Manual")) s in
  let s := ssd1306_draw_string 0 20
             (Texto (if (sub_state =? 1)%Z then "> Auto" else "  Auto")) s in
  let s := ssd1306_draw_string 0 30
             (Texto (if (sub_state =? 2)%Z then "> Volver" else "  Volver")) s in
  ssd1306_show s.

(** The first inner loop of [main]: whether it was left, [menu_state], and
    the machine. *)
Fixpoint bucle_menu (es : list entrada) (menu_state : Z) (s : estado)
    : bool * Z * estado :=
  match es with
  | [] => (false, menu_state, s)
  | e :: es' =>
      if negb (gpio_get ROT_SW e) then (true, menu_state, sleep_ms 200 s)
      else if negb (gpio_get ROT_DT e) then
        let menu_state := Z.rem (wrap_int (menu_state + 1)) 2 in
        let s := mostrar_menu menu_state s in
        bucle_menu es' menu_state (sleep_ms 300 s)
      else bucle_menu es' menu_state s
  end.

Definition menu_principal (es : list entrada) (menu_state : Z) (s : estado)
    : bool * Z * estado :=
  bucle_menu es menu_state (mostrar_menu menu_state s).

(** The branches of the switch test in the second inner loop. *)
Inductive rama :=
| Volver                (* sub_state == 2 *)
| RamaHiloManual        (* seleccionar_metros, enrollar_hasta *)
| RamaHiloAuto          (* enrollar_auto *)
| RamaCobreManual       (* seleccionar_mHenrios, enrollar_cobre_manual *)
| RamaCobreAuto.        (* enrollar_cobre_auto *)

Definition rama_de (menu_state sub_state : Z) : option rama :=
  if sub_state =? 2 then Some Volver
  else if (menu_state =? 0) && (sub_state =? 0) then Some RamaHiloManual
  else if (menu_state =? 0) && (sub_state =? 1) then Some RamaHiloAuto
  else if (menu_state =? 1) && (sub_state =? 0) then Some RamaCobreManual
  else if (menu_state =? 1) && (sub_state =? 1) then Some RamaCobreAuto
  else None.

(** The second inner loop of [main]: the branch taken (none while it is
    still polling), [sub_state], and the machine. *)
Fixpoint bucle_submenu (es : list entrada) (menu_state sub_state : Z) (s : estado)
    : option rama * Z * estado :=
  match es with
  | [] => (None, sub_state, s)
  | e :: es' =>
      let girar (s : estado) :=
        if negb (gpio_get ROT_DT e) then
          let sub_state := Z.rem (wrap_int (sub_state + 1)) 3 in
          let s := mostrar_submenu menu_state sub_state s in
          bucle_submenu es' menu_state sub_state (sleep_ms 300 s)
        else bucle_submenu es' menu_state sub_state s in
      if negb (gpio_get ROT_SW e) then
        let s := sleep_ms 200 s in
        match rama_de menu_state sub_state with
        | Some r => (Some r, sub_state, s)
        | None => girar s
        end
      else girar s
  end.

(** [sub_state = 0; mostrar_submenu();] and the loop. *)
Definition submenu (es : list entrada) (menu_state : Z) (s : estado)
    : option rama * Z * estado :=
  bucle_submenu es menu_state 0 (mostrar_submenu menu_state 0 s).

(** The passes of a menu loop that count as a turn of the knob: DT low. *)
Definition vueltas_dt (es : list entrada) : Z :=
  Z.of_nat (length (filter (fun e => negb (gpio_get ROT_DT e)) es)).

(** The lines of the two menus. *)
Definition vista_menu (menu_state : Z) : list (Z * Z * texto) :=
  [(0, 0, Texto "Menu:");
   (0, 10, Texto (if (menu_state =? 0)%Z then "> Hilo" else "  Hilo"));
   (0, 20, Texto (if (menu_state =? 1)%Z then "> Cobre" else "  Cobre"))].

Definition vista_submenu (menu_state sub_state : Z) : list (Z * Z * texto) :=
  [(0, 0, Texto (if (menu_state =? 0)%Z then "Hilo:" else "Cobre:"));
   (0, 10, Texto (if (sub_state =? 0)%Z then "> Manual" else "  Manual"));
   (0, 20, Texto (if (sub_state =? 1)%Z then "> Auto" else "  Auto"));
   (0, 30, Texto (if (sub_state =? 2)%Z then "> Volver" else "  Volver"))].

(** The interrupts of a batch that are falling edges of the optical
    encoder: pin 15 with bit 2 of the event mask set. *)
Definition flancos_de_bajada (l : list (Z * Z)) : Z :=
  Z.of_nat (length (filter (fun ge => (fst ge =? 15) && Z.testbit (snd ge) 2) l)).

(** * Properties *)

(** ** Integers and ranges *)

Lemma wrap_int_small (z : Z) : INT_MIN <= z <= INT_MAX -> wrap_int z = z.
Proof.
  unfold wrap_int, INT_MIN, INT_MAX. intros H.
  rewrite Z.mod_small; lia.
Qed.

Lemma rango_In (a b z : Z) : In z (rango a b) <-> a <= z <= b.
Proof.
  unfold rango. rewrite in_map_iff. split.
  - intros [k [Hk Hin]]. apply in_seq in Hin. lia.
  - intros H. exists (Z.to_nat (z - a)). split; [lia|]. apply in_seq. lia.
Qed.

Lemma rango_length (a b : Z) : length (rango a b) = Z.to_nat (b - a + 1).
Proof. unfold rango. now rewrite length_map, length_seq. Qed.

Lemma rango_nth (a b : Z) (k : nat) :
  (k < Z.to_nat (b - a + 1))%nat -> nth k (rango a b) 0 = a + Z.of_nat k.
Proof.
  intros Hk. unfold rango.
  rewrite (nth_indep _ 0 (a + Z.of_nat 0%nat)) by now rewrite length_map, length_seq.
  rewrite (map_nth (fun k => a + Z.of_nat k)), seq_nth by assumption.
  reflexivity.
Qed.

Lemma forallb_rango (P : Z -> bool) (a b : Z) :
  forallb P (rango a b) = true -> forall z, a <= z <= b -> P z = true.
Proof.
  intros H z Hz. rewrite forallb_forall in H. apply H, rango_In, Hz.
Qed.

(** ** Traces *)

Lemma angulos_app (t1 t2 : list accion) :
  angulos (t1 ++ t2) = angulos t1 ++ angulos t2.
Proof.
  induction t1 as [|[a p|ms] t1 IH]; simpl; [reflexivity| |assumption].
  now rewrite IH.
Qed.

Lemma dormido_app (t1 t2 : list accion) :
  dormido (t1 ++ t2) = dormido t1 + dormido t2.
Proof.
  induction t1 as [|[a p|ms] t1 IH]; simpl; lia.
Qed.

Lemma barrido_app (pause : Z) (l1 l2 : list Z) :
  barrido pause (l1 ++ l2) = barrido pause l1 ++ barrido pause l2.
Proof. apply flat_map_app. Qed.

Lemma angulos_barrido (pause : Z) (l : list Z) : angulos (barrido pause l) = l.
Proof. induction l as [|a l IH]; simpl; [reflexivity | now rewrite IH]. Qed.

Lemma dormido_barrido (pause : Z) (l : list Z) :
  dormido (barrido pause l) = pause * Z.of_nat (length l).
Proof.
  induction l as [|a l IH]; [simpl; lia|].
  change (dormido (barrido pause (a :: l))) with (pause + dormido (barrido pause l)).
  rewrite IH. simpl length. lia.
Qed.

Lemma ida_y_vuelta_length (a b : Z) :
  a <= b -> Z.of_nat (length (ida_y_vuelta a b)) = 2 * (b - a + 1).
Proof.
  intros H. unfold ida_y_vuelta.
  rewrite length_app, length_rev, rango_length. lia.
Qed.

Lemma ida_y_vuelta_In (a b z : Z) : In z (ida_y_vuelta a b) <-> a <= z <= b.
Proof.
  unfold ida_y_vuelta. rewrite in_app_iff, <- in_rev, rango_In. tauto.
Qed.

(** ** Effect of the primitives on the control part of the state *)

Lemma set_pulsos_encoder_id (s : estado) :
  set_pulsos_encoder (pulsos_encoder s) s = s.
Proof. now destruct s. Qed.

Lemma barrer_spec (pause : Z) (l : list Z) (s : estado) :
  let s' := fold_left (fun s angle => sleep_ms pause (set_servo_angle angle s)) l s in
  traza s' = traza s ++ barrido pause l /\
  pulsos_encoder s' = pulsos_encoder s /\
  motor_en s' = motor_en s /\
  buffer s' = buffer s /\
  oled s' = oled s.
Proof.
  revert s. induction l as [|a l IH]; intros s; simpl.
  - now rewrite app_nil_r.
  - destruct (IH (sleep_ms pause (set_servo_angle a s))) as (Ht & Hp & Hm & Hb & Ho).
    rewrite Ht, Hp, Hm, Hb, Ho. simpl.
    rewrite <- !app_assoc. now simpl.
Qed.

Lemma mover_servo_oscilando_traza (a b pause : Z) (s : estado) :
  traza (mover_servo_oscilando a b pause s)
  = traza s ++ barrido pause (ida_y_vuelta a b).
Proof.
  unfold mover_servo_oscilando, ida_y_vuelta.
  rewrite (proj1 (barrer_spec _ _ _)), (proj1 (barrer_spec _ _ _)).
  now rewrite barrido_app, app_assoc.
Qed.

Lemma mover_servo_oscilando_pulsos (a b pause : Z) (s : estado) :
  pulsos_encoder (mover_servo_oscilando a b pause s) = pulsos_encoder s.
Proof.
  unfold mover_servo_oscilando.
  rewrite (proj1 (proj2 (barrer_spec _ _ _))).
  apply (proj1 (proj2 (barrer_spec _ _ _))).
Qed.

Lemma mover_servo_oscilando_motor (a b pause : Z) (s : estado) :
  motor_en (mover_servo_oscilando a b pause s) = motor_en s.
Proof.
  unfold mover_servo_oscilando.
  rewrite (proj1 (proj2 (proj2 (barrer_spec _ _ _)))).
  apply (proj1 (proj2 (proj2 (barrer_spec _ _ _)))).
Qed.

Lemma gpio_callback_spec (gpio events : Z) (s : estado) :
  gpio_callback gpio events s
  = if es_flanco (gpio, events)
    then set_pulsos_encoder (wrap_int (pulsos_encoder s + 1)) s
    else s.
Proof. reflexivity. Qed.

Lemma atender_spec (l : list (Z * Z)) (s : estado) :
  atender l s = set_pulsos_encoder (contar l (pulsos_encoder s)) s.
Proof.
  revert s. induction l as [|[g ev] l IH]; intros s.
  - symmetry. apply set_pulsos_encoder_id.
  - unfold atender, contar in *. simpl fold_left. rewrite IH.
    rewrite gpio_callback_spec. simpl fst; simpl snd.
    now destruct (es_flanco (g, ev)).
Qed.

Lemma atender_pulsos (l : list (Z * Z)) (s : estado) :
  pulsos_encoder (atender l s) = contar l (pulsos_encoder s).
Proof. now rewrite atender_spec. Qed.

Lemma atender_motor (l : list (Z * Z)) (s : estado) :
  motor_en (atender l s) = motor_en s.
Proof. now rewrite atender_spec. Qed.

Lemma atender_traza (l : list (Z * Z)) (s : estado) :
  traza (atender l s) = traza s.
Proof. now rewrite atender_spec. Qed.

Lemma contar_app (l1 l2 : list (Z * Z)) (n : Z) :
  contar (l1 ++ l2) n = contar l2 (contar l1 n).
Proof. apply fold_left_app. Qed.

Lemma flancos_nonneg (l : list (Z * Z)) : 0 <= flancos l.
Proof. unfold flancos. lia. Qed.

Lemma flancos_cons (ge : Z * Z) (l : list (Z * Z)) :
  flancos (ge :: l) = (if es_flanco ge then 1 else 0) + flancos l.
Proof.
  unfold flancos. simpl. destruct (es_flanco ge); simpl length; lia.
Qed.

(** Below the top of the [int] range the count after a batch is the count
    before plus the number of falling edges of the encoder pin. *)
Lemma contar_flancos (l : list (Z * Z)) (n : Z) :
  INT_MIN <= n -> n + flancos l <= INT_MAX -> contar l n = n + flancos l.
Proof.
  revert n. induction l as [|ge l IH]; intros n Hlo Hhi.
  - unfold flancos. simpl. lia.
  - rewrite flancos_cons in *. pose proof (flancos_nonneg l).
    unfold contar in *. simpl fold_left.
    destruct (es_flanco ge).
    + rewrite wrap_int_small by lia. rewrite IH; lia.
    + rewrite IH; lia.
Qed.

Lemma flancos_totales_nonneg (es : list entrada) : 0 <= flancos_totales es.
Proof.
  induction es as [|e es IH]; simpl; [lia|].
  pose proof (flancos_nonneg (irq e)). pose proof (flancos_nonneg (irq_rebote e)). lia.
Qed.

Lemma flancos_totales_app (es1 es2 : list entrada) :
  flancos_totales (es1 ++ es2) = flancos_totales es1 + flancos_totales es2.
Proof. induction es1 as [|e es1 IH]; simpl; lia. Qed.

Create Rewrite HintDb control_db.

#[local] Hint Rewrite
  mover_servo_oscilando_traza mover_servo_oscilando_pulsos mover_servo_oscilando_motor
  atender_pulsos atender_motor atender_traza : control_db.
#[local] Hint Rewrite <- app_assoc : control_db.

(** Projections of a state built by the primitives. *)
Ltac proyectar :=
  repeat (progress (cbn [pulsos_encoder motor_en traza buffer oled
                         set_pulsos_encoder set_motor_en set_buffer set_oled registrar
                         sleep_ms ssd1306_clear ssd1306_draw_string ssd1306_show
                         resumen estado_de andb negb])
          || (progress (unfold control))
          || rewrite_strat (topdown (hints control_db))).

Lemma gpio_get_ROT_SW (e : entrada) : gpio_get ROT_SW e = rot_sw e.
Proof. reflexivity. Qed.

Lemma gpio_put_MOTOR_EN (v : bool) (s : estado) :
  gpio_put MOTOR_EN v s = set_motor_en v s.
Proof. reflexivity. Qed.

(** ** One pass of a winding loop

    Whatever the display does, a pass of any of the four loops acts on the
    count, the motor and the trace as [paso_resumen] says: a sweep, the
    interrupts, the tension check, then (except in the thread-to-length
    loop) the switch. *)
Lemma cuerpo_de_resumen (sensor : entrada -> Z) (m : modo) (e : entrada)
    (u : Z) (s : estado) :
  resumen (cuerpo_de sensor m e u s)
  = paso_resumen sensor (detenible m) e (control s).
Proof.
  destruct m; unfold cuerpo_de, detenible, paso_resumen, control.
  - unfold cuerpo_hasta.
    destruct (100 <=? _); destruct (3000 <? sensor e);
      unfold tension_excesiva; rewrite ?gpio_put_MOTOR_EN; proyectar; reflexivity.
  - unfold cuerpo_auto.
    destruct (100 <=? _); destruct (3000 <? sensor e);
      unfold tension_excesiva; rewrite ?gpio_get_ROT_SW, ?gpio_put_MOTOR_EN;
      try destruct (rot_sw e); proyectar; reflexivity.
  - unfold cuerpo_cobre_manual.
    destruct (20 <=? _); destruct (3000 <? sensor e);
      unfold tension_excesiva, cobre_detenido;
      rewrite ?gpio_get_ROT_SW, ?gpio_put_MOTOR_EN;
      try destruct (rot_sw e); proyectar; reflexivity.
  - unfold cuerpo_cobre_auto.
    destruct (20 <=? _); destruct (3000 <? sensor e);
      unfold tension_excesiva, cobre_detenido;
      rewrite ?gpio_get_ROT_SW, ?gpio_put_MOTOR_EN;
      try destruct (rot_sw e); proyectar; reflexivity.
Qed.

Lemma resumen_Some (x : ejecucion) (r : resultado) (c : Z * bool * list accion) :
  resumen x = (Some r, c) -> exists s', x = Termina r s' /\ control s' = c.
Proof.
  destruct x as [u s|r' s]; simpl; intros H; inversion H; subst.
  now exists s.
Qed.

Lemma resumen_None (x : ejecucion) (c : Z * bool * list accion) :
  resumen x = (None, c) -> exists u s', x = EnCurso u s' /\ control s' = c.
Proof.
  destruct x as [u s|r' s]; simpl; intros H; inversion H; subst.
  now exists u, s.
Qed.

Lemma cuerpo_tension (sensor : entrada -> Z) (m : modo) (e : entrada)
    (u : Z) (s : estado) :
  3000 < sensor e ->
  exists s', cuerpo_de sensor m e u s = Termina AbortedByTension s' /\
             control s' = (contar (irq e) (pulsos_encoder s), false,
                           traza s ++ barrido 15 (ida_y_vuelta 50 130)).
Proof.
  intros H. apply resumen_Some. rewrite cuerpo_de_resumen.
  unfold paso_resumen, control.
  destruct (Z.ltb_spec 3000 (sensor e)); [reflexivity | lia].
Qed.

Lemma cuerpo_para (sensor : entrada -> Z) (m : modo) (e : entrada)
    (u : Z) (s : estado) :
  sensor e <= 3000 -> detenible m = true -> rot_sw e = false ->
  exists s', cuerpo_de sensor m e u s = Termina AbortedByOperator s' /\
             control s' = (contar (irq_rebote e) (contar (irq e) (pulsos_encoder s)),
                           false,
                           (traza s ++ barrido 15 (ida_y_vuelta 50 130))
                           ++ [Dormir 200; Dormir 2000]).
Proof.
  intros H Hd Hsw. apply resumen_Some. rewrite cuerpo_de_resumen.
  unfold paso_resumen, control. rewrite Hd, Hsw.
  destruct (Z.ltb_spec 3000 (sensor e)); [lia | reflexivity].
Qed.

Lemma cuerpo_sigue (sensor : entrada -> Z) (m : modo) (e : entrada)
    (u : Z) (s : estado) :
  sensor e <= 3000 -> detenible m && negb (rot_sw e) = false ->
  exists u' s', cuerpo_de sensor m e u s = EnCurso u' s' /\
                control s' = (contar (irq e) (pulsos_encoder s), motor_en s,
                              traza s ++ barrido 15 (ida_y_vuelta 50 130)).
Proof.
  intros H Hd. apply resumen_None. rewrite cuerpo_de_resumen.
  unfold paso_resumen, control. rewrite Hd.
  destruct (Z.ltb_spec 3000 (sensor e)); [lia | reflexivity].
Qed.

(** ** The loop *)

Section Bucle.

Variable cond : estado -> bool.
Variable cuerpo : entrada -> Z -> estado -> ejecucion.
Variable k : estado -> ejecucion.

(** The code after the loop returns. *)
Hypothesis k_termina :
  forall s, cond s = false -> exists r s', k s = Termina r s'.

Lemma mientras_cons (e : entrada) (es : list entrada) (u : Z) (s : estado) :
  cond s = true ->
  mientras cond cuerpo k (e :: es) u s
  = match cuerpo e u s with
    | EnCurso u' s' => mientras cond cuerpo k es u' s'
    | fin => fin
    end.
Proof. intros H. simpl. now rewrite H. Qed.

Lemma mientras_sale (es : list entrada) (u : Z) (s : estado) :
  cond s = false -> mientras cond cuerpo k es u s = k s.
Proof. intros H. destruct es; simpl; now rewrite H. Qed.

Lemma mientras_EnCurso_cond (es : list entrada) (u u1 : Z) (s s1 : estado) :
  mientras cond cuerpo k es u s = EnCurso u1 s1 -> cond s1 = true.
Proof.
  revert u s. induction es as [|e es IH]; intros u s H.
  - simpl in H. destruct (cond s) eqn:Hc.
    + now inversion H; subst.
    + destruct (k_termina s Hc) as (r & s' & Hk). congruence.
  - destruct (cond s) eqn:Hc.
    + rewrite mientras_cons in H by assumption.
      destruct (cuerpo e u s) as [u' s'|r s']; [eauto | discriminate].
    + rewrite mientras_sale in H by assumption.
      destruct (k_termina s Hc) as (r & s' & Hk). congruence.
Qed.

Lemma mientras_app_EnCurso (es1 es2 : list entrada) (u u1 : Z) (s s1 : estado) :
  mientras cond cuerpo k es1 u s = EnCurso u1 s1 ->
  mientras cond cuerpo k (es1 ++ es2) u s = mientras cond cuerpo k es2 u1 s1.
Proof.
  revert u s. induction es1 as [|e es1 IH]; intros u s H.
  - simpl in H. destruct (cond s) eqn:Hc.
    + now inversion H; subst.
    + destruct (k_termina s Hc) as (r & s' & Hk). congruence.
  - destruct (cond s) eqn:Hc.
    + rewrite mientras_cons in H by assumption.
      rewrite <- app_comm_cons, mientras_cons by assumption.
      destruct (cuerpo e u s) as [u' s'|r s']; [eauto | discriminate].
    + rewrite mientras_sale in H by assumption.
      destruct (k_termina s Hc) as (r & s' & Hk). congruence.
Qed.

Lemma mientras_app_Termina (es1 es2 : list entrada) (u : Z) (s : estado)
    (r : resultado) (s' : estado) :
  mientras cond cuerpo k es1 u s = Termina r s' ->
  mientras cond cuerpo k (es1 ++ es2) u s = Termina r s'.
Proof.
  revert u s. induction es1 as [|e es1 IH]; intros u s H.
  - destruct (cond s) eqn:Hc.
    + simpl in H. rewrite Hc in H. discriminate.
    + rewrite mientras_sale in * by assumption. assumption.
  - destruct (cond s) eqn:Hc.
    + rewrite mientras_cons in H by assumption.
      rewrite <- app_comm_cons, mientras_cons by assumption.
      destruct (cuerpo e u s) as [u' s1|r1 s1]; [eauto | assumption].
    + rewrite mientras_sale in * by assumption. assumption.
Qed.

End Bucle.

(** Every routine is: initialise (count 0, motor on), loop, and after the
    loop stop the motor and report completion. *)
Lemma enrollar_forma (sensor : entrada -> Z) (m : modo) (s : estado) :
  exists k s0,
    (forall es, enrollar sensor m es s
                = mientras (cond_de m) (cuerpo_de sensor m) k es 0 s0) /\
    control s0 = (0, true, traza s) /\
    (forall s1, cond_de m s1 = false ->
       exists s', k s1 = Termina Completed s' /\
                  control s' = (pulsos_encoder s1, false, traza s1 ++ [Dormir 2000])).
Proof.
  destruct m;
    (eexists; eexists; split; [intros es; reflexivity | split; [reflexivity|]]);
    intros s1 Hc; try discriminate; eexists; split; reflexivity.
Qed.

Lemma sale_termina (m : modo) (k : estado -> ejecucion) :
  (forall s1, cond_de m s1 = false ->
     exists s', k s1 = Termina Completed s' /\
                control s' = (pulsos_encoder s1, false, traza s1 ++ [Dormir 2000])) ->
  forall s, cond_de m s = false -> exists r s', k s = Termina r s'.
Proof.
  intros Hk s Hc. destruct (Hk s Hc) as (s' & H & _). eauto.
Qed.

Lemma control_motor (s : estado) (p : Z) (b : bool) (t : list accion) :
  control s = (p, b, t) -> motor_en s = b.
Proof. unfold control. now inversion 1. Qed.

Lemma control_pulsos (s : estado) (p : Z) (b : bool) (t : list accion) :
  control s = (p, b, t) -> pulsos_encoder s = p.
Proof. unfold control. now inversion 1. Qed.

Lemma control_traza (s : estado) (p : Z) (b : bool) (t : list accion) :
  control s = (p, b, t) -> traza s = t.
Proof. unfold control. now inversion 1. Qed.

(** The three ways a pass can go. *)
Lemma cuerpo_casos (sensor : entrada -> Z) (m : modo) (e : entrada)
    (u : Z) (s : estado) :
  (3000 < sensor e /\
   exists s', cuerpo_de sensor m e u s = Termina AbortedByTension s' /\
              motor_en s' = false /\
              pulsos_encoder s' = contar (irq e) (pulsos_encoder s)) \/
  (sensor e <= 3000 /\ detenible m = true /\ rot_sw e = false /\
   exists s', cuerpo_de sensor m e u s = Termina AbortedByOperator s' /\
              motor_en s' = false /\
              pulsos_encoder s'
              = contar (irq_rebote e) (contar (irq e) (pulsos_encoder s))) \/
  (sensor e <= 3000 /\ detenible m && negb (rot_sw e) = false /\
   exists u' s', cuerpo_de sensor m e u s = EnCurso u' s' /\
                 control s' = (contar (irq e) (pulsos_encoder s), motor_en s,
                               traza s ++ barrido 15 (ida_y_vuelta 50 130))).
Proof.
  destruct (Z.ltb_spec 3000 (sensor e)) as [Ht|Ht].
  - left. split; [assumption|].
    destruct (cuerpo_tension sensor m e u s Ht) as (s' & H & Hc).
    exists s'. pose proof (control_motor _ _ _ _ Hc).
    pose proof (control_pulsos _ _ _ _ Hc). auto.
  - destruct (detenible m && negb (rot_sw e)) eqn:Hd.
    + right; left. apply andb_prop in Hd. destruct Hd as [Hd Hsw].
      apply negb_true_iff in Hsw.
      destruct (cuerpo_para sensor m e u s Ht Hd Hsw) as (s' & H & Hc).
      repeat split; try assumption.
      exists s'. pose proof (control_motor _ _ _ _ Hc).
      pose proof (control_pulsos _ _ _ _ Hc). auto.
    + right; right. repeat split; try assumption.
      apply cuerpo_sigue; assumption.
Qed.

(** ** Tension and operator stop *)

(** C1. In each of the four winding modes, a pass of the loop in which the
    tension read is above 3000 ends the run in that same pass with outcome
    [AbortedByTension], the motor-enable output being low on return; the
    passes that would follow are not run. *)
Theorem tension_aborta (sensor : entrada -> Z) (m : modo)
    (es1 : list entrada) (e : entrada) (es2 : list entrada)
    (s : estado) (u : Z) (s1 : estado) :
  enrollar sensor m es1 s = EnCurso u s1 ->
  3000 < sensor e ->
  exists s', enrollar sensor m (es1 ++ e :: es2) s = Termina AbortedByTension s' /\
             motor_en s' = false.
Proof.
  intros Hrun Ht.
  destruct (enrollar_forma sensor m s) as (k & s0 & Hk & _ & Hsale).
  pose proof (sale_termina m k Hsale) as Hterm.
  rewrite Hk in *.
  rewrite (mientras_app_EnCurso _ _ _ Hterm _ _ _ _ _ _ Hrun).
  rewrite mientras_cons by (eapply mientras_EnCurso_cond; eassumption).
  destruct (cuerpo_tension sensor m e u s1 Ht) as (s' & -> & Hc).
  exists s'. split; [reflexivity|]. eapply control_motor; eassumption.
Qed.

Lemma tension_aborta_witness :
  3000 < sensor_hx711 (carga 3001) /\
  (exists s',
     enrollar sensor_hx711 (HiloManual 1) ([pasa_con 7] ++ carga 3001 :: [pasa])
       estado_inicial = Termina AbortedByTension s' /\ motor_en s' = false) /\
  (exists s',
     enrollar sensor_hx711 HiloAuto ([pasa_con 7] ++ carga 3001 :: [pasa])
       estado_inicial = Termina AbortedByTension s' /\ motor_en s' = false) /\
  (exists s',
     enrollar sensor_hx711 (CobreManual 100) ([pasa_con 7] ++ carga 3001 :: [pasa])
       estado_inicial = Termina AbortedByTension s' /\ motor_en s' = false) /\
  (exists s',
     enrollar sensor_hx711 CobreAuto ([pasa_con 7] ++ carga 3001 :: [pasa])
       estado_inicial = Termina AbortedByTension s' /\ motor_en s' = false).
Proof.
  split; [reflexivity|].
  repeat split;
    match goal with
    | |- exists s', enrollar _ ?m _ _ = _ /\ _ =>
        apply (tension_aborta sensor_hx711 m [pasa_con 7] (carga 3001) [pasa]
                 estado_inicial 0
                 (estado_de (enrollar sensor_hx711 m [pasa_con 7] estado_inicial)));
        [vm_compute; reflexivity | reflexivity]
    end.
Defined.

(** C2 (as amended). In the thread-automatic, copper-manual and
    copper-automatic modes, a pass in which the switch is pressed, the
    tension check (made first) not firing, ends the run in that pass with
    outcome [AbortedByOperator] and the motor-enable output low.  The
    thread-to-length routine never reads the switch: it never ends with
    [AbortedByOperator]. *)
Theorem parada_del_operador (sensor : entrada -> Z) :
  (forall (m : modo) (es1 : list entrada) (e : entrada) (es2 : list entrada)
          (s : estado) (u : Z) (s1 : estado),
      detenible m = true ->
      enrollar sensor m es1 s = EnCurso u s1 ->
      sensor e <= 3000 ->
      rot_sw e = false ->
      exists s', enrollar sensor m (es1 ++ e :: es2) s = Termina AbortedByOperator s' /\
                 motor_en s' = false) /\
  (forall (metros : Z) (es : list entrada) (s : estado) (r : resultado) (s' : estado),
      enrollar sensor (HiloManual metros) es s = Termina r s' ->
      r <> AbortedByOperator).
Proof.
  split.
  - intros m es1 e es2 s u s1 Hd Hrun Ht Hsw.
    destruct (enrollar_forma sensor m s) as (k & s0 & Hk & _ & Hsale).
    pose proof (sale_termina m k Hsale) as Hterm.
    rewrite Hk in *.
    rewrite (mientras_app_EnCurso _ _ _ Hterm _ _ _ _ _ _ Hrun).
    rewrite mientras_cons by (eapply mientras_EnCurso_cond; eassumption).
    destruct (cuerpo_para sensor m e u s1 Ht Hd Hsw) as (s' & -> & Hc).
    exists s'. split; [reflexivity|]. eapply control_motor; eassumption.
  - intros metros es s r s'.
    destruct (enrollar_forma sensor (HiloManual metros) s) as (k & s0 & Hk & _ & Hsale).
    rewrite Hk. generalize 0 at 1. generalize s0.
    induction es as [|e es IH]; intros s1 u H.
    + destruct (cond_de (HiloManual metros) s1) eqn:Hc.
      * simpl in H. rewrite Hc in H. discriminate.
      * rewrite mientras_sale in H by assumption.
        destruct (Hsale s1 Hc) as (s2 & Hs2 & _). congruence.
    + destruct (cond_de (HiloManual metros) s1) eqn:Hc.
      * rewrite mientras_cons in H by assumption.
        destruct (cuerpo_casos sensor (HiloManual metros) e u s1)
          as [(_ & s2 & Hs2 & _)|[(_ & Hd & _)|(_ & _ & u2 & s2 & Hs2 & _)]].
        -- rewrite Hs2 in H. congruence.
        -- discriminate.
        -- rewrite Hs2 in H. eauto.
      * rewrite mientras_sale in H by assumption.
        destruct (Hsale s1 Hc) as (s2 & Hs2 & _). congruence.
Qed.

Lemma parada_del_operador_witness :
  detenible CobreAuto = true /\
  sensor_hx711 pulsa_sw <= 3000 /\
  rot_sw pulsa_sw = false /\
  (exists s',
     enrollar sensor_hx711 HiloAuto ([pasa_con 7] ++ pulsa_sw :: [pasa])
       estado_inicial = Termina AbortedByOperator s' /\ motor_en s' = false) /\
  (exists s',
     enrollar sensor_hx711 (CobreManual 100) ([pasa_con 7] ++ pulsa_sw :: [pasa])
       estado_inicial = Termina AbortedByOperator s' /\ motor_en s' = false) /\
  (exists s',
     enrollar sensor_hx711 CobreAuto ([pasa_con 7] ++ pulsa_sw :: [pasa])
       estado_inicial = Termina AbortedByOperator s' /\ motor_en s' = false).
Proof.
  split; [reflexivity|]. split; [discriminate|]. split; [reflexivity|].
  repeat split;
    match goal with
    | |- exists s', enrollar _ ?m _ _ = _ /\ _ =>
        apply (proj1 (parada_del_operador sensor_hx711) m [pasa_con 7] pulsa_sw [pasa]
                 estado_inicial 0
                 (estado_de (enrollar sensor_hx711 m [pasa_con 7] estado_inicial)));
        [reflexivity | vm_compute; reflexivity | discriminate | reflexivity]
    end.
Defined.

(** C2 as stated fails: in the thread-to-length mode of the firmware, passes
    with the switch held pressed leave the run in progress with the motor
    enabled. *)
Lemma parada_ignorada_en_hilo_manual :
  fst (resumen (firmware (HiloManual 1) [pulsa_sw; pulsa_sw; pulsa_sw] estado_inicial))
  = None /\
  motor_en (estado_de (firmware (HiloManual 1) [pulsa_sw; pulsa_sw; pulsa_sw]
                         estado_inicial)) = true.
Proof. split; vm_compute; reflexivity. Qed.

(** ** What a run in progress, and a run that returned, look like *)

Section Corrida.

Variable sensor : entrada -> Z.
Variable m : modo.
Variable k : estado -> ejecucion.

Hypothesis k_sale :
  forall s1, cond_de m s1 = false ->
    exists s', k s1 = Termina Completed s' /\
               control s' = (pulsos_encoder s1, false, traza s1 ++ [Dormir 2000]).

Let bucle := mientras (cond_de m) (cuerpo_de sensor m) k.

Lemma cond_de_false (s : estado) :
  cond_de m s = false -> exists n, objetivo m = Some n /\ n <= pulsos_encoder s.
Proof.
  unfold cond_de. destruct (objetivo m) as [n|]; [|discriminate].
  intros H. exists n. split; [reflexivity|]. now apply Z.ltb_ge.
Qed.

Lemma cond_de_true (s : estado) (n : Z) :
  cond_de m s = true -> objetivo m = Some n -> pulsos_encoder s < n.
Proof.
  unfold cond_de. intros H Ho. rewrite Ho in H. now apply Z.ltb_lt.
Qed.

Lemma bucle_en_curso (es : list entrada) (u : Z) (s : estado) (u1 : Z) (s1 : estado) :
  bucle es u s = EnCurso u1 s1 ->
  control s1 = (contar (concat (map irq es)) (pulsos_encoder s), motor_en s,
                traza s ++ concat (repeat (barrido 15 (ida_y_vuelta 50 130))
                                          (length es))) /\
  Forall (fun e => sensor e <= 3000 /\ detenible m && negb (rot_sw e) = false) es.
Proof.
  pose proof (sale_termina m k k_sale) as Hterm. unfold bucle.
  revert u s. induction es as [|e es IH]; intros u s H.
  - destruct (cond_de m s) eqn:Hc.
    + simpl in H. rewrite Hc in H. inversion H; subst.
      simpl. rewrite app_nil_r. split; [reflexivity | constructor].
    + rewrite mientras_sale in H by assumption.
      destruct (Hterm s Hc) as (r & s' & Hk). congruence.
  - destruct (cond_de m s) eqn:Hc.
    + rewrite mientras_cons in H by assumption.
      destruct (cuerpo_casos sensor m e u s)
        as [(_ & s2 & Hs2 & _)|[(_ & _ & _ & s2 & Hs2 & _)|(Ht & Hd & u2 & s2 & Hs2 & Hc2)]];
        rewrite Hs2 in H; try discriminate.
      destruct (IH _ _ H) as [Hctl Hall].
      rewrite (control_pulsos _ _ _ _ Hc2), (control_motor _ _ _ _ Hc2),
              (control_traza _ _ _ _ Hc2) in Hctl.
      split; [|constructor; auto].
      rewrite Hctl. simpl. now rewrite contar_app, <- app_assoc.
    + rewrite mientras_sale in H by assumption.
      destruct (Hterm s Hc) as (r & s' & Hk). congruence.
Qed.

Lemma bucle_termina (es : list entrada) (u : Z) (s : estado) (r : resultado)
    (s' : estado) :
  bucle es u s = Termina r s' ->
  motor_en s' = false /\
  match r with
  | Completed => exists n, objetivo m = Some n /\ n <= pulsos_encoder s'
  | AbortedByOperator =>
      detenible m = true /\ exists e, In e es /\ rot_sw e = false /\ sensor e <= 3000
  | AbortedByTension => exists e, In e es /\ 3000 < sensor e
  end.
Proof.
  unfold bucle. revert u s. induction es as [|e es IH]; intros u s H.
  - destruct (cond_de m s) eqn:Hc.
    + simpl in H. rewrite Hc in H. discriminate.
    + rewrite mientras_sale in H by assumption.
      destruct (k_sale s Hc) as (s2 & Hs2 & Hc2). rewrite Hs2 in H.
      inversion H; subst. split; [eapply control_motor; eassumption|].
      rewrite (control_pulsos _ _ _ _ Hc2). now apply cond_de_false.
  - destruct (cond_de m s) eqn:Hc.
    + rewrite mientras_cons in H by assumption.
      destruct (cuerpo_casos sensor m e u s)
        as [(Ht & s2 & Hs2 & Hm & _)|[(Ht & Hd & Hsw & s2 & Hs2 & Hm & _)
                                     |(Ht & Hd & u2 & s2 & Hs2 & Hc2)]];
        rewrite Hs2 in H.
      * inversion H; subst. split; [assumption|]. exists e. simpl. auto.
      * inversion H; subst. split; [assumption|]. split; [assumption|].
        exists e. simpl. auto.
      * destruct (IH _ _ H) as [Hm Hr]. split; [assumption|].
        destruct r; [assumption| |].
        -- destruct Hr as (Hd' & e' & Hin & Hr). split; [assumption|].
           exists e'. simpl. auto.
        -- destruct Hr as (e' & Hin & Hr). exists e'. simpl. auto.
    + rewrite mientras_sale in H by assumption.
      destruct (k_sale s Hc) as (s2 & Hs2 & Hc2). rewrite Hs2 in H.
      inversion H; subst. split; [eapply control_motor; eassumption|].
      rewrite (control_pulsos _ _ _ _ Hc2). now apply cond_de_false.
Qed.

(** The count never goes down, as long as it stays in the [int] range. *)
Lemma bucle_pulsos (es : list entrada) (u : Z) (s : estado) :
  0 <= pulsos_encoder s ->
  pulsos_encoder s + flancos_totales es <= INT_MAX ->
  pulsos_encoder s <= pulsos_encoder (estado_de (bucle es u s))
  <= pulsos_encoder s + flancos_totales es.
Proof.
  unfold bucle. revert u s. induction es as [|e es IH]; intros u s H0 Hmax.
  - pose proof (flancos_totales_nonneg []).
    destruct (cond_de m s) eqn:Hc.
    + simpl. rewrite Hc. simpl. lia.
    + rewrite mientras_sale by assumption.
      destruct (k_sale s Hc) as (s2 & -> & Hc2). simpl estado_de.
      rewrite (control_pulsos _ _ _ _ Hc2). lia.
  - pose proof (flancos_totales_nonneg (e :: es)) as Hnn.
    destruct (cond_de m s) eqn:Hc.
    + rewrite mientras_cons by assumption.
      simpl flancos_totales in *.
      pose proof (flancos_nonneg (irq e)). pose proof (flancos_nonneg (irq_rebote e)).
      pose proof (flancos_totales_nonneg es).
      assert (Hi : contar (irq e) (pulsos_encoder s)
                   = pulsos_encoder s + flancos (irq e))
        by (apply contar_flancos; unfold INT_MIN; lia).
      destruct (cuerpo_casos sensor m e u s)
        as [(_ & s2 & -> & _ & Hp)|[(_ & _ & _ & s2 & -> & _ & Hp)
                                   |(_ & _ & u2 & s2 & -> & Hc2)]].
      * simpl estado_de. rewrite Hp, Hi. lia.
      * simpl estado_de. rewrite Hp, Hi.
        rewrite contar_flancos by (unfold INT_MIN; lia). lia.
      * pose proof (control_pulsos _ _ _ _ Hc2) as Hp. rewrite Hi in Hp.
        specialize (IH u2 s2). rewrite Hp in IH. lia.
    + rewrite mientras_sale by assumption.
      destruct (k_sale s Hc) as (s2 & -> & Hc2). simpl estado_de.
      rewrite (control_pulsos _ _ _ _ Hc2). lia.
Qed.

End Corrida.

Lemma corrida_en_curso (sensor : entrada -> Z) (m : modo) (es : list entrada)
    (s : estado) (u : Z) (s1 : estado) :
  enrollar sensor m es s = EnCurso u s1 ->
  control s1 = (contar (concat (map irq es)) 0, true,
                traza s ++ concat (repeat (barrido 15 (ida_y_vuelta 50 130))
                                          (length es))) /\
  cond_de m s1 = true /\
  Forall (fun e => sensor e <= 3000 /\ detenible m && negb (rot_sw e) = false) es.
Proof.
  destruct (enrollar_forma sensor m s) as (k & s0 & Hk & Hs0 & Hsale).
  rewrite Hk. intros H.
  destruct (bucle_en_curso sensor m k Hsale _ _ _ _ _ H) as [Hc Hall].
  rewrite (control_pulsos _ _ _ _ Hs0), (control_motor _ _ _ _ Hs0),
          (control_traza _ _ _ _ Hs0) in Hc.
  repeat split; try assumption.
  eapply mientras_EnCurso_cond; [apply (sale_termina m k Hsale) | eassumption].
Qed.

Lemma corrida_termina (sensor : entrada -> Z) (m : modo) (es : list entrada)
    (s : estado) (r : resultado) (s' : estado) :
  enrollar sensor m es s = Termina r s' ->
  motor_en s' = false /\
  match r with
  | Completed => exists n, objetivo m = Some n /\ n <= pulsos_encoder s'
  | AbortedByOperator =>
      detenible m = true /\ exists e, In e es /\ rot_sw e = false /\ sensor e <= 3000
  | AbortedByTension => exists e, In e es /\ 3000 < sensor e
  end.
Proof.
  destruct (enrollar_forma sensor m s) as (k & s0 & Hk & Hs0 & Hsale).
  rewrite Hk. apply bucle_termina; assumption.
Qed.

(** C10. The tension read of the firmware is constantly 0, which is not above
    3000: no pass of any of the four loops takes the tension branch, no run
    ends with [AbortedByTension] (a run that returns was completed or stopped
    by the operator), and the motor stays enabled for as long as a run is in
    progress. *)
Theorem tension_nunca_dispara :
  (forall e : entrada, leer_fuerza e = 0) /\
  (forall (m : modo) (e : entrada) (u : Z) (s s' : estado),
      cuerpo_de leer_fuerza m e u s <> Termina AbortedByTension s') /\
  (forall (m : modo) (es : list entrada) (s : estado) (r : resultado) (s' : estado),
      firmware m es s = Termina r s' -> r = Completed \/ r = AbortedByOperator) /\
  (forall (m : modo) (es : list entrada) (s : estado) (u : Z) (s' : estado),
      firmware m es s = EnCurso u s' -> motor_en s' = true).
Proof.
  split; [reflexivity|]. split; [|split].
  - intros m e u s s' H.
    destruct (cuerpo_casos leer_fuerza m e u s)
      as [(Ht & _)|[(_ & _ & _ & s2 & Hs2 & _)|(_ & _ & u2 & s2 & Hs2 & _)]].
    + unfold leer_fuerza in Ht. lia.
    + congruence.
    + congruence.
  - intros m es s r s' H. unfold firmware in H.
    destruct (corrida_termina _ _ _ _ _ _ H) as [_ Hr].
    destruct r; auto.
    destruct Hr as (e & _ & Ht). unfold leer_fuerza in Ht. lia.
  - intros m es s u s' H. unfold firmware in H.
    destruct (corrida_en_curso _ _ _ _ _ _ H) as (Hc & _).
    eapply control_motor; eassumption.
Qed.

Lemma tension_nunca_dispara_witness :
  firmware HiloAuto [carga 5000; carga 5000; pulsa_sw] estado_inicial
  = Termina AbortedByOperator
      (estado_de (firmware HiloAuto [carga 5000; carga 5000; pulsa_sw] estado_inicial)) /\
  (AbortedByOperator = Completed \/ AbortedByOperator = AbortedByOperator) /\
  firmware (HiloManual 1) [carga 5000; carga 5000] estado_inicial
  = EnCurso 0 (estado_de (firmware (HiloManual 1) [carga 5000; carga 5000]
                            estado_inicial)) /\
  motor_en (estado_de (firmware (HiloManual 1) [carga 5000; carga 5000]
                         estado_inicial)) = true.
Proof.
  assert (H1 : firmware HiloAuto [carga 5000; carga 5000; pulsa_sw] estado_inicial
               = Termina AbortedByOperator
                   (estado_de (firmware HiloAuto [carga 5000; carga 5000; pulsa_sw]
                                 estado_inicial)))
    by (vm_compute; reflexivity).
  assert (H2 : firmware (HiloManual 1) [carga 5000; carga 5000] estado_inicial
               = EnCurso 0 (estado_de (firmware (HiloManual 1) [carga 5000; carga 5000]
                                         estado_inicial)))
    by (vm_compute; reflexivity).
  split; [exact H1|]. split.
  - exact (proj1 (proj2 (proj2 tension_nunca_dispara)) _ _ _ _ _ H1).
  - split; [exact H2|].
    exact (proj2 (proj2 (proj2 tension_nunca_dispara)) _ _ _ _ _ H2).
Defined.

(** ** The pulse count *)

(** C9. Every winding routine starts by zeroing the count; the edge handler
    adds exactly one on a falling edge of the encoder pin and does nothing
    else; and within a run the count seen at the later point is never below
    the count seen at the earlier one.  The count is a C [int]: the
    statements are for counts that stay below [INT_MAX], the range in which
    the increment is defined. *)
Theorem pulsos_no_decrecen (sensor : entrada -> Z) (m : modo) :
  (forall s : estado, pulsos_encoder (estado_de (enrollar sensor m [] s)) = 0) /\
  (forall (gpio events : Z) (s : estado),
      INT_MIN <= pulsos_encoder s < INT_MAX ->
      gpio_callback gpio events s
      = if (gpio =? OPT_ENCODER_DT) && negb (Z.land events GPIO_IRQ_EDGE_FALL =? 0)
        then set_pulsos_encoder (pulsos_encoder s + 1) s
        else s) /\
  (forall (es1 es2 : list entrada) (s : estado),
      flancos_totales (es1 ++ es2) <= INT_MAX ->
      0 <= pulsos_encoder (estado_de (enrollar sensor m es1 s))
        <= pulsos_encoder (estado_de (enrollar sensor m (es1 ++ es2) s))).
Proof.
  split; [|split].
  - intros s.
    destruct (enrollar_forma sensor m s) as (k & s0 & Hk & Hs0 & Hsale).
    rewrite Hk.
    pose proof (bucle_pulsos sensor m k Hsale [] 0 s0) as H.
    rewrite (control_pulsos _ _ _ _ Hs0) in H.
    simpl flancos_totales in H. unfold INT_MAX in H. lia.
  - intros gpio events s H. unfold gpio_callback.
    now rewrite wrap_int_small by lia.
  - intros es1 es2 s Hmax.
    destruct (enrollar_forma sensor m s) as (k & s0 & Hk & Hs0 & Hsale).
    pose proof (sale_termina m k Hsale) as Hterm.
    rewrite !Hk. rewrite flancos_totales_app in Hmax.
    pose proof (flancos_totales_nonneg es1). pose proof (flancos_totales_nonneg es2).
    pose proof (bucle_pulsos sensor m k Hsale es1 0 s0) as H1.
    rewrite (control_pulsos _ _ _ _ Hs0) in H1.
    destruct (mientras (cond_de m) (cuerpo_de sensor m) k es1 0 s0)
      as [u1 s1|r s1] eqn:Hrun.
    + rewrite (mientras_app_EnCurso _ _ _ Hterm _ _ _ _ _ _ Hrun).
      simpl estado_de in *.
      pose proof (bucle_pulsos sensor m k Hsale es2 u1 s1) as H2. lia.
    + rewrite (mientras_app_Termina _ _ _ _ es2 _ _ _ _ Hrun).
      simpl estado_de in *. lia.
Qed.

Lemma pulsos_no_decrecen_witness :
  INT_MIN <= pulsos_encoder estado_inicial < INT_MAX /\
  gpio_callback 15 4 estado_inicial = set_pulsos_encoder 1 estado_inicial /\
  flancos_totales ([pasa_con 30; pasa] ++ [pasa_con 12]) <= INT_MAX /\
  0 <= pulsos_encoder (estado_de (firmware HiloAuto [pasa_con 30; pasa] estado_inicial))
    <= pulsos_encoder (estado_de (firmware HiloAuto ([pasa_con 30; pasa] ++ [pasa_con 12])
                                    estado_inicial)).
Proof.
  split; [vm_compute; split; [discriminate | reflexivity]|].
  split.
  - apply (proj1 (proj2 (pulsos_no_decrecen leer_fuerza HiloAuto)) 15 4 estado_inicial).
    vm_compute; split; [discriminate | reflexivity].
  - split; [vm_compute; discriminate|].
    apply (proj2 (proj2 (pulsos_no_decrecen leer_fuerza HiloAuto))
             [pasa_con 30; pasa] [pasa_con 12] estado_inicial).
    vm_compute; discriminate.
Defined.

(** ** Reaching the target *)

Lemma Some_eq (a b : Z) : Some a = Some b -> a = b.
Proof. intros H. now inversion H. Qed.

Lemma cond_de_control (m : modo) (s s' : estado) :
  control s = control s' -> cond_de m s = cond_de m s'.
Proof.
  unfold control, cond_de. intros H. inversion H as [[Hp Hm Ht]].
  now rewrite Hp.
Qed.

(** Two loops whose passes and exits agree on the control part of the state
    run alike, whatever their display bookkeeping. *)
Lemma mientras_resumen (cond : estado -> bool)
    (c1 c2 : entrada -> Z -> estado -> ejecucion) (k1 k2 : estado -> ejecucion) :
  (forall s s', control s = control s' -> cond s = cond s') ->
  (forall e u u' s s', control s = control s' ->
     resumen (c1 e u s) = resumen (c2 e u' s')) ->
  (forall s s', control s = control s' -> cond s = false ->
     resumen (k1 s) = resumen (k2 s')) ->
  forall es u u' s s', control s = control s' ->
    resumen (mientras cond c1 k1 es u s) = resumen (mientras cond c2 k2 es u' s').
Proof.
  intros Hcond Hc Hk es. induction es as [|e es IH]; intros u u' s s' H.
  - simpl. rewrite <- (Hcond s s' H). destruct (cond s) eqn:Hcs.
    + simpl. now rewrite H.
    + now apply Hk.
  - simpl. rewrite <- (Hcond s s' H). destruct (cond s) eqn:Hcs.
    + specialize (Hc e u u' s s' H).
      destruct (c1 e u s) as [v t|r t], (c2 e u' s') as [v' t'|r' t'];
        cbn [resumen] in *; try discriminate Hc.
      * apply IH. congruence.
      * exact Hc.
    + now apply Hk.
Qed.



(** ** Copper, automatic *)

(** C7. The copper-automatic routine runs to the target
    [calcular_vueltas_para_mH 1000]: on the same inputs it does to the count,
    the motor, the servo and the outcome exactly what the copper-manual
    routine does when given 1000 mH (the two differ only in what they
    display); it is in progress only below that count and completes only at
    or above it.  The value is 6015 turns. *)
Theorem cobre_auto_como_manual_1000 (sensor : entrada -> Z) (es : list entrada)
    (s : estado) :
  resumen (enrollar_cobre_auto sensor es s)
  = resumen (enrollar_cobre_manual sensor 1000 es s) /\
  (forall (u : Z) (s1 : estado),
      enrollar_cobre_auto sensor es s = EnCurso u s1 ->
      pulsos_encoder s1 < calcular_vueltas_para_mH 1000) /\
  (forall s' : estado,
      enrollar_cobre_auto sensor es s = Termina Completed s' ->
      calcular_vueltas_para_mH 1000 <= pulsos_encoder s') /\
  calcular_vueltas_para_mH 1000 = 6015.
Proof.
  split; [|split; [|split]].
  - change (enrollar_cobre_auto sensor es s) with (enrollar sensor CobreAuto es s).
    change (enrollar_cobre_manual sensor 1000 es s)
      with (enrollar sensor (CobreManual 1000) es s).
    destruct (enrollar_forma sensor CobreAuto s) as (k1 & s1 & Hk1 & Hs1 & Hsale1).
    destruct (enrollar_forma sensor (CobreManual 1000) s)
      as (k2 & s2 & Hk2 & Hs2 & Hsale2).
    rewrite Hk1, Hk2.
    change (cond_de (CobreManual 1000)) with (cond_de CobreAuto).
    apply mientras_resumen.
    + apply cond_de_control.
    + intros e u u' t t' H. now rewrite !cuerpo_de_resumen, H.
    + intros t t' H Hc.
      destruct (Hsale1 t Hc) as (t1 & -> & Ht1).
      assert (Hc' : cond_de (CobreManual 1000) t' = false)
        by (rewrite <- Hc; symmetry; now apply (cond_de_control CobreAuto)).
      destruct (Hsale2 t' Hc') as (t2 & -> & Ht2).
      simpl. rewrite Ht1, Ht2.
      unfold control in H. inversion H as [[Hp Hm Ht]]. now rewrite Hp, Ht.
    + congruence.
  - intros u s1 H.
    change (enrollar_cobre_auto sensor es s) with (enrollar sensor CobreAuto es s) in H.
    destruct (corrida_en_curso _ _ _ _ _ _ H) as (_ & Hc & _).
    now apply (cond_de_true CobreAuto s1).
  - intros s' H.
    change (enrollar_cobre_auto sensor es s) with (enrollar sensor CobreAuto es s) in H.
    destruct (corrida_termina _ _ _ _ _ _ H) as (_ & n' & Hn' & Hle).
    cbn [objetivo] in Hn'. apply Some_eq in Hn'. rewrite Hn'. exact Hle.
  - vm_compute. reflexivity.
Qed.

Lemma cobre_auto_como_manual_1000_witness :
  enrollar_cobre_auto leer_fuerza [pasa_con 6014] estado_inicial
  = EnCurso 0 (estado_de (enrollar_cobre_auto leer_fuerza [pasa_con 6014] estado_inicial)) /\
  pulsos_encoder (estado_de (enrollar_cobre_auto leer_fuerza [pasa_con 6014] estado_inicial))
  < calcular_vueltas_para_mH 1000 /\
  enrollar_cobre_auto leer_fuerza [pasa_con 6015] estado_inicial
  = Termina Completed
      (estado_de (enrollar_cobre_auto leer_fuerza [pasa_con 6015] estado_inicial)) /\
  calcular_vueltas_para_mH 1000
  <= pulsos_encoder (estado_de (enrollar_cobre_auto leer_fuerza [pasa_con 6015]
                                  estado_inicial)).
Proof.
  assert (H1 : enrollar_cobre_auto leer_fuerza [pasa_con 6014] estado_inicial
               = EnCurso 0 (estado_de (enrollar_cobre_auto leer_fuerza [pasa_con 6014]
                                         estado_inicial)))
    by (vm_compute; reflexivity).
  assert (H2 : enrollar_cobre_auto leer_fuerza [pasa_con 6015] estado_inicial
               = Termina Completed
                   (estado_de (enrollar_cobre_auto leer_fuerza [pasa_con 6015]
                                 estado_inicial)))
    by (vm_compute; reflexivity).
  split; [exact H1|]. split.
  - exact (proj1 (proj2 (cobre_auto_como_manual_1000 leer_fuerza [pasa_con 6014]
                           estado_inicial))
             0 (estado_de (enrollar_cobre_auto leer_fuerza [pasa_con 6014]
                             estado_inicial)) H1).
  - split; [exact H2|].
    exact (proj1 (proj2 (proj2 (cobre_auto_como_manual_1000 leer_fuerza [pasa_con 6015]
                                  estado_inicial)))
             (estado_de (enrollar_cobre_auto leer_fuerza [pasa_con 6015]
                           estado_inicial)) H2).
Defined.

(** ** The servo sweep *)

Lemma concat_repeat_snoc {A : Type} (l : list A) (n : nat) :
  concat (repeat l (S n)) = concat (repeat l n) ++ l.
Proof.
  induction n as [|n IH]; simpl in *.
  - now rewrite app_nil_r.
  - rewrite IH at 1. now rewrite app_assoc.
Qed.

Lemma angulos_barridos (pause : Z) (l : list Z) (n : nat) :
  angulos (concat (repeat (barrido pause l) n)) = concat (repeat l n).
Proof.
  induction n as [|n IH]; [reflexivity|].
  simpl. now rewrite angulos_app, angulos_barrido, IH.
Qed.

Lemma dormido_barridos (pause : Z) (l : list Z) (n : nat) :
  dormido (concat (repeat (barrido pause l) n))
  = Z.of_nat n * (pause * Z.of_nat (length l)).
Proof.
  induction n as [|n IH]; [reflexivity|].
  simpl concat. rewrite dormido_app, dormido_barrido, IH. lia.
Qed.

Lemma iterar_mover_traza (N : nat) (a b pause : Z) (s : estado) :
  traza (Nat.iter N (mover_servo_oscilando a b pause) s)
  = traza s ++ concat (repeat (barrido pause (ida_y_vuelta a b)) N).
Proof.
  induction N as [|N IH].
  - simpl. now rewrite app_nil_r.
  - rewrite concat_repeat_snoc. simpl Nat.iter.
    rewrite mover_servo_oscilando_traza, IH. now rewrite app_assoc.
Qed.

Lemma ida_y_vuelta_subida (a b k : Z) :
  0 <= k <= b - a -> nth (Z.to_nat k) (ida_y_vuelta a b) 0 = a + k.
Proof.
  intros H. unfold ida_y_vuelta.
  rewrite app_nth1 by (rewrite rango_length; lia).
  rewrite rango_nth by lia. lia.
Qed.

Lemma ida_y_vuelta_bajada (a b k : Z) :
  0 <= k <= b - a -> nth (Z.to_nat (b - a + 1 + k)) (ida_y_vuelta a b) 0 = b - k.
Proof.
  intros H. unfold ida_y_vuelta.
  rewrite app_nth2 by (rewrite rango_length; lia).
  rewrite rango_length.
  replace (Z.to_nat (b - a + 1 + k) - Z.to_nat (b - a + 1))%nat
    with (Z.to_nat k) by lia.
  rewrite rev_nth by (rewrite rango_length; lia).
  rewrite rango_length, rango_nth by lia. lia.
Qed.

(** After any positive number of calls the servo is back at [min_angle]. *)
Lemma posicion_tras_llamadas (N : nat) (a b pause : Z) (s : estado) :
  a <= b -> (0 < N)%nat ->
  posicion (Nat.iter N (mover_servo_oscilando a b pause) s) = Some a.
Proof.
  intros Hle HN. unfold posicion.
  rewrite iterar_mover_traza, angulos_app, angulos_barridos.
  destruct N as [|N]; [lia|].
  rewrite concat_repeat_snoc. unfold ida_y_vuelta at 2.
  rewrite !app_assoc, rev_app_distr, rev_involutive.
  unfold rango. replace (Z.to_nat (b - a + 1)) with (S (Z.to_nat (b - a))) by lia.
  simpl. f_equal. lia.
Qed.

(** C3 (as amended). One call of [mover_servo_oscilando] is a whole sweep:
    it commands every angle from [min_angle] up to [max_angle] and then from
    [max_angle] down to [min_angle], sleeping [pause_ms] after each command,
    2 * (max_angle - min_angle + 1) commands in all, and changes nothing else.
    Each pass of a winding loop makes one such call, so the tension, switch
    and target tests come once per whole sweep of 162 commands (2430 ms of
    delays), not once per angle step. *)
Theorem un_barrido_por_llamada (min_angle max_angle pause_ms : Z) (s : estado) :
  traza (mover_servo_oscilando min_angle max_angle pause_ms s)
  = traza s ++ barrido pause_ms (rango min_angle max_angle
                                   ++ rev (rango min_angle max_angle)) /\
  (pulsos_encoder (mover_servo_oscilando min_angle max_angle pause_ms s)
   = pulsos_encoder s /\
   motor_en (mover_servo_oscilando min_angle max_angle pause_ms s) = motor_en s) /\
  (min_angle <= max_angle ->
   Z.of_nat (length (ida_y_vuelta min_angle max_angle))
   = 2 * (max_angle - min_angle + 1)) /\
  (forall (sensor : entrada -> Z) (m : modo) (es : list entrada) (u : Z) (s1 : estado),
      enrollar sensor m es s = EnCurso u s1 ->
      angulos (traza s1)
      = angulos (traza s) ++ concat (repeat (ida_y_vuelta 50 130) (length es)) /\
      dormido (traza s1) = dormido (traza s) + 2430 * Z.of_nat (length es)).
Proof.
  split; [apply mover_servo_oscilando_traza|].
  split; [split; [apply mover_servo_oscilando_pulsos | apply mover_servo_oscilando_motor]|].
  split; [apply ida_y_vuelta_length|].
  intros sensor m es u s1 H.
  destruct (corrida_en_curso _ _ _ _ _ _ H) as (Hc & _).
  rewrite (control_traza _ _ _ _ Hc).
  rewrite angulos_app, dormido_app, angulos_barridos, dormido_barridos.
  split; [reflexivity|].
  change (Z.of_nat (length (ida_y_vuelta 50 130))) with 162. lia.
Qed.

Lemma un_barrido_por_llamada_witness :
  50 <= 130 /\
  Z.of_nat (length (ida_y_vuelta 50 130)) = 2 * (130 - 50 + 1) /\
  enrollar leer_fuerza HiloAuto [pasa; pasa; pasa] estado_inicial
  = EnCurso 0 (estado_de (enrollar leer_fuerza HiloAuto [pasa; pasa; pasa]
                            estado_inicial)) /\
  dormido (traza (estado_de (enrollar leer_fuerza HiloAuto [pasa; pasa; pasa]
                               estado_inicial)))
  = dormido (traza estado_inicial) + 2430 * Z.of_nat (length [pasa; pasa; pasa]).
Proof.
  assert (H : enrollar leer_fuerza HiloAuto [pasa; pasa; pasa] estado_inicial
              = EnCurso 0 (estado_de (enrollar leer_fuerza HiloAuto [pasa; pasa; pasa]
                                        estado_inicial)))
    by (vm_compute; reflexivity).
  split; [lia|]. split.
  - apply (proj1 (proj2 (proj2 (un_barrido_por_llamada 50 130 15 estado_inicial)))). lia.
  - split; [exact H|].
    exact (proj2 (proj2 (proj2 (proj2 (un_barrido_por_llamada 50 130 15 estado_inicial)))
                    leer_fuerza HiloAuto [pasa; pasa; pasa] 0
                    (estado_de (enrollar leer_fuerza HiloAuto [pasa; pasa; pasa]
                                  estado_inicial)) H)).
Defined.

(** C3 as stated fails: a single call with the bounds the loops use commands
    162 angles, the whole way up and down, and sleeps 2430 ms in all. *)
Lemma una_llamada_barre_todo :
  angulos (traza (mover_servo_oscilando 50 130 15 estado_inicial))
  = rango 50 130 ++ rev (rango 50 130) /\
  length (angulos (traza (mover_servo_oscilando 50 130 15 estado_inicial))) = 162%nat /\
  dormido (traza (mover_servo_oscilando 50 130 15 estado_inicial)) = 2430.
Proof. repeat split; vm_compute; reflexivity. Qed.

(** C8 (as amended). Driven by any number [N] of calls, the servo is only
    ever commanded to angles within [min_angle, max_angle].  Within each call
    the angle goes up by one from [min_angle] to [max_angle] (command number
    max_angle - min_angle, counting from 0, is [max_angle]), the next command
    repeats [max_angle], and from there the angle goes down by one to
    [min_angle], where the call ends: the direction changes at the two bounds
    and nowhere else, and the position after every call is [min_angle]. *)
Theorem oscilador_en_rango (N : nat) (min_angle max_angle pause_ms : Z) (s : estado) :
  angulos (traza (Nat.iter N (mover_servo_oscilando min_angle max_angle pause_ms) s))
  = angulos (traza s) ++ concat (repeat (ida_y_vuelta min_angle max_angle) N) /\
  Forall (fun a => min_angle <= a <= max_angle)
         (concat (repeat (ida_y_vuelta min_angle max_angle) N)) /\
  (forall k : Z, 0 <= k <= max_angle - min_angle ->
     nth (Z.to_nat k) (ida_y_vuelta min_angle max_angle) 0 = min_angle + k /\
     nth (Z.to_nat (max_angle - min_angle + 1 + k)) (ida_y_vuelta min_angle max_angle) 0
     = max_angle - k) /\
  (min_angle <= max_angle -> (0 < N)%nat ->
   posicion (Nat.iter N (mover_servo_oscilando min_angle max_angle pause_ms) s)
   = Some min_angle).
Proof.
  split; [|split; [|split]].
  - now rewrite iterar_mover_traza, angulos_app, angulos_barridos.
  - apply Forall_forall. intros a Ha.
    apply in_concat in Ha. destruct Ha as (l & Hl & Ha).
    apply repeat_spec in Hl. subst l. now apply ida_y_vuelta_In.
  - intros k Hk. split; [now apply ida_y_vuelta_subida | now apply ida_y_vuelta_bajada].
  - apply posicion_tras_llamadas.
Qed.

Lemma oscilador_en_rango_witness :
  0 <= 80 <= 130 - 50 /\
  nth (Z.to_nat 80) (ida_y_vuelta 50 130) 0 = 50 + 80 /\
  nth (Z.to_nat (130 - 50 + 1 + 80)) (ida_y_vuelta 50 130) 0 = 130 - 80 /\
  posicion (Nat.iter 3 (mover_servo_oscilando 50 130 15) estado_inicial) = Some 50.
Proof.
  split; [lia|].
  pose proof (oscilador_en_rango 3 50 130 15 estado_inicial) as (_ & _ & Hk & Hp).
  destruct (Hk 80 ltac:(lia)) as [H1 H2].
  split; [exact H1|]. split; [exact H2|].
  apply Hp; lia.
Defined.

(** C8 as stated fails: after max - min = 80 steps (calls) from the start
    the position is [min_angle] = 50, not [max_angle] = 130. *)
Lemma posicion_tras_80_llamadas :
  posicion (Nat.iter 80 (mover_servo_oscilando 50 130 15) estado_inicial) = Some 50 /\
  posicion (Nat.iter 80 (mover_servo_oscilando 50 130 15) estado_inicial) <> Some 130.
Proof.
  assert (H : posicion (Nat.iter 80 (mover_servo_oscilando 50 130 15) estado_inicial)
              = Some 50) by (apply posicion_tras_llamadas; lia).
  split; [exact H|]. rewrite H. discriminate.
Qed.

(** ** Quantity selectors and unit conversions *)

Lemma acotado (lo hi x : Z) :
  lo <= hi ->
  lo <= (if (if x <? lo then lo else x) >? hi then hi
         else (if x <? lo then lo else x)) <= hi.
Proof.
  intros H. destruct (Z.ltb_spec x lo); destruct (Z.gtb_spec lo hi);
    try destruct (Z.gtb_spec x hi); lia.
Qed.

Lemma bucle_seleccionar_metros_rango (es : list entrada) (metros : Z) (last : bool)
    (s : estado) (r : Z) (s' : estado) :
  1 <= metros <= 999 ->
  bucle_seleccionar_metros es metros last s = (Some r, s') ->
  1 <= r <= 999.
Proof.
  revert metros last s. induction es as [|e es IH]; intros metros last s Hm H;
    [discriminate|].
  cbn [bucle_seleccionar_metros] in H.
  destruct (negb (Bool.eqb (gpio_get ROT_CLK e) last)).
  - destruct (negb (Bool.eqb (gpio_get ROT_DT e) (gpio_get ROT_CLK e))).
    + pose proof (acotado 1 999 (metros + 1) ltac:(lia)).
      destruct (negb (gpio_get ROT_SW e)).
      * inversion H; subst. assumption.
      * eapply IH; [|exact H]. assumption.
    + pose proof (acotado 1 999 (metros - 1) ltac:(lia)).
      destruct (negb (gpio_get ROT_SW e)).
      * inversion H; subst. assumption.
      * eapply IH; [|exact H]. assumption.
  - destruct (negb (gpio_get ROT_SW e)).
    + inversion H; subst. assumption.
    + eapply IH; [|exact H]. assumption.
Qed.

(** The length handed to [enrollar_hasta] is between 1 and 999 metres. *)
Lemma seleccionar_metros_rango (e0 : entrada) (es : list entrada) (s : estado)
    (r : Z) (s' : estado) :
  seleccionar_metros e0 es s = (Some r, s') -> 1 <= r <= 999.
Proof. apply bucle_seleccionar_metros_rango. lia. Qed.

Lemma bucle_seleccionar_mHenrios_rango (es : list entrada) (mH : Z) (last : bool)
    (s : estado) (r : Z) (s' : estado) :
  10 <= mH <= 2000 ->
  bucle_seleccionar_mHenrios es mH last s = (Some r, s') ->
  10 <= r <= 2000.
Proof.
  revert mH last s. induction es as [|e es IH]; intros mH last s Hm H;
    [discriminate|].
  cbn [bucle_seleccionar_mHenrios] in H.
  destruct (negb (Bool.eqb (gpio_get ROT_CLK e) last)).
  - destruct (negb (Bool.eqb (gpio_get ROT_DT e) (gpio_get ROT_CLK e))).
    + pose proof (acotado 10 2000 (mH + 10) ltac:(lia)).
      destruct (negb (gpio_get ROT_SW e)).
      * inversion H; subst. assumption.
      * eapply IH; [|exact H]. assumption.
    + pose proof (acotado 10 2000 (mH - 10) ltac:(lia)).
      destruct (negb (gpio_get ROT_SW e)).
      * inversion H; subst. assumption.
      * eapply IH; [|exact H]. assumption.
  - destruct (negb (gpio_get ROT_SW e)).
    + inversion H; subst. assumption.
    + eapply IH; [|exact H]. assumption.
Qed.

(** The inductance handed to [enrollar_cobre_manual] is between 10 and
    2000 mH. *)
Lemma seleccionar_mHenrios_rango (e0 : entrada) (es : list entrada) (s : estado)
    (r : Z) (s' : estado) :
  seleccionar_mHenrios e0 es s = (Some r, s') -> 10 <= r <= 2000.
Proof. apply bucle_seleccionar_mHenrios_rango. lia. Qed.

Lemma revisar_metros_todos : forallb revisar_metros (rango 0 999) = true.
Proof. vm_compute. reflexivity. Qed.

Lemma revisar_vueltas_todos : forallb revisar_vueltas (rango 10 2000) = true.
Proof. vm_compute. reflexivity. Qed.

Lemma Qle_bool_false (x y : Q) : negb (Qle_bool x y) = true -> (y < x)%Q.
Proof.
  intros H. apply Qnot_le_lt. intros Hle.
  apply Qle_bool_iff in Hle. rewrite Hle in H. discriminate.
Qed.

(** C5 (as amended). [metresToPulses] is the whole number of pulses in
    metres * 100 * pulses_per_cm, with pulses_per_cm
    = pulses_per_revolution / (3.1416 * drum_diameter_cm): the product is
    cut down to an [int].  For every length from 0 to 999 metres (the
    selector gives 1 to 999) converting to pulses and back gives a length
    that is at most the original and less than half a millimetre below it:
    the round trip is exact to within one pulse, not to within
    floating-point rounding. *)
Theorem metros_a_pulsos_trunca (metros : Z) :
  0 <= metros <= 999 ->
  metresToPulses metros = Qfloor (Ideal.pulsos metros) /\
  finito (pulsesToMetres (metresToPulses metros)) = true /\
  (inject_Z metros - (1 # 2000) < valor (pulsesToMetres (metresToPulses metros)))%Q /\
  (valor (pulsesToMetres (metresToPulses metros)) <= inject_Z metros)%Q.
Proof.
  intros H.
  pose proof (forallb_rango _ _ _ revisar_metros_todos metros H) as Hr.
  unfold revisar_metros in Hr.
  apply andb_prop in Hr. destruct Hr as [Hr H4].
  apply andb_prop in Hr. destruct Hr as [Hr H3].
  apply andb_prop in Hr. destruct Hr as [H1 H2].
  split; [now apply Z.eqb_eq|]. split; [assumption|]. split.
  - now apply Qle_bool_false.
  - now apply Qle_bool_iff.
Qed.

Lemma metros_a_pulsos_trunca_witness :
  0 <= 250 <= 999 /\
  metresToPulses 250 = Qfloor (Ideal.pulsos 250) /\
  finito (pulsesToMetres (metresToPulses 250)) = true /\
  (inject_Z 250 - (1 # 2000) < valor (pulsesToMetres (metresToPulses 250)))%Q /\
  (valor (pulsesToMetres (metresToPulses 250)) <= inject_Z 250)%Q.
Proof.
  split; [lia|]. apply (metros_a_pulsos_trunca 250). lia.
Defined.

(** C5 as stated fails: one metre is 2273 pulses (of the 2273.63...
    that metres * 100 * pulses_per_cm gives), and 2273 pulses read back
    as 8386259 / 8388608 = 0.99972 m, more than a quarter of a millimetre
    short of 1 m (a float near 1 is exact to about 0.0000001). *)
Lemma un_metro_ida_y_vuelta :
  metresToPulses 1 = 2273 /\
  (Ideal.pulsos 1 == 62500000 # 27489)%Q /\
  pulsesToMetres (metresToPulses 1) = S754_finite false 16772518 (-24) /\
  (valor (pulsesToMetres (metresToPulses 1)) == 8386259 # 8388608)%Q /\
  (valor (pulsesToMetres (metresToPulses 1)) < 1 - (1 # 4000))%Q.
Proof. repeat split; vm_compute; reflexivity. Qed.

Lemma vueltas_paso (mH : Z) :
  10 <= mH <= 2000 ->
  calcular_vueltas_para_mH mH <= calcular_vueltas_para_mH (mH + 1).
Proof.
  intros H.
  pose proof (forallb_rango _ _ _ revisar_vueltas_todos mH H) as Hr.
  unfold revisar_vueltas in Hr.
  apply andb_prop in Hr. destruct Hr as [_ Hr]. now apply Z.leb_le.
Qed.

Lemma vueltas_monotona (n : nat) (a : Z) :
  10 <= a -> a + Z.of_nat n <= 2000 ->
  calcular_vueltas_para_mH a <= calcular_vueltas_para_mH (a + Z.of_nat n).
Proof.
  induction n as [|n IH]; intros Ha Hb.
  - rewrite Z.add_0_r. lia.
  - replace (a + Z.of_nat (S n)) with (a + Z.of_nat n + 1) by lia.
    etransitivity; [apply IH; lia | apply vueltas_paso; lia].
Qed.

(** Pi to six decimals, from the arctangent series of the Standard
    Library. *)
Lemma PI_cota : (3141592 / 1000000 < PI < 3141593 / 1000000)%R.
Proof.
  pose proof (PI_2_3_7_ineq 3) as [Hlo Hhi].
  unfold sum_f_R0, tg_alt, PI_2_3_7_tg, Ratan_seq in Hlo, Hhi.
  simpl in Hlo, Hhi.
  split; lra.
Qed.

Lemma Formula_vueltas_cuadrado (mH : Z) :
  ((IZR mH / 1000 * Formula.h) / (Formula.mu0 * Formula.A)
   = IZR mH * (2500000 / 7) / (PI * PI))%R.
Proof.
  pose proof PI_cota.
  unfold Formula.h, Formula.mu0, Formula.A, Formula.r. field. lra.
Qed.

Lemma Formula_vueltas_cotas (mH : Z) (lo hi : R) :
  (0 <= lo -> 0 < hi ->
   lo * lo * (3141593 / 1000000) * (3141593 / 1000000) <= IZR mH * (2500000 / 7) ->
   IZR mH * (2500000 / 7) < hi * hi * (3141592 / 1000000) * (3141592 / 1000000) ->
   lo <= Formula.vueltas mH < hi)%R.
Proof.
  intros Hlo Hhi H1 H2. pose proof PI_cota as [P1 P2].
  assert (Q1 : ((3141592 / 1000000) * (3141592 / 1000000) < PI * PI)%R) by nra.
  assert (Q2 : (PI * PI < (3141593 / 1000000) * (3141593 / 1000000))%R) by nra.
  assert (Q0 : (0 < PI * PI)%R) by nra.
  unfold Formula.vueltas. rewrite Formula_vueltas_cuadrado.
  set (K := (IZR mH * (2500000 / 7))%R) in *.
  assert (E : (K / (PI * PI) * (PI * PI) = K)%R) by (field; lra).
  assert (L1 : (lo * lo <= K / (PI * PI))%R).
  { apply Rmult_le_reg_r with (PI * PI)%R; [exact Q0|]. rewrite E. nra. }
  assert (L2 : (K / (PI * PI) < hi * hi)%R).
  { apply Rmult_lt_reg_r with (PI * PI)%R; [exact Q0|]. rewrite E. nra. }
  split.
  - rewrite <- (sqrt_square lo Hlo). now apply sqrt_le_1_alt.
  - rewrite <- (sqrt_square hi) by lra. apply sqrt_lt_1_alt. split; [|exact L2].
    apply Rle_trans with (lo * lo)%R; [nra | exact L1].
Qed.

Lemma revisar_vueltas_pi_todos : forallb revisar_vueltas_pi (rango 10 2000) = true.
Proof. vm_compute. reflexivity. Qed.

Lemma vueltas_cerca_de_pi (mH : Z) :
  10 <= mH <= 2000 ->
  (IZR (calcular_vueltas_para_mH mH) - 1 / 2 <= Formula.vueltas mH
   < IZR (calcular_vueltas_para_mH mH) + 3 / 2)%R.
Proof.
  intros H.
  pose proof (forallb_rango _ _ _ revisar_vueltas_pi_todos mH H) as Hr.
  unfold revisar_vueltas_pi in Hr. cbn zeta in Hr.
  set (n := calcular_vueltas_para_mH mH) in *.
  apply andb_prop in Hr. destruct Hr as [Hr H3].
  apply andb_prop in Hr. destruct Hr as [H1 H2].
  apply Z.leb_le in H1, H2. apply Z.ltb_lt in H3.
  apply IZR_le in H1, H2. apply IZR_lt in H3.
  rewrite !mult_IZR, minus_IZR, mult_IZR in H2.
  rewrite !mult_IZR, plus_IZR, mult_IZR in H3.
  apply Formula_vueltas_cotas; lra.
Qed.

(** C6. For every inductance from 10 to 2000 mH,
    [calcular_vueltas_para_mH] returns a positive number of turns, no
    smaller than for any smaller inductance in the range.  That number is
    sqrt((L*h)/(mu0*A)) with L = mH/1000 rounded to the nearest integer,
    halves up, when the formula is evaluated with the decimal constant
    3.1416 that the code writes for pi in mu0 and in A:
    r - 1/2 <= N < r + 1/2, stated on the squares.  Against the formula with
    pi itself (mu0 = 4 pi 10^-7, A = pi r^2) the result is the nearest
    integer or one less: r - 1/2 <= N < r + 3/2. *)
Theorem vueltas_para_mH_redondea (mH : Z) :
  10 <= mH <= 2000 ->
  0 < calcular_vueltas_para_mH mH /\
  (forall mH' : Z, mH <= mH' <= 2000 ->
     calcular_vueltas_para_mH mH <= calcular_vueltas_para_mH mH') /\
  ((2 * inject_Z (calcular_vueltas_para_mH mH) - 1)
   * (2 * inject_Z (calcular_vueltas_para_mH mH) - 1)
   <= 4 * Ideal.N_cuadrado mH)%Q /\
  (4 * Ideal.N_cuadrado mH
   < (2 * inject_Z (calcular_vueltas_para_mH mH) + 1)
     * (2 * inject_Z (calcular_vueltas_para_mH mH) + 1))%Q /\
  (IZR (calcular_vueltas_para_mH mH) - 1 / 2 <= Formula.vueltas mH
   < IZR (calcular_vueltas_para_mH mH) + 3 / 2)%R.
Proof.
  intros H.
  pose proof (forallb_rango _ _ _ revisar_vueltas_todos mH H) as Hr.
  unfold revisar_vueltas in Hr.
  apply andb_prop in Hr. destruct Hr as [Hr _].
  apply andb_prop in Hr. destruct Hr as [Hr H3].
  apply andb_prop in Hr. destruct Hr as [H1 H2].
  split; [now apply Z.ltb_lt|]. split; [|split; [|split]].
  - intros mH' H'.
    replace mH' with (mH + Z.of_nat (Z.to_nat (mH' - mH))) by lia.
    apply vueltas_monotona; lia.
  - apply Qle_bool_iff in H2. now rewrite Qred_correct in H2.
  - apply Qle_bool_false in H3. now rewrite Qred_correct in H3.
  - now apply vueltas_cerca_de_pi.
Qed.

Lemma vueltas_para_mH_redondea_witness :
  10 <= 100 <= 2000 /\
  100 <= 1000 <= 2000 /\
  0 < calcular_vueltas_para_mH 100 /\
  calcular_vueltas_para_mH 100 <= calcular_vueltas_para_mH 1000.
Proof.
  split; [lia|]. split; [lia|].
  pose proof (vueltas_para_mH_redondea 100 ltac:(lia)) as (H1 & H2 & _).
  split; [exact H1|]. apply H2. lia.
Defined.

(** C6, counterexample.  With pi itself the formula gives at least 4960.5
    turns for 680 mH and at least 6671.5 turns for 1230 mH, two values the
    selector can return: the nearest integers are 4961 and 6672, the code
    returns 4960 and 6671. *)
Lemma vueltas_680_uno_menos :
  calcular_vueltas_para_mH 680 = 4960 /\
  (4960 + 1 / 2 <= Formula.vueltas 680 < 4961 + 1 / 2)%R /\
  calcular_vueltas_para_mH 1230 = 6671 /\
  (6671 + 1 / 2 <= Formula.vueltas 1230 < 6672 + 1 / 2)%R.
Proof.
  split; [vm_compute; reflexivity|].
  split; [apply Formula_vueltas_cotas; lra|].
  split; [vm_compute; reflexivity|].
  apply Formula_vueltas_cotas; lra.
Qed.

(** * Further properties of the code *)

(** ** Servo level *)

Lemma nivel_pwm_eq (angle : Z) :
  0 <= angle <= 180 -> nivel_pwm angle = 1953 + angle * 1953 / 180.
Proof.
  intros H. unfold nivel_pwm.
  change (3906 - 1953) with 1953.
  rewrite wrap_int_small by (unfold INT_MIN, INT_MAX; lia).
  rewrite Z.quot_div_nonneg by lia.
  assert (0 <= angle * 1953 / 180) by (apply Z.div_pos; lia).
  assert (angle * 1953 / 180 <= 180 * 1953 / 180)
    by (apply Z.div_le_mono; lia).
  change (180 * 1953 / 180) with 1953 in *.
  apply Z.mod_small. lia.
Qed.

(** X1. For the angles the servo accepts, 0 to 180 degrees,
    [set_servo_angle] programs a PWM level between 1953 (1 ms) and 3906
    (2 ms), reached at the two ends, and a larger angle always gives a
    strictly larger level: every one-degree step of a sweep moves the
    servo. *)
Theorem nivel_pwm_creciente (a b : Z) :
  0 <= a -> a < b -> b <= 180 ->
  1953 <= nivel_pwm a /\ nivel_pwm a < nivel_pwm b /\ nivel_pwm b <= 3906 /\
  nivel_pwm 0 = 1953 /\ nivel_pwm 180 = 3906.
Proof.
  intros Ha Hab Hb.
  rewrite (nivel_pwm_eq a), (nivel_pwm_eq b) by lia.
  assert (0 <= a * 1953 / 180) by (apply Z.div_pos; lia).
  assert (b * 1953 / 180 <= 180 * 1953 / 180) by (apply Z.div_le_mono; lia).
  change (180 * 1953 / 180) with 1953 in *.
  assert (a * 1953 / 180 + 10 <= b * 1953 / 180).
  { rewrite <- (Z.div_add _ 10 180) by lia. apply Z.div_le_mono; lia. }
  repeat split; try lia; reflexivity.
Qed.

Lemma nivel_pwm_creciente_witness :
  0 <= 50 /\ 50 < 51 /\ 51 <= 180 /\
  1953 <= nivel_pwm 50 /\ nivel_pwm 50 < nivel_pwm 51 /\ nivel_pwm 51 <= 3906.
Proof.
  split; [lia|]. split; [lia|]. split; [lia|].
  pose proof (nivel_pwm_creciente 50 51 ltac:(lia) ltac:(lia) ltac:(lia))
    as (H1 & H2 & H3 & _).
  auto.
Defined.

(** ** More on the quantity selectors *)

Lemma giros_sin_pulsar (horario : bool) (n : nat) (last : bool) :
  Forall (fun e => rot_sw e = true) (giros horario n last).
Proof.
  revert last. induction n as [|n IH]; intros last; simpl; constructor; auto.
Qed.

Lemma bucle_seleccionar_metros_giros (horario : bool) (n : nat) (metros : Z)
    (last : bool) (resto : list entrada) (s : estado) :
  1 <= metros <= 999 ->
  exists s',
    bucle_seleccionar_metros (giros horario n last ++ resto) metros last s
    = bucle_seleccionar_metros resto
        (if horario then Z.min 999 (metros + Z.of_nat n)
         else Z.max 1 (metros - Z.of_nat n))
        (Nat.iter n negb last) s'.
Proof.
  revert metros last s. induction n as [|n IH]; intros metros last s Hm.
  - exists s. simpl. f_equal. destruct horario; lia.
  - rewrite Nat.iter_succ_r.
    cbn [giros app bucle_seleccionar_metros].
    unfold gpio_get. cbn [Z.eqb ROT_CLK ROT_SW ROT_DT Pos.eqb rot_clk rot_dt rot_sw].
    assert (Hneq : Bool.eqb (negb last) last = false) by now destruct last.
    rewrite Hneq. cbn [negb].
    destruct horario.
    + assert (Hneq' : Bool.eqb (negb (negb last)) (negb last) = false)
        by now destruct last.
      rewrite Hneq'. cbn [negb].
      match goal with
      | |- context [bucle_seleccionar_metros _ ?m ?l ?st] =>
          destruct (IH m l st) as [s' IH1]; [apply acotado; lia|];
          rewrite IH1; exists s'
      end.
      f_equal.
      destruct (Z.ltb_spec (metros + 1) 1); [lia|].
      destruct (Z.gtb_spec (metros + 1) 999); lia.
    + rewrite Bool.eqb_reflx. cbn [negb].
      match goal with
      | |- context [bucle_seleccionar_metros _ ?m ?l ?st] =>
          destruct (IH m l st) as [s' IH1]; [apply acotado; lia|];
          rewrite IH1; exists s'
      end.
      f_equal.
      destruct (Z.ltb_spec (metros - 1) 1);
        destruct (Z.gtb_spec 1 999); try destruct (Z.gtb_spec (metros - 1) 999); lia.
Qed.

Lemma bucle_seleccionar_metros_pulsa (e : entrada) (es : list entrada) (metros : Z)
    (last : bool) (s : estado) :
  rot_sw e = false -> rot_clk e = last ->
  fst (bucle_seleccionar_metros (e :: es) metros last s) = Some metros.
Proof.
  intros Hsw Hclk. cbn [bucle_seleccionar_metros].
  unfold gpio_get. cbn [Z.eqb ROT_CLK ROT_SW ROT_DT Pos.eqb].
  now rewrite Hclk, Bool.eqb_reflx, Hsw.
Qed.

(** X2. The length selector starts at 1 m, goes up by one for every step the
    knob is turned clockwise and down by one for every step anticlockwise,
    and saturates at 999 and at 1: [n] steps clockwise, then [k] steps
    anticlockwise, then a press return max(1, min(999, 1 + n) - k).  What
    follows the press is not read. *)
Theorem seleccionar_metros_satura (n k : nat) (e0 e : entrada)
    (es2 : list entrada) (s : estado) :
  rot_sw e = false ->
  rot_clk e = Nat.iter k negb (Nat.iter n negb (rot_clk e0)) ->
  fst (seleccionar_metros e0
         (giros true n (rot_clk e0)
          ++ giros false k (Nat.iter n negb (rot_clk e0)) ++ e :: es2) s)
  = Some (Z.max 1 (Z.min 999 (1 + Z.of_nat n) - Z.of_nat k)).
Proof.
  intros Hsw Hclk. unfold seleccionar_metros.
  change (gpio_get ROT_CLK e0) with (rot_clk e0).
  destruct (bucle_seleccionar_metros_giros true n 1 (rot_clk e0)
              (giros false k (Nat.iter n negb (rot_clk e0)) ++ e :: es2) s)
    as [s1 H1]; [lia|].
  rewrite H1.
  destruct (bucle_seleccionar_metros_giros false k (Z.min 999 (1 + Z.of_nat n))
              (Nat.iter n negb (rot_clk e0)) (e :: es2) s1)
    as [s2 H2]; [lia|].
  rewrite H2.
  now apply bucle_seleccionar_metros_pulsa.
Qed.

Lemma seleccionar_metros_satura_witness :
  rot_sw pulsa_sw = false /\
  rot_clk pulsa_sw = Nat.iter 5 negb (Nat.iter 1003 negb (rot_clk pasa)) /\
  fst (seleccionar_metros pasa
         (giros true 1003 (rot_clk pasa)
          ++ giros false 5 (Nat.iter 1003 negb (rot_clk pasa)) ++ pulsa_sw :: [pasa])
         estado_inicial)
  = Some (Z.max 1 (Z.min 999 (1 + Z.of_nat 1003) - Z.of_nat 5)).
Proof.
  assert (H : rot_clk pulsa_sw = Nat.iter 5 negb (Nat.iter 1003 negb (rot_clk pasa)))
    by (vm_compute; reflexivity).
  split; [reflexivity|]. split; [exact H|].
  exact (seleccionar_metros_satura 1003 5 pasa pulsa_sw [pasa] estado_inicial
           eq_refl H).
Defined.

Lemma bucle_seleccionar_metros_inv (es : list entrada) (metros : Z) (last : bool)
    (s : estado) :
  1 <= metros <= 999 ->
  match fst (bucle_seleccionar_metros es metros last s) with
  | Some r => 1 <= r <= 999 /\ Exists (fun e => rot_sw e = false) es
  | None => Forall (fun e => rot_sw e = true) es
  end /\
  pulsos_encoder (snd (bucle_seleccionar_metros es metros last s)) = pulsos_encoder s /\
  motor_en (snd (bucle_seleccionar_metros es metros last s)) = motor_en s.
Proof.
  revert metros last s. induction es as [|e es IH]; intros metros last s Hm.
  - simpl. auto.
  - cbn [bucle_seleccionar_metros]. rewrite gpio_get_ROT_SW.
    destruct (negb (Bool.eqb (gpio_get ROT_CLK e) last)).
    + destruct (negb (Bool.eqb (gpio_get ROT_DT e) (gpio_get ROT_CLK e))).
      * pose proof (acotado 1 999 (metros + 1) ltac:(lia)) as Hb.
        destruct (rot_sw e) eqn:Hsw; cbn [negb].
        -- match goal with
           | |- context [bucle_seleccionar_metros _ ?m ?l ?st] =>
               destruct (IH m l st Hb) as (H1 & H2 & H3)
           end.
           rewrite H2, H3. split; [|split; reflexivity].
           destruct (fst _); [destruct H1; split; auto | constructor; auto].
        -- cbn [fst snd]. split; [split; [assumption | now constructor]|].
           split; reflexivity.
      * pose proof (acotado 1 999 (metros - 1) ltac:(lia)) as Hb.
        destruct (rot_sw e) eqn:Hsw; cbn [negb].
        -- match goal with
           | |- context [bucle_seleccionar_metros _ ?m ?l ?st] =>
               destruct (IH m l st Hb) as (H1 & H2 & H3)
           end.
           rewrite H2, H3. split; [|split; reflexivity].
           destruct (fst _); [destruct H1; split; auto | constructor; auto].
        -- cbn [fst snd]. split; [split; [assumption | now constructor]|].
           split; reflexivity.
    + destruct (rot_sw e) eqn:Hsw; cbn [negb].
      * match goal with
        | |- context [bucle_seleccionar_metros _ ?m ?l ?st] =>
            destruct (IH m l st Hm) as (H1 & H2 & H3)
        end.
        rewrite H2, H3. split; [|split; reflexivity].
        destruct (fst _); [destruct H1; split; auto | constructor; auto].
      * cbn [fst snd]. split; [split; [assumption | now constructor]|].
        split; reflexivity.
Qed.

(** X3. Whatever the operator does with the knob, [seleccionar_metros]
    returns only when the switch is pressed (with no press in the passes it
    is still polling), the length it returns is between 1 and 999 metres, and
    it leaves the motor-enable output as it was. *)
Theorem seleccionar_metros_resultado (e0 : entrada) (es : list entrada) (s : estado) :
  (forall r : Z, fst (seleccionar_metros e0 es s) = Some r ->
     1 <= r <= 999 /\ Exists (fun e => rot_sw e = false) es) /\
  (Forall (fun e => rot_sw e = true) es -> fst (seleccionar_metros e0 es s) = None) /\
  motor_en (snd (seleccionar_metros e0 es s)) = motor_en s.
Proof.
  unfold seleccionar_metros.
  destruct (bucle_seleccionar_metros_inv es 1 (gpio_get ROT_CLK e0) s ltac:(lia))
    as (H1 & H2 & H3).
  split; [|split; [|assumption]].
  - intros r Hr. now rewrite Hr in H1.
  - intros Hall.
    destruct (fst (bucle_seleccionar_metros es 1 (gpio_get ROT_CLK e0) s));
      [|reflexivity].
    destruct H1 as [_ Hex]. apply Exists_exists in Hex.
    destruct Hex as (e & Hin & Hsw).
    rewrite Forall_forall in Hall. rewrite (Hall e Hin) in Hsw. discriminate.
Qed.

Lemma seleccionar_metros_resultado_witness :
  fst (seleccionar_metros pasa (giros true 4 true ++ [pulsa_sw]) estado_inicial)
  = Some 5 /\
  1 <= 5 <= 999 /\
  Forall (fun e => rot_sw e = true) (giros true 4 true) /\
  fst (seleccionar_metros pasa (giros true 4 true) estado_inicial) = None.
Proof.
  assert (H : fst (seleccionar_metros pasa (giros true 4 true ++ [pulsa_sw])
                     estado_inicial) = Some 5) by (vm_compute; reflexivity).
  split; [exact H|]. split.
  - exact (proj1 (proj1 (seleccionar_metros_resultado pasa
                           (giros true 4 true ++ [pulsa_sw]) estado_inicial) 5 H)).
  - split; [apply giros_sin_pulsar|].
    exact (proj1 (proj2 (seleccionar_metros_resultado pasa (giros true 4 true)
                           estado_inicial)) (giros_sin_pulsar true 4 true)).
Defined.

Lemma bucle_seleccionar_mHenrios_giros (horario : bool) (n : nat) (mH : Z)
    (last : bool) (resto : list entrada) (s : estado) :
  10 <= mH <= 2000 ->
  exists s',
    bucle_seleccionar_mHenrios (giros horario n last ++ resto) mH last s
    = bucle_seleccionar_mHenrios resto
        (if horario then Z.min 2000 (mH + 10 * Z.of_nat n)
         else Z.max 10 (mH - 10 * Z.of_nat n))
        (Nat.iter n negb last) s'.
Proof.
  revert mH last s. induction n as [|n IH]; intros mH last s Hm.
  - exists s. simpl. f_equal. destruct horario; lia.
  - rewrite Nat.iter_succ_r.
    cbn [giros app bucle_seleccionar_mHenrios].
    unfold gpio_get. cbn [Z.eqb ROT_CLK ROT_SW ROT_DT Pos.eqb rot_clk rot_dt rot_sw].
    assert (Hneq : Bool.eqb (negb last) last = false) by now destruct last.
    rewrite Hneq. cbn [negb].
    destruct horario.
    + assert (Hneq' : Bool.eqb (negb (negb last)) (negb last) = false)
        by now destruct last.
      rewrite Hneq'. cbn [negb].
      match goal with
      | |- context [bucle_seleccionar_mHenrios _ ?m ?l ?st] =>
          destruct (IH m l st) as [s' IH1]; [apply acotado; lia|];
          rewrite IH1; exists s'
      end.
      f_equal.
      destruct (Z.ltb_spec (mH + 10) 10); [lia|].
      destruct (Z.gtb_spec (mH + 10) 2000); lia.
    + rewrite Bool.eqb_reflx. cbn [negb].
      match goal with
      | |- context [bucle_seleccionar_mHenrios _ ?m ?l ?st] =>
          destruct (IH m l st) as [s' IH1]; [apply acotado; lia|];
          rewrite IH1; exists s'
      end.
      f_equal.
      destruct (Z.ltb_spec (mH - 10) 10);
        destruct (Z.gtb_spec 10 2000); try destruct (Z.gtb_spec (mH - 10) 2000); lia.
Qed.

Lemma bucle_seleccionar_mHenrios_pulsa (e : entrada) (es : list entrada) (mH : Z)
    (last : bool) (s : estado) :
  rot_sw e = false -> rot_clk e = last ->
  fst (bucle_seleccionar_mHenrios (e :: es) mH last s) = Some mH.
Proof.
  intros Hsw Hclk. cbn [bucle_seleccionar_mHenrios].
  unfold gpio_get. cbn [Z.eqb ROT_CLK ROT_SW ROT_DT Pos.eqb].
  now rewrite Hclk, Bool.eqb_reflx, Hsw.
Qed.

(** X4. The inductance selector starts at 100 mH, moves by 10 mH per step of
    the knob and saturates at 2000 and at 10: [n] steps clockwise, then [k]
    steps anticlockwise, then a press return
    max(10, min(2000, 100 + 10 n) - 10 k). *)
Theorem seleccionar_mHenrios_satura (n k : nat) (e0 e : entrada)
    (es2 : list entrada) (s : estado) :
  rot_sw e = false ->
  rot_clk e = Nat.iter k negb (Nat.iter n negb (rot_clk e0)) ->
  fst (seleccionar_mHenrios e0
         (giros true n (rot_clk e0)
          ++ giros false k (Nat.iter n negb (rot_clk e0)) ++ e :: es2) s)
  = Some (Z.max 10 (Z.min 2000 (100 + 10 * Z.of_nat n) - 10 * Z.of_nat k)).
Proof.
  intros Hsw Hclk. unfold seleccionar_mHenrios.
  change (gpio_get ROT_CLK e0) with (rot_clk e0).
  destruct (bucle_seleccionar_mHenrios_giros true n 100 (rot_clk e0)
              (giros false k (Nat.iter n negb (rot_clk e0)) ++ e :: es2) s)
    as [s1 H1]; [lia|].
  rewrite H1.
  destruct (bucle_seleccionar_mHenrios_giros false k (Z.min 2000 (100 + 10 * Z.of_nat n))
              (Nat.iter n negb (rot_clk e0)) (e :: es2) s1)
    as [s2 H2]; [lia|].
  rewrite H2.
  now apply bucle_seleccionar_mHenrios_pulsa.
Qed.

Lemma seleccionar_mHenrios_satura_witness :
  rot_sw pulsa_sw = false /\
  rot_clk pulsa_sw = Nat.iter 7 negb (Nat.iter 195 negb (rot_clk pasa)) /\
  fst (seleccionar_mHenrios pasa
         (giros true 195 (rot_clk pasa)
          ++ giros false 7 (Nat.iter 195 negb (rot_clk pasa)) ++ pulsa_sw :: [pasa])
         estado_inicial)
  = Some (Z.max 10 (Z.min 2000 (100 + 10 * Z.of_nat 195) - 10 * Z.of_nat 7)).
Proof.
  assert (H : rot_clk pulsa_sw = Nat.iter 7 negb (Nat.iter 195 negb (rot_clk pasa)))
    by (vm_compute; reflexivity).
  split; [reflexivity|]. split; [exact H|].
  exact (seleccionar_mHenrios_satura 195 7 pasa pulsa_sw [pasa] estado_inicial
           eq_refl H).
Defined.

Lemma acotado_decena (x : Z) :
  x mod 10 = 0 ->
  (if (if x <? 10 then 10 else x) >? 2000 then 2000
   else (if x <? 10 then 10 else x)) mod 10 = 0.
Proof.
  intros H. destruct (Z.ltb_spec x 10); destruct (Z.gtb_spec 10 2000);
    try destruct (Z.gtb_spec x 2000); try lia; try reflexivity; assumption.
Qed.

Lemma bucle_seleccionar_mHenrios_inv (es : list entrada) (mH : Z) (last : bool)
    (s : estado) :
  10 <= mH <= 2000 -> mH mod 10 = 0 ->
  match fst (bucle_seleccionar_mHenrios es mH last s) with
  | Some r => (10 <= r <= 2000 /\ r mod 10 = 0)
              /\ Exists (fun e => rot_sw e = false) es
  | None => Forall (fun e => rot_sw e = true) es
  end /\
  pulsos_encoder (snd (bucle_seleccionar_mHenrios es mH last s)) = pulsos_encoder s /\
  motor_en (snd (bucle_seleccionar_mHenrios es mH last s)) = motor_en s.
Proof.
  revert mH last s. induction es as [|e es IH]; intros mH last s Hm Hd.
  - simpl. auto.
  - cbn [bucle_seleccionar_mHenrios]. rewrite gpio_get_ROT_SW.
    destruct (negb (Bool.eqb (gpio_get ROT_CLK e) last)).
    + destruct (negb (Bool.eqb (gpio_get ROT_DT e) (gpio_get ROT_CLK e))).
      * pose proof (acotado 10 2000 (mH + 10) ltac:(lia)) as Hb.
        assert (Hd' : (mH + 10) mod 10 = 0)
          by (rewrite <- Z.add_mod_idemp_l, Hd by lia; reflexivity).
        pose proof (acotado_decena _ Hd') as Hd2.
        destruct (rot_sw e) eqn:Hsw; cbn [negb].
        -- match goal with
           | |- context [bucle_seleccionar_mHenrios _ ?m ?l ?st] =>
               destruct (IH m l st Hb Hd2) as (H1 & H2 & H3)
           end.
           rewrite H2, H3. split; [|split; reflexivity].
           destruct (fst _); [destruct H1; split; auto | constructor; auto].
        -- cbn [fst snd]. split; [split; [split; assumption | now constructor]|].
           split; reflexivity.
      * pose proof (acotado 10 2000 (mH - 10) ltac:(lia)) as Hb.
        assert (Hd' : (mH - 10) mod 10 = 0)
          by (rewrite <- Zminus_mod_idemp_l, Hd; reflexivity).
        pose proof (acotado_decena _ Hd') as Hd2.
        destruct (rot_sw e) eqn:Hsw; cbn [negb].
        -- match goal with
           | |- context [bucle_seleccionar_mHenrios _ ?m ?l ?st] =>
               destruct (IH m l st Hb Hd2) as (H1 & H2 & H3)
           end.
           rewrite H2, H3. split; [|split; reflexivity].
           destruct (fst _); [destruct H1; split; auto | constructor; auto].
        -- cbn [fst snd]. split; [split; [split; assumption | now constructor]|].
           split; reflexivity.
    + destruct (rot_sw e) eqn:Hsw; cbn [negb].
      * match goal with
        | |- context [bucle_seleccionar_mHenrios _ ?m ?l ?st] =>
            destruct (IH m l st Hm Hd) as (H1 & H2 & H3)
        end.
        rewrite H2, H3. split; [|split; reflexivity].
        destruct (fst _); [destruct H1; split; auto | constructor; auto].
      * cbn [fst snd]. split; [split; [split; assumption | now constructor]|].
        split; reflexivity.
Qed.

(** X5. Whatever the operator does with the knob, [seleccionar_mHenrios]
    returns only when the switch is pressed, the inductance it returns is a
    multiple of 10 between 10 and 2000 mH, and it leaves the motor-enable
    output as it was. *)
Theorem seleccionar_mHenrios_resultado (e0 : entrada) (es : list entrada) (s : estado) :
  (forall r : Z, fst (seleccionar_mHenrios e0 es s) = Some r ->
     (10 <= r <= 2000 /\ r mod 10 = 0) /\ Exists (fun e => rot_sw e = false) es) /\
  (Forall (fun e => rot_sw e = true) es -> fst (seleccionar_mHenrios e0 es s) = None) /\
  motor_en (snd (seleccionar_mHenrios e0 es s)) = motor_en s.
Proof.
  unfold seleccionar_mHenrios.
  destruct (bucle_seleccionar_mHenrios_inv es 100 (gpio_get ROT_CLK e0) s
              ltac:(lia) eq_refl)
    as (H1 & H2 & H3).
  split; [|split; [|assumption]].
  - intros r Hr. now rewrite Hr in H1.
  - intros Hall.
    destruct (fst (bucle_seleccionar_mHenrios es 100 (gpio_get ROT_CLK e0) s));
      [|reflexivity].
    destruct H1 as [_ Hex]. apply Exists_exists in Hex.
    destruct Hex as (e & Hin & Hsw).
    rewrite Forall_forall in Hall. rewrite (Hall e Hin) in Hsw. discriminate.
Qed.

Lemma seleccionar_mHenrios_resultado_witness :
  fst (seleccionar_mHenrios pasa (giros false 4 true ++ [pulsa_sw]) estado_inicial)
  = Some 60 /\
  (10 <= 60 <= 2000 /\ 60 mod 10 = 0) /\
  Forall (fun e => rot_sw e = true) (giros false 4 true) /\
  fst (seleccionar_mHenrios pasa (giros false 4 true) estado_inicial) = None.
Proof.
  assert (H : fst (seleccionar_mHenrios pasa (giros false 4 true ++ [pulsa_sw])
                     estado_inicial) = Some 60) by (vm_compute; reflexivity).
  split; [exact H|]. split.
  - exact (proj1 (proj1 (seleccionar_mHenrios_resultado pasa
                           (giros false 4 true ++ [pulsa_sw]) estado_inicial) 60 H)).
  - split; [apply giros_sin_pulsar|].
    exact (proj1 (proj2 (seleccionar_mHenrios_resultado pasa (giros false 4 true)
                           estado_inicial)) (giros_sin_pulsar false 4 true)).
Defined.

(** ** What a routine leaves behind when it returns *)

Lemma mientras_Termina_inv (P : resultado -> estado -> Prop)
    (cond : estado -> bool) (cuerpo : entrada -> Z -> estado -> ejecucion)
    (k : estado -> ejecucion) :
  (forall e u s r s', cuerpo e u s = Termina r s' -> P r s') ->
  (forall s r s', cond s = false -> k s = Termina r s' -> P r s') ->
  forall es u s r s', mientras cond cuerpo k es u s = Termina r s' -> P r s'.
Proof.
  intros Hc Hk es. induction es as [|e es IH]; intros u s r s' H; simpl in H.
  - destruct (cond s) eqn:Hcs; [discriminate | eauto].
  - destruct (cond s) eqn:Hcs; [|eauto].
    destruct (cuerpo e u s) as [u1 s1|r1 s1] eqn:Hb; [eauto|].
    injection H as <- <-. eauto.
Qed.

Lemma cuerpo_de_mensaje (sensor : entrada -> Z) (m : modo) (e : entrada) (u : Z)
    (s : estado) (r : resultado) (s' : estado) :
  cuerpo_de sensor m e u s = Termina r s' ->
  oled s' = buffer s' /\ hd_error (oled s') = Some (0, 0, Texto (mensaje m r)).
Proof.
  destruct m; unfold cuerpo_de;
    [unfold cuerpo_hasta | unfold cuerpo_auto | unfold cuerpo_cobre_manual
     | unfold cuerpo_cobre_auto];
    match goal with |- context [if ?c <=? ?x then _ else _] => destruct (c <=? x) end;
    destruct (3000 <? sensor e); unfold tension_excesiva, cobre_detenido;
    try destruct (negb (gpio_get ROT_SW e));
    intros H; try discriminate H;
    (apply (f_equal resumen) in H as Hr; cbn [resumen] in Hr;
     apply (f_equal fst) in Hr; cbn [fst] in Hr;
     apply (f_equal estado_de) in H; cbn [estado_de] in H;
     subst s'; injection Hr as <-; split; reflexivity).
Qed.

(** X6. Every return of a winding routine leaves its own message on the
    panel: what is shown is what was last drawn, and its first line is
    "TENSION EXCESIVA!" after a tension fault, "Enrollado detenido." after an
    operator stop, and a completion message otherwise; the three kinds of
    message differ, so the outcome of a run can be read off the panel. *)
Theorem mensaje_de_salida (sensor : entrada -> Z) (m : modo) (es : list entrada)
    (s : estado) (r : resultado) (s' : estado) :
  enrollar sensor m es s = Termina r s' ->
  oled s' = buffer s' /\
  hd_error (oled s') = Some (0, 0, Texto (mensaje m r)) /\
  (forall (m' : modo) (r' : resultado), mensaje m' r' = mensaje m r -> r' = r).
Proof.
  intros H.
  assert (Hd : forall (m' : modo) (r' : resultado), mensaje m' r' = mensaje m r -> r' = r).
  { intros m' r'. destruct m, r, m', r'; simpl; intros E;
      solve [reflexivity | discriminate E]. }
  assert (Hmain : oled s' = buffer s' /\
                  hd_error (oled s') = Some (0, 0, Texto (mensaje m r))).
  { clear Hd. destruct m; cbn [enrollar] in H.
    - unfold enrollar_hasta in H.
      refine (mientras_Termina_inv
                (fun r s' => oled s' = buffer s' /\
                             hd_error (oled s')
                             = Some (0, 0, Texto (mensaje (HiloManual metros) r)))
                _ _ _ _ _ es _ _ r s' H).
      + intros e u s1 r1 s1'. apply (cuerpo_de_mensaje sensor (HiloManual metros)).
      + intros s1 r1 s1' _ Hk. injection Hk as <- <-. split; reflexivity.
    - unfold enrollar_auto in H.
      refine (mientras_Termina_inv
                (fun r s' => oled s' = buffer s' /\
                             hd_error (oled s') = Some (0, 0, Texto (mensaje HiloAuto r)))
                _ _ _ _ _ es _ _ r s' H).
      + intros e u s1 r1 s1'. apply (cuerpo_de_mensaje sensor HiloAuto).
      + intros s1 r1 s1' _ Hk. discriminate Hk.
    - unfold enrollar_cobre_manual in H.
      refine (mientras_Termina_inv
                (fun r s' => oled s' = buffer s' /\
                             hd_error (oled s')
                             = Some (0, 0, Texto (mensaje (CobreManual milihenrios) r)))
                _ _ _ _ _ es _ _ r s' H).
      + intros e u s1 r1 s1'. apply (cuerpo_de_mensaje sensor (CobreManual milihenrios)).
      + intros s1 r1 s1' _ Hk. injection Hk as <- <-. split; reflexivity.
    - unfold enrollar_cobre_auto in H.
      refine (mientras_Termina_inv
                (fun r s' => oled s' = buffer s' /\
                             hd_error (oled s') = Some (0, 0, Texto (mensaje CobreAuto r)))
                _ _ _ _ _ es _ _ r s' H).
      + intros e u s1 r1 s1'. apply (cuerpo_de_mensaje sensor CobreAuto).
      + intros s1 r1 s1' _ Hk. injection Hk as <- <-. split; reflexivity. }
  destruct Hmain as [H1 H2]. auto.
Qed.

Lemma mensaje_de_salida_witness :
  enrollar leer_fuerza CobreAuto [pasa_con 10; pulsa_sw] estado_inicial
  = Termina AbortedByOperator
      (estado_de (enrollar leer_fuerza CobreAuto [pasa_con 10; pulsa_sw] estado_inicial)) /\
  hd_error (oled (estado_de (enrollar leer_fuerza CobreAuto [pasa_con 10; pulsa_sw]
                               estado_inicial)))
  = Some (0, 0, Texto (mensaje CobreAuto AbortedByOperator)).
Proof.
  assert (H : enrollar leer_fuerza CobreAuto [pasa_con 10; pulsa_sw] estado_inicial
              = Termina AbortedByOperator
                  (estado_de (enrollar leer_fuerza CobreAuto [pasa_con 10; pulsa_sw]
                                estado_inicial)))
    by (vm_compute; reflexivity).
  split; [exact H|].
  exact (proj1 (proj2 (mensaje_de_salida leer_fuerza CobreAuto [pasa_con 10; pulsa_sw]
                         estado_inicial AbortedByOperator
                         (estado_de (enrollar leer_fuerza CobreAuto
                                       [pasa_con 10; pulsa_sw] estado_inicial))
                         H))).
Defined.

Lemma barrido_termina_en_espera :
  exists t, barrido 15 (ida_y_vuelta 50 130) = t ++ [Dormir 15].
Proof.
  exists (removelast (barrido 15 (ida_y_vuelta 50 130))).
  vm_compute. reflexivity.
Qed.

(** X7. A winding routine that returns after reaching its target or after an
    operator stop holds its last message for 2000 ms before returning.  On a
    tension fault it returns as soon as the message is shown: the last delay
    before the return is the 15 ms of the last sweep step. *)
Theorem espera_de_salida (sensor : entrada -> Z) (m : modo) (es : list entrada)
    (s : estado) (r : resultado) (s' : estado) :
  enrollar sensor m es s = Termina r s' ->
  exists t, traza s' = t ++ [ultima_espera r].
Proof.
  destruct (enrollar_forma sensor m s) as (k & s0 & Hk & _ & Hsale).
  rewrite Hk.
  apply (mientras_Termina_inv (fun r s' => exists t, traza s' = t ++ [ultima_espera r])).
  - intros e u s1 r1 s1' H.
    destruct (Z.ltb_spec 3000 (sensor e)) as [Ht|Ht].
    + destruct (cuerpo_tension sensor m e u s1 Ht) as (s2 & H2 & Hc).
      rewrite H2 in H. injection H as <- <-.
      rewrite (control_traza _ _ _ _ Hc).
      destruct barrido_termina_en_espera as [t ->].
      exists (traza s1 ++ t). now rewrite app_assoc.
    + destruct (detenible m && negb (rot_sw e)) eqn:Hd.
      * apply andb_prop in Hd. destruct Hd as [Hd Hsw]. apply negb_true_iff in Hsw.
        destruct (cuerpo_para sensor m e u s1 Ht Hd Hsw) as (s2 & H2 & Hc).
        rewrite H2 in H. injection H as <- <-.
        rewrite (control_traza _ _ _ _ Hc).
        exists ((traza s1 ++ barrido 15 (ida_y_vuelta 50 130)) ++ [Dormir 200]).
        now rewrite <- !app_assoc.
      * destruct (cuerpo_sigue sensor m e u s1 Ht Hd) as (u2 & s2 & H2 & _).
        congruence.
  - intros s1 r1 s1' Hc H.
    destruct (Hsale s1 Hc) as (s2 & H2 & Hc2).
    rewrite H2 in H. injection H as <- <-.
    rewrite (control_traza _ _ _ _ Hc2). now exists (traza s1).
Qed.

Lemma espera_de_salida_witness :
  enrollar sensor_hx711 HiloAuto [pasa; carga 4000] estado_inicial
  = Termina AbortedByTension
      (estado_de (enrollar sensor_hx711 HiloAuto [pasa; carga 4000] estado_inicial)) /\
  exists t,
    traza (estado_de (enrollar sensor_hx711 HiloAuto [pasa; carga 4000] estado_inicial))
    = t ++ [ultima_espera AbortedByTension].
Proof.
  assert (H : enrollar sensor_hx711 HiloAuto [pasa; carga 4000] estado_inicial
              = Termina AbortedByTension
                  (estado_de (enrollar sensor_hx711 HiloAuto [pasa; carga 4000]
                                estado_inicial)))
    by (vm_compute; reflexivity).
  split; [exact H|].
  exact (espera_de_salida sensor_hx711 HiloAuto [pasa; carga 4000] estado_inicial
           AbortedByTension
           (estado_de (enrollar sensor_hx711 HiloAuto [pasa; carga 4000] estado_inicial))
           H).
Defined.

(** ** Thread targets *)

Lemma revisar_pulsos_todos : forallb revisar_pulsos (rango 0 998) = true.
Proof. vm_compute. reflexivity. Qed.

Lemma metresToPulses_paso (n : nat) (a : Z) :
  0 <= a -> a + Z.of_nat (S n) <= 999 ->
  metresToPulses a < metresToPulses (a + Z.of_nat (S n)).
Proof.
  induction n as [|n IH]; intros Ha Hb.
  - pose proof (forallb_rango _ _ _ revisar_pulsos_todos a ltac:(lia)) as Hr.
    unfold revisar_pulsos in Hr.
    apply andb_prop in Hr. destruct Hr as [Hr _].
    apply andb_prop in Hr. destruct Hr as [Hr _].
    apply Z.ltb_lt in Hr. exact Hr.
  - pose proof (forallb_rango _ _ _ revisar_pulsos_todos (a + Z.of_nat (S n))
                  ltac:(lia)) as Hr.
    unfold revisar_pulsos in Hr.
    apply andb_prop in Hr. destruct Hr as [Hr _].
    apply andb_prop in Hr. destruct Hr as [Hr _].
    apply Z.ltb_lt in Hr.
    replace (a + Z.of_nat (S (S n))) with (a + Z.of_nat (S n) + 1) by lia.
    specialize (IH Ha ltac:(lia)). lia.
Qed.

(** X8. For the lengths the selector can give (and 0), the pulse target of
    the thread-to-length routine grows strictly with the length, so a longer
    request never stops earlier, and it stays within the range of an [int]:
    the conversion from double never overflows. *)
Theorem metresToPulses_creciente (a b : Z) :
  0 <= a -> a < b -> b <= 999 ->
  0 <= metresToPulses a /\
  metresToPulses a < metresToPulses b /\
  metresToPulses b <= INT_MAX.
Proof.
  intros Ha Hab Hb.
  pose proof (forallb_rango _ _ _ revisar_pulsos_todos a ltac:(lia)) as Hra.
  pose proof (forallb_rango _ _ _ revisar_pulsos_todos (b - 1) ltac:(lia)) as Hrb.
  unfold revisar_pulsos in Hra, Hrb.
  apply andb_prop in Hra. destruct Hra as [Hra _].
  apply andb_prop in Hra. destruct Hra as [_ Hra].
  apply andb_prop in Hrb. destruct Hrb as [_ Hrb].
  replace (b - 1 + 1) with b in Hrb by lia.
  apply Z.leb_le in Hra, Hrb.
  split; [exact Hra|]. split; [|exact Hrb].
  replace b with (a + Z.of_nat (S (Z.to_nat (b - a - 1)))) by lia.
  apply metresToPulses_paso; lia.
Qed.

Lemma metresToPulses_creciente_witness :
  0 <= 1 /\ 1 < 999 /\ 999 <= 999 /\
  0 <= metresToPulses 1 /\ metresToPulses 1 < metresToPulses 999 /\
  metresToPulses 999 <= INT_MAX.
Proof.
  split; [lia|]. split; [lia|]. split; [lia|].
  exact (metresToPulses_creciente 1 999 ltac:(lia) ltac:(lia) ltac:(lia)).
Defined.

(** ** The display driver *)

Lemma poner_length (i : nat) (v : Z) (l : list Z) :
  length (SSD1306.poner i v l) = length l.
Proof.
  revert i. induction l as [|h t IH]; intros [|i]; simpl; auto.
Qed.

Lemma poner_nth (i j : nat) (v d : Z) (l : list Z) :
  (i < length l)%nat ->
  nth j (SSD1306.poner i v l) d = if Nat.eqb j i then v else nth j l d.
Proof.
  revert i j. induction l as [|h t IH]; intros i j Hi; simpl in Hi; [lia|].
  destruct i as [|i], j as [|j]; simpl; try reflexivity.
  apply IH. lia.
Qed.

Lemma poner_Forall (P : Z -> Prop) (i : nat) (v : Z) (l : list Z) :
  P v -> Forall P l -> Forall P (SSD1306.poner i v l).
Proof.
  intros Hv Hl. revert i. induction Hl as [|h t Hh Ht IH]; intros [|i]; simpl;
    constructor; auto.
Qed.

Lemma bit_de_mascara (k n : Z) :
  0 <= k -> Z.testbit (Z.shiftl 1 k) n = (k =? n).
Proof.
  intros Hk. rewrite Z.shiftl_1_l. now apply Z.pow2_bits_eqb.
Qed.

Lemma bit_de_uint8 (b n : Z) :
  0 <= n < 8 -> Z.testbit (SSD1306.uint8 b) n = Z.testbit b n.
Proof.
  intros Hn. unfold SSD1306.uint8. change 256 with (2 ^ 8).
  apply Z.mod_pow2_bits_low. lia.
Qed.

(** The byte and the bit of a pixel determine it. *)
Lemma celda_de_pixel (x y x' y' : Z) :
  0 <= x < 128 -> 0 <= y -> 0 <= x' < 128 -> 0 <= y' ->
  (x + y / 8 * 128 = x' + y' / 8 * 128 /\ y mod 8 = y' mod 8) <-> (x = x' /\ y = y').
Proof.
  intros Hx Hy Hx' Hy'.
  pose proof (Z.div_mod y 8 ltac:(lia)) as E.
  pose proof (Z.div_mod y' 8 ltac:(lia)) as E'.
  pose proof (Z.mod_pos_bound y 8 ltac:(lia)).
  pose proof (Z.mod_pos_bound y' 8 ltac:(lia)).
  pose proof (Z.div_pos y 8 Hy ltac:(lia)).
  pose proof (Z.div_pos y' 8 Hy' ltac:(lia)).
  split.
  - intros [G1 G2]. lia.
  - intros [-> ->]. auto.
Qed.

Lemma draw_pixel_spec (x y : Z) (c : bool) (p : SSD1306.pantalla) :
  SSD1306.bien_formada p ->
  0 <= x -> 0 <= y ->
  (forall x' y' : Z,
      SSD1306.en_pantalla x' y' ->
      SSD1306.pixel x' y' (SSD1306.ssd1306_draw_pixel x y c p)
      = if (x' =? x) && (y' =? y) then c else SSD1306.pixel x' y' p) /\
  SSD1306.bien_formada (SSD1306.ssd1306_draw_pixel x y c p) /\
  SSD1306.i2c (SSD1306.ssd1306_draw_pixel x y c p) = SSD1306.i2c p /\
  (128 <= x \/ 64 <= y -> SSD1306.ssd1306_draw_pixel x y c p = p).
Proof.
  intros [Hlen Hbytes] Hx Hy.
  unfold SSD1306.ssd1306_draw_pixel, SSD1306.SSD1306_WIDTH, SSD1306.SSD1306_HEIGHT.
  destruct (Z.geb_spec x 128) as [Hx1|Hx1]; cbn [orb].
  { split; [|split; [split; assumption | split; [reflexivity | auto]]].
    intros x' y' [Hx' Hy']. unfold SSD1306.SSD1306_WIDTH in Hx'.
    destruct (Z.eqb_spec x' x); [lia | reflexivity]. }
  destruct (Z.geb_spec y 64) as [Hy1|Hy1].
  { split; [|split; [split; assumption | split; [reflexivity | auto]]].
    intros x' y' [Hx' Hy']. unfold SSD1306.SSD1306_HEIGHT in Hy'.
    destruct (Z.eqb_spec y' y); [lia | now rewrite andb_false_r]. }
  pose proof (Z.div_mod y 8 ltac:(lia)) as Ey.
  pose proof (Z.mod_pos_bound y 8 ltac:(lia)) as By.
  pose proof (Z.div_pos y 8 Hy ltac:(lia)) as Dy.
  assert (Hi : (Z.to_nat (x + y / 8 * 128) < length (SSD1306.buffer p))%nat)
    by (rewrite Hlen; lia).
  split; [|split; [|split; [reflexivity | lia]]].
  - intros x' y' [Hx' Hy'].
    unfold SSD1306.SSD1306_WIDTH, SSD1306.SSD1306_HEIGHT in Hx', Hy'.
    pose proof (Z.mod_pos_bound y' 8 ltac:(lia)) as By'.
    pose proof (Z.div_pos y' 8 ltac:(lia) ltac:(lia)) as Dy'.
    pose proof (celda_de_pixel x y x' y' ltac:(lia) Hy Hx' ltac:(lia)) as Hcel.
    unfold SSD1306.pixel, SSD1306.SSD1306_WIDTH. cbn [SSD1306.buffer].
    rewrite poner_nth by assumption.
    destruct (Nat.eqb_spec (Z.to_nat (x' + y' / 8 * 128)) (Z.to_nat (x + y / 8 * 128)))
      as [Hidx|Hidx].
    + assert (Hidx' : x + y / 8 * 128 = x' + y' / 8 * 128) by lia.
      rewrite bit_de_uint8 by lia.
      replace (Z.to_nat (x' + y' / 8 * 128)) with (Z.to_nat (x + y / 8 * 128)) by lia.
      destruct c.
      * rewrite Z.lor_spec, bit_de_mascara by lia.
        destruct (Z.eqb_spec (y mod 8) (y' mod 8)) as [Hb|Hb].
        -- destruct (proj1 Hcel (conj Hidx' Hb)) as [-> ->].
           now rewrite !Z.eqb_refl, orb_true_r.
        -- rewrite orb_false_r.
           destruct (Z.eqb_spec x' x), (Z.eqb_spec y' y); cbn [andb]; try reflexivity.
           subst. contradiction.
      * rewrite Z.land_spec, Z.lnot_spec, bit_de_mascara by lia.
        destruct (Z.eqb_spec (y mod 8) (y' mod 8)) as [Hb|Hb].
        -- destruct (proj1 Hcel (conj Hidx' Hb)) as [-> ->].
           now rewrite !Z.eqb_refl, andb_false_r.
        -- cbn [negb]. rewrite andb_true_r.
           destruct (Z.eqb_spec x' x), (Z.eqb_spec y' y); cbn [andb]; try reflexivity.
           subst. contradiction.
    + destruct (Z.eqb_spec x' x), (Z.eqb_spec y' y); cbn [andb]; try reflexivity.
      subst. contradiction.
  - split; cbn [SSD1306.buffer].
    + now rewrite poner_length.
    + apply poner_Forall; [|assumption].
      unfold SSD1306.uint8. apply Z.mod_pos_bound. lia.
Qed.

(** X9. [ssd1306_draw_pixel] sets exactly the pixel it is given: on a frame
    buffer of 1024 bytes, after drawing (x, y) in colour c the pixel (x, y)
    has colour c and every other pixel of the screen is as before; a
    point outside the 128 x 64 screen changes nothing.  The buffer stays 1024
    bytes and nothing is sent to the panel. *)
Theorem draw_pixel_exacto (x y : Z) (c : bool) (p : SSD1306.pantalla) :
  SSD1306.bien_formada p ->
  0 <= x -> 0 <= y ->
  (forall x' y' : Z,
      SSD1306.en_pantalla x' y' ->
      SSD1306.pixel x' y' (SSD1306.ssd1306_draw_pixel x y c p)
      = if (x' =? x) && (y' =? y) then c else SSD1306.pixel x' y' p) /\
  SSD1306.bien_formada (SSD1306.ssd1306_draw_pixel x y c p) /\
  SSD1306.i2c (SSD1306.ssd1306_draw_pixel x y c p) = SSD1306.i2c p /\
  (128 <= x \/ 64 <= y -> SSD1306.ssd1306_draw_pixel x y c p = p).
Proof. exact (draw_pixel_spec x y c p). Qed.

Lemma pantalla_en_blanco_bien_formada (l : list (list Z)) :
  SSD1306.bien_formada (SSD1306.Pantalla (repeat 0 1024) l).
Proof.
  split; cbn [SSD1306.buffer].
  - apply repeat_length.
  - apply Forall_forall. intros b Hb. apply repeat_spec in Hb. lia.
Qed.

Lemma draw_pixel_exacto_witness :
  SSD1306.bien_formada (SSD1306.Pantalla (repeat 0 1024) []) /\
  0 <= 5 /\ 0 <= 10 /\
  SSD1306.en_pantalla 5 10 /\
  SSD1306.pixel 5 10
    (SSD1306.ssd1306_draw_pixel 5 10 true (SSD1306.Pantalla (repeat 0 1024) []))
  = (if (5 =? 5) && (10 =? 10) then true
     else SSD1306.pixel 5 10 (SSD1306.Pantalla (repeat 0 1024) [])).
Proof.
  assert (Hp : SSD1306.en_pantalla 5 10) by (vm_compute; intuition discriminate).
  split; [apply pantalla_en_blanco_bien_formada|].
  split; [lia|]. split; [lia|]. split; [exact Hp|].
  exact (proj1 (draw_pixel_exacto 5 10 true (SSD1306.Pantalla (repeat 0 1024) [])
                  (pantalla_en_blanco_bien_formada []) ltac:(lia) ltac:(lia))
               5 10 Hp).
Defined.

Lemma show_paginas (pages : list Z) (p : SSD1306.pantalla) :
  let q :=
    fold_left
      (fun p page =>
         let p := SSD1306.ssd1306_write_cmd (176 + page) p in
         let p := SSD1306.ssd1306_write_cmd 0 p in
         let p := SSD1306.ssd1306_write_cmd 16 p in
         SSD1306.ssd1306_write_data
           (skipn (Z.to_nat (SSD1306.SSD1306_WIDTH * page)) (SSD1306.buffer p))
           (Z.to_nat SSD1306.SSD1306_WIDTH) p)
      pages p in
  SSD1306.buffer q = SSD1306.buffer p /\
  SSD1306.i2c q
  = SSD1306.i2c p
    ++ flat_map (fun page =>
                   [[0; 176 + page]; [0; 0]; [0; 16];
                    64 :: firstn 128 (skipn (Z.to_nat (128 * page)) (SSD1306.buffer p))])
                pages.
Proof.
  revert p. induction pages as [|page pages IH]; intros p.
  - simpl. now rewrite app_nil_r.
  - cbn [fold_left flat_map].
    match goal with
    | |- context [fold_left _ pages ?p1] => destruct (IH p1) as [Hb Hi]
    end.
    cbn zeta in *. rewrite Hb, Hi.
    cbn [SSD1306.ssd1306_write_data SSD1306.ssd1306_write_cmd SSD1306.buffer SSD1306.i2c].
    split; [reflexivity|].
    rewrite <- !app_assoc. reflexivity.
Qed.

Lemma trozo (A : Type) (b : list A) (a k : nat) :
  firstn k (skipn a b) ++ skipn (k + a) b = skipn a b.
Proof. rewrite <- skipn_skipn. apply firstn_skipn. Qed.

Lemma en_trozos (A : Type) (k n a : nat) (b : list A) :
  flat_map (fun i => firstn k (skipn (i * k) b)) (seq a n) ++ skipn ((a + n) * k) b
  = skipn (a * k) b.
Proof.
  revert a. induction n as [|n IH]; intros a.
  - simpl. now rewrite Nat.add_0_r.
  - cbn [seq flat_map]. rewrite <- app_assoc.
    replace (a + S n)%nat with (S a + n)%nat by lia.
    rewrite IH. apply trozo.
Qed.

Lemma datos_app (l1 l2 : list (list Z)) :
  SSD1306.datos (l1 ++ l2) = SSD1306.datos l1 ++ SSD1306.datos l2.
Proof. apply flat_map_app. Qed.

Lemma ordenes_app (l1 l2 : list (list Z)) :
  SSD1306.ordenes (l1 ++ l2) = SSD1306.ordenes l1 ++ SSD1306.ordenes l2.
Proof. apply flat_map_app. Qed.



Lemma pintar_app (ws1 ws2 : list (Z * Z * bool)) (p : SSD1306.pantalla) :
  SSD1306.pintar (ws1 ++ ws2) p = SSD1306.pintar ws2 (SSD1306.pintar ws1 p).
Proof. apply fold_left_app. Qed.

Lemma pintar_pixel (ws : list (Z * Z * bool)) (p : SSD1306.pantalla) :
  SSD1306.bien_formada p ->
  Forall (fun w => 0 <= fst (fst w) /\ 0 <= snd (fst w)) ws ->
  SSD1306.bien_formada (SSD1306.pintar ws p) /\
  SSD1306.i2c (SSD1306.pintar ws p) = SSD1306.i2c p /\
  (forall x' y' : Z,
      SSD1306.en_pantalla x' y' ->
      SSD1306.pixel x' y' (SSD1306.pintar ws p)
      = SSD1306.ultimo_color x' y' ws (SSD1306.pixel x' y' p)).
Proof.
  intros Hp Hws. revert p Hp.
  induction Hws as [|[[x y] c] ws [Hx Hy] Hws IH]; intros p Hp.
  - simpl. auto.
  - cbn [fst snd] in Hx, Hy.
    destruct (draw_pixel_spec x y c p Hp Hx Hy) as (H1 & H2 & H3 & _).
    destruct (IH _ H2) as (G1 & G2 & G3).
    unfold SSD1306.pintar, SSD1306.ultimo_color in *. cbn [fold_left fst snd].
    split; [exact G1|]. split; [now rewrite G2|].
    intros x' y' Hxy. rewrite (G3 x' y' Hxy), (H1 x' y' Hxy). reflexivity.
Qed.

Lemma ultimo_color_unico (x' y' : Z) (v : bool) (ws : list (Z * Z * bool)) (c0 : bool) :
  Forall (fun w => (x' =? fst (fst w)) && (y' =? snd (fst w)) = true -> snd w = v) ws ->
  SSD1306.ultimo_color x' y' ws c0
  = if existsb (fun w => (x' =? fst (fst w)) && (y' =? snd (fst w))) ws then v else c0.
Proof.
  intros H. revert c0. unfold SSD1306.ultimo_color.
  induction H as [|w ws Hw Hws IH]; intros c0; [reflexivity|].
  cbn [fold_left existsb]. rewrite IH.
  destruct ((x' =? fst (fst w)) && (y' =? snd (fst w))) eqn:E; cbn [orb].
  - rewrite (Hw eq_refl). now destruct (existsb _ ws).
  - reflexivity.
Qed.

Lemma bit_bajo (a : Z) : negb (Z.land a 1 =? 0) = Z.testbit a 0.
Proof.
  change 1 with (Z.ones 1). rewrite Z.land_ones by lia.
  change (2 ^ 1) with 2. rewrite <- Z.bit0_mod.
  now destruct (Z.testbit a 0).
Qed.

Lemma columna (xi y : Z) (n : nat) (line : Z) (p : SSD1306.pantalla) :
  fold_left
    (fun (lp : Z * SSD1306.pantalla) (j : Z) =>
       let '(line, p) := lp in
       (Z.shiftr line 1,
        SSD1306.ssd1306_draw_pixel xi (SSD1306.uint8 (y + j))
          (negb (Z.land line 1 =? 0)) p))
    (map (fun k => 0 + Z.of_nat k) (seq 0 n)) (line, p)
  = (Z.shiftr line (Z.of_nat n),
     SSD1306.pintar
       (map (fun k => (xi, SSD1306.uint8 (y + Z.of_nat k), Z.testbit line (Z.of_nat k)))
            (seq 0 n)) p).
Proof.
  induction n as [|n IH].
  - reflexivity.
  - rewrite seq_S, !map_app, fold_left_app, IH, pintar_app.
    cbn [map fold_left Nat.add]. unfold SSD1306.pintar at 1. cbn [fold_left fst snd].
    rewrite Z.shiftr_shiftr by lia.
    rewrite bit_bajo, Z.shiftr_spec by lia.
    replace (Z.of_nat n + 1) with (Z.of_nat (S n)) by lia.
    replace (0 + Z.of_nat n) with (Z.of_nat n) by lia.
    reflexivity.
Qed.

Lemma pintar_columnas (W : Z -> list (Z * Z * bool)) (l : list Z) (p : SSD1306.pantalla) :
  fold_left (fun p i => SSD1306.pintar (W i) p) l p = SSD1306.pintar (flat_map W l) p.
Proof.
  revert p. induction l as [|i l IH]; intros p; [reflexivity|].
  cbn [fold_left flat_map]. now rewrite IH, pintar_app.
Qed.

Lemma fold_left_igual (A B : Type) (f g : A -> B -> A) (l : list B) (a : A) :
  (forall a b, f a b = g a b) -> fold_left f l a = fold_left g l a.
Proof.
  intros H. revert a. induction l as [|b l IH]; intros a; [reflexivity|].
  cbn [fold_left]. now rewrite H, IH.
Qed.

Lemma draw_char_pintar (font5x7 : Z -> Z -> Z) (x y c : Z) (p : SSD1306.pantalla) :
  SSD1306.ssd1306_draw_char font5x7 x y c p
  = SSD1306.pintar
      (flat_map
         (fun i =>
            map (fun k => (SSD1306.uint8 (x + i), SSD1306.uint8 (y + Z.of_nat k),
                           SSD1306.punto font5x7 c i (Z.of_nat k)))
                (seq 0 8))
         (rango 0 4)) p.
Proof.
  unfold SSD1306.ssd1306_draw_char. rewrite <- pintar_columnas.
  apply fold_left_igual. intros q i.
  change (rango 0 7) with (map (fun k => 0 + Z.of_nat k) (seq 0 8)).
  rewrite columna. reflexivity.
Qed.

Lemma resto_256 (x x' i : Z) :
  0 <= x' < 256 -> 0 <= i < 256 ->
  (x' = SSD1306.uint8 (x + i) <-> (x' - x) mod 256 = i).
Proof.
  intros Hx' Hi. unfold SSD1306.uint8. split; intros H.
  - rewrite H, Zminus_mod_idemp_l.
    replace (x + i - x) with i by lia. now apply Z.mod_small.
  - rewrite <- H, Zplus_mod_idemp_r.
    replace (x + (x' - x)) with x' by lia. symmetry. now apply Z.mod_small.
Qed.

Lemma draw_char_spec (font5x7 : Z -> Z -> Z) (x y c : Z) (p : SSD1306.pantalla) :
  SSD1306.bien_formada p ->
  (forall x' y' : Z,
      SSD1306.en_pantalla x' y' ->
      SSD1306.pixel x' y' (SSD1306.ssd1306_draw_char font5x7 x y c p)
      = if ((x' - x) mod 256 <? 5) && ((y' - y) mod 256 <? 8)
        then SSD1306.punto font5x7 c ((x' - x) mod 256) ((y' - y) mod 256)
        else SSD1306.pixel x' y' p) /\
  SSD1306.bien_formada (SSD1306.ssd1306_draw_char font5x7 x y c p) /\
  SSD1306.i2c (SSD1306.ssd1306_draw_char font5x7 x y c p) = SSD1306.i2c p.
Proof.
  intros Hp. rewrite draw_char_pintar.
  set (ws := flat_map _ (rango 0 4)).
  assert (Hws : Forall (fun w => 0 <= fst (fst w) /\ 0 <= snd (fst w)) ws).
  { apply Forall_forall. intros w Hw. unfold ws in Hw.
    apply in_flat_map in Hw. destruct Hw as (i & _ & Hw).
    apply in_map_iff in Hw. destruct Hw as (k & <- & _). cbn [fst snd].
    unfold SSD1306.uint8.
    split; apply Z.mod_pos_bound; lia. }
  destruct (pintar_pixel ws p Hp Hws) as (H1 & H2 & H3).
  split; [|split; assumption].
  intros x' y' Hxy. rewrite (H3 x' y' Hxy).
  destruct Hxy as [Hx' Hy'].
  unfold SSD1306.SSD1306_WIDTH, SSD1306.SSD1306_HEIGHT in Hx', Hy'.
  pose proof (Z.mod_pos_bound (x' - x) 256 ltac:(lia)) as Bi.
  pose proof (Z.mod_pos_bound (y' - y) 256 ltac:(lia)) as Bj.
  rewrite (ultimo_color_unico x' y'
             (SSD1306.punto font5x7 c ((x' - x) mod 256) ((y' - y) mod 256))).
  - destruct (existsb _ ws) eqn:E.
    + apply existsb_exists in E. destruct E as (w & Hw & Hm).
      unfold ws in Hw. apply in_flat_map in Hw. destruct Hw as (i & Hi & Hw).
      apply in_map_iff in Hw. destruct Hw as (k & <- & Hk). cbn [fst snd] in Hm.
      apply rango_In in Hi. apply in_seq in Hk.
      apply andb_prop in Hm. destruct Hm as [Hmx Hmy].
      apply Z.eqb_eq in Hmx, Hmy.
      apply resto_256 in Hmx; [|lia|lia]. apply resto_256 in Hmy; [|lia|lia].
      rewrite Hmx, Hmy.
      destruct (Z.ltb_spec i 5); [|lia].
      destruct (Z.ltb_spec (Z.of_nat k) 8); [reflexivity | lia].
    + destruct (Z.ltb_spec ((x' - x) mod 256) 5) as [Li|Li]; [|reflexivity].
      destruct (Z.ltb_spec ((y' - y) mod 256) 8) as [Lj|Lj]; [|reflexivity].
      exfalso.
      assert (Hex : existsb
                      (fun w => (x' =? fst (fst w)) && (y' =? snd (fst w))) ws = true).
      { apply existsb_exists.
        exists (SSD1306.uint8 (x + (x' - x) mod 256),
                SSD1306.uint8 (y + Z.of_nat (Z.to_nat ((y' - y) mod 256))),
                SSD1306.punto font5x7 c ((x' - x) mod 256)
                  (Z.of_nat (Z.to_nat ((y' - y) mod 256)))).
        split.
        - unfold ws. apply in_flat_map. exists ((x' - x) mod 256).
          split; [apply rango_In; lia|].
          apply in_map_iff. exists (Z.to_nat ((y' - y) mod 256)).
          split; [reflexivity | apply in_seq; lia].
        - cbn [fst snd]. rewrite Z2Nat.id by lia.
          apply andb_true_intro. split; apply Z.eqb_eq; apply resto_256; lia. }
      congruence.
  - apply Forall_forall. intros w Hw Hm.
    unfold ws in Hw. apply in_flat_map in Hw. destruct Hw as (i & Hi & Hw).
    apply in_map_iff in Hw. destruct Hw as (k & <- & Hk). cbn [fst snd] in *.
    apply rango_In in Hi. apply in_seq in Hk.
    apply andb_prop in Hm. destruct Hm as [Hmx Hmy].
    apply Z.eqb_eq in Hmx, Hmy.
    apply resto_256 in Hmx; [|lia|lia]. apply resto_256 in Hmy; [|lia|lia].
    now rewrite Hmx, Hmy.
Qed.

(** X11. [ssd1306_draw_char] overwrites the cell of 5 columns by 8 rows at
    (x, y) with the glyph of the character, setting and clearing pixels, and
    leaves every other pixel of the screen as it was; the frame buffer stays
    1024 bytes and nothing is sent.  Columns and rows are counted in 8-bit
    arithmetic: a cell that starts beyond column 251 or row 248 continues at
    column 0 or row 0, and the part of a cell outside the 128 x 64 screen is
    dropped. *)
Theorem draw_char_celda (font5x7 : Z -> Z -> Z) (x y c : Z) (p : SSD1306.pantalla) :
  SSD1306.bien_formada p ->
  (forall x' y' : Z,
      SSD1306.en_pantalla x' y' ->
      SSD1306.pixel x' y' (SSD1306.ssd1306_draw_char font5x7 x y c p)
      = if ((x' - x) mod 256 <? 5) && ((y' - y) mod 256 <? 8)
        then SSD1306.punto font5x7 c ((x' - x) mod 256) ((y' - y) mod 256)
        else SSD1306.pixel x' y' p) /\
  SSD1306.bien_formada (SSD1306.ssd1306_draw_char font5x7 x y c p) /\
  SSD1306.i2c (SSD1306.ssd1306_draw_char font5x7 x y c p) = SSD1306.i2c p.
Proof. exact (draw_char_spec font5x7 x y c p). Qed.

Lemma draw_char_celda_witness :
  SSD1306.bien_formada (SSD1306.Pantalla (repeat 0 1024) []) /\
  SSD1306.en_pantalla 2 3 /\
  SSD1306.pixel 2 3
    (SSD1306.ssd1306_draw_char (fun _ i => 2 ^ i) 0 0 65
       (SSD1306.Pantalla (repeat 0 1024) []))
  = (if ((2 - 0) mod 256 <? 5) && ((3 - 0) mod 256 <? 8)
     then SSD1306.punto (fun _ i => 2 ^ i) 65 ((2 - 0) mod 256) ((3 - 0) mod 256)
     else SSD1306.pixel 2 3 (SSD1306.Pantalla (repeat 0 1024) [])).
Proof.
  assert (Hp : SSD1306.en_pantalla 2 3) by (vm_compute; intuition discriminate).
  split; [apply pantalla_en_blanco_bien_formada|]. split; [exact Hp|].
  exact (proj1 (draw_char_celda (fun _ i => 2 ^ i) 0 0 65
                  (SSD1306.Pantalla (repeat 0 1024) [])
                  (pantalla_en_blanco_bien_formada []))
               2 3 Hp).
Defined.

Lemma draw_string_sin_texto (font5x7 : Z -> Z -> Z) (x y : Z) (str : string)
      (p : SSD1306.pantalla) :
  SSD1306.hasta_nul str = [] -> SSD1306.ssd1306_draw_string font5x7 x y str p = p.
Proof.
  destruct str as [|c s]; [reflexivity|].
  cbn [SSD1306.hasta_nul SSD1306.ssd1306_draw_string].
  destruct (Z.of_nat (Ascii.nat_of_ascii c) =? 0); [reflexivity | discriminate].
Qed.

Lemma en_celda (x x' n : Z) :
  0 <= x -> 0 < n -> x + n <= 256 -> 0 <= x' < 256 ->
  ((x' - x) mod 256 <? n) = (x <=? x') && (x' <? x + n) /\
  (x <= x' -> (x' - x) mod 256 = x' - x).
Proof.
  intros Hx Hn Hxn Hx'.
  destruct (Z.leb_spec x x') as [L|L]; cbn [andb].
  - rewrite Z.mod_small by lia. split; [|reflexivity].
    destruct (Z.ltb_spec (x' - x) n), (Z.ltb_spec x' (x + n)); try reflexivity; lia.
  - split; [|lia].
    replace (x' - x) with (x' - x + 256 + (-1) * 256) by lia.
    rewrite Z.mod_add by lia. rewrite Z.mod_small by lia.
    destruct (Z.ltb_spec (x' - x + 256) n); [lia | reflexivity].
Qed.

Ltac comparar :=
  repeat match goal with
         | |- context [?a <=? ?b] => destruct (Z.leb_spec a b)
         | |- context [?a <? ?b] => destruct (Z.ltb_spec a b)
         end; cbn [andb].

(** X12. [ssd1306_draw_string] writes its characters, up to the end of the
    string or its first NUL, left to right in cells 6 columns apart: for a
    text that fits in the 8-bit column range (x + 6 * length <= 256) and a
    row y <= 248, column d of the text (counted from x) shows column
    d mod 6 of the glyph of character d / 6 when d mod 6 < 5, and the sixth
    column of every cell, like every pixel outside the text, keeps what the
    buffer held before: the gap between characters is not cleared.  The
    frame buffer stays 1024 bytes and nothing is sent. *)
Theorem draw_string_texto (font5x7 : Z -> Z -> Z) (x y : Z) (str : string)
        (p : SSD1306.pantalla) :
  SSD1306.bien_formada p ->
  0 <= x -> 0 <= y <= 248 ->
  x + 6 * Z.of_nat (length (SSD1306.hasta_nul str)) <= 256 ->
  (forall x' y' : Z,
      SSD1306.en_pantalla x' y' ->
      SSD1306.pixel x' y' (SSD1306.ssd1306_draw_string font5x7 x y str p)
      = if (x <=? x') && (x' <? x + 6 * Z.of_nat (length (SSD1306.hasta_nul str)))
           && ((x' - x) mod 6 <? 5) && (y <=? y') && (y' <? y + 8)
        then SSD1306.punto font5x7
               (nth (Z.to_nat ((x' - x) / 6)) (SSD1306.hasta_nul str) 0)
               ((x' - x) mod 6) (y' - y)
        else SSD1306.pixel x' y' p) /\
  SSD1306.bien_formada (SSD1306.ssd1306_draw_string font5x7 x y str p) /\
  SSD1306.i2c (SSD1306.ssd1306_draw_string font5x7 x y str p) = SSD1306.i2c p.
Proof.
  revert x p. induction str as [|c s IH]; intros x p Hp Hx Hy Hlen.
  - cbn [SSD1306.ssd1306_draw_string SSD1306.hasta_nul length].
    split; [|split; [assumption | reflexivity]].
    intros x' y' _. comparar; try reflexivity; lia.
  - cbn [SSD1306.ssd1306_draw_string SSD1306.hasta_nul] in *.
    set (c' := Z.of_nat (Ascii.nat_of_ascii c)) in *.
    destruct (c' =? 0).
    { cbn [length]. split; [|split; [assumption | reflexivity]].
      intros x' y' _. comparar; try reflexivity; lia. }
    cbn [length] in Hlen |- *.
    destruct (draw_char_spec font5x7 x y c' p Hp) as (C1 & C2 & C3).
    set (p' := SSD1306.ssd1306_draw_char font5x7 x y c' p) in *.
    set (cs := SSD1306.hasta_nul s) in *.
    assert (E : (forall x' y' : Z,
                    SSD1306.en_pantalla x' y' ->
                    SSD1306.pixel x' y'
                      (SSD1306.ssd1306_draw_string font5x7 (SSD1306.uint8 (x + 6)) y s p')
                    = if (x + 6 <=? x') && (x' <? x + 6 + 6 * Z.of_nat (length cs))
                         && ((x' - (x + 6)) mod 6 <? 5) && (y <=? y') && (y' <? y + 8)
                      then SSD1306.punto font5x7
                             (nth (Z.to_nat ((x' - (x + 6)) / 6)) cs 0)
                             ((x' - (x + 6)) mod 6) (y' - y)
                      else SSD1306.pixel x' y' p') /\
                SSD1306.bien_formada
                  (SSD1306.ssd1306_draw_string font5x7 (SSD1306.uint8 (x + 6)) y s p') /\
                SSD1306.i2c
                  (SSD1306.ssd1306_draw_string font5x7 (SSD1306.uint8 (x + 6)) y s p')
                = SSD1306.i2c p').
    { destruct (Nat.eq_dec (length cs) 0) as [Hn|Hn].
      - rewrite draw_string_sin_texto by (now apply length_zero_iff_nil).
        split; [|split; [assumption | reflexivity]].
        intros x' y' _. rewrite Hn. comparar; try reflexivity; lia.
      - assert (Hu : SSD1306.uint8 (x + 6) = x + 6)
          by (unfold SSD1306.uint8; apply Z.mod_small; lia).
        rewrite Hu. apply IH; [assumption | lia | lia | fold cs; lia]. }
    destruct E as (E1 & E2 & E3).
    split; [|split; [assumption | congruence]].
    intros x' y' Hxy. rewrite (E1 x' y' Hxy), (C1 x' y' Hxy).
    destruct Hxy as [Hx' Hy'].
    unfold SSD1306.SSD1306_WIDTH, SSD1306.SSD1306_HEIGHT in Hx', Hy'.
    destruct (en_celda x x' 5 Hx ltac:(lia) ltac:(lia) ltac:(lia)) as [Bx Mx].
    destruct (en_celda y y' 8 ltac:(lia) ltac:(lia) ltac:(lia) ltac:(lia)) as [By My].
    rewrite Bx, By.
    destruct (Z.ltb_spec x' (x + 6)) as [A|B].
    + replace (x + 6 <=? x') with false by (symmetry; apply Z.leb_gt; lia).
      cbn [andb].
      destruct (Z.leb_spec x x') as [L|L]; cbn [andb]; [|reflexivity].
      rewrite (Mx L), (Z.mod_small (x' - x) 6), (Z.div_small (x' - x) 6) by lia.
      cbn [Z.to_nat nth].
      replace (x' <? x + 6 * Z.of_nat (S (length cs))) with true
        by (symmetry; apply Z.ltb_lt; lia).
      cbn [andb].
      replace (x' - x <? 5) with (x' <? x + 5)
        by (destruct (Z.ltb_spec (x' - x) 5), (Z.ltb_spec x' (x + 5)); try reflexivity; lia).
      destruct (x' <? x + 5); cbn [andb]; [|reflexivity].
      destruct (Z.leb_spec y y') as [Ly|Ly]; cbn [andb]; [|reflexivity].
      rewrite (My Ly). reflexivity.
    + replace (x <=? x') with true by (symmetry; apply Z.leb_le; lia).
      replace (x' <? x + 5) with false by (symmetry; apply Z.ltb_ge; lia).
      replace (x + 6 <=? x') with true by (symmetry; apply Z.leb_le; lia).
      cbn [andb].
      replace (x' <? x + 6 * Z.of_nat (S (length cs)))
        with (x' <? x + 6 + 6 * Z.of_nat (length cs))
        by (f_equal; lia).
      replace (x' - x) with (x' - (x + 6) + 1 * 6) by lia.
      rewrite Z.mod_add, Z.div_add by lia.
      assert (Q : 0 <= (x' - (x + 6)) / 6) by (apply Z.div_pos; lia).
      replace (Z.to_nat ((x' - (x + 6)) / 6 + 1))
        with (S (Z.to_nat ((x' - (x + 6)) / 6))) by lia.
      cbn [nth]. reflexivity.
Qed.

Lemma draw_string_texto_witness :
  SSD1306.bien_formada (SSD1306.Pantalla (repeat 0 1024) []) /\
  0 <= 0 /\ 0 <= 0 <= 248 /\
  0 + 6 * Z.of_nat (length (SSD1306.hasta_nul "Hi")) <= 256 /\
  SSD1306.bien_formada
    (SSD1306.ssd1306_draw_string (fun _ i => 2 ^ i) 0 0 "Hi"
       (SSD1306.Pantalla (repeat 0 1024) [])).
Proof.
  assert (H : 0 + 6 * Z.of_nat (length (SSD1306.hasta_nul "Hi")) <= 256)
    by (vm_compute; discriminate).
  split; [apply pantalla_en_blanco_bien_formada|].
  split; [lia|]. split; [lia|]. split; [exact H|].
  exact (proj1 (proj2 (draw_string_texto (fun _ i => 2 ^ i) 0 0 "Hi"
                         (SSD1306.Pantalla (repeat 0 1024) [])
                         (pantalla_en_blanco_bien_formada [])
                         ltac:(lia) ltac:(lia) H))).
Defined.

Lemma write_cmds (cs : list Z) (p : SSD1306.pantalla) :
  fold_left (fun p cmd => SSD1306.ssd1306_write_cmd cmd p) cs p
  = SSD1306.Pantalla (SSD1306.buffer p)
      (SSD1306.i2c p ++ map (fun c => [0; c]) cs).
Proof.
  revert p. induction cs as [|c cs IH]; intros p.
  - destruct p. simpl. now rewrite app_nil_r.
  - cbn [fold_left map]. rewrite IH.
    cbn [SSD1306.ssd1306_write_cmd SSD1306.buffer SSD1306.i2c].
    now rewrite <- app_assoc.
Qed.

(** X13. [ssd1306_init] ends with a blank screen whatever the frame buffer
    held before: it makes 60 bus transfers, the first is the command 0xAE
    (display off), the 28th is 0xAF (display on), no data is sent before it,
    and the data that follow are 1024 zero bytes; the frame buffer is left
    with 1024 zero bytes, every pixel off. *)
Theorem init_en_blanco (p : SSD1306.pantalla) :
  SSD1306.bien_formada (SSD1306.ssd1306_init p) /\
  (forall x y : Z, SSD1306.pixel x y (SSD1306.ssd1306_init p) = false) /\
  exists nuevas : list (list Z),
    SSD1306.i2c (SSD1306.ssd1306_init p) = SSD1306.i2c p ++ nuevas /\
    length nuevas = 60%nat /\
    hd_error nuevas = Some [0; 174] /\
    nth_error nuevas 27 = Some [0; 175] /\
    SSD1306.datos (firstn 28 nuevas) = [] /\
    SSD1306.datos nuevas = repeat 0 1024.
Proof.
  unfold SSD1306.ssd1306_init. cbn zeta. rewrite write_cmds.
  unfold SSD1306.ssd1306_show, SSD1306.ssd1306_clear.
  cbn [SSD1306.buffer SSD1306.i2c].
  change (Z.to_nat (SSD1306.SSD1306_WIDTH * SSD1306.SSD1306_HEIGHT / 8)) with 1024%nat.
  match goal with
  | |- context [fold_left _ (rango 0 7) ?q] =>
      pose proof (show_paginas (rango 0 7) q) as H
  end.
  cbn zeta in H. cbn [SSD1306.buffer SSD1306.i2c] in H.
  set (r := fold_left _ (rango 0 7) _) in *.
  destruct H as [Hb Hi].
  split; [|split].
  - split; rewrite Hb.
    + apply repeat_length.
    + apply Forall_forall. intros b Hin. apply repeat_spec in Hin. subst b. lia.
  - intros x y. unfold SSD1306.pixel. rewrite Hb, nth_repeat. apply Z.bits_0.
  - eexists. split; [rewrite Hi, <- app_assoc; reflexivity|].
    repeat split; vm_compute; reflexivity.
Qed.

(** ** Menus *)

Lemma gpio_get_ROT_DT (e : entrada) : gpio_get ROT_DT e = rot_dt e.
Proof. reflexivity. Qed.

Lemma mostrar_menu_vista (m : Z) (s : estado) :
  oled (mostrar_menu m s) = vista_menu m /\
  motor_en (mostrar_menu m s) = motor_en s.
Proof. split; reflexivity. Qed.

Lemma mostrar_submenu_vista (m r : Z) (s : estado) :
  oled (mostrar_submenu m r s) = vista_submenu m r /\
  motor_en (mostrar_submenu m r s) = motor_en s.
Proof. split; reflexivity. Qed.

Lemma vueltas_dt_cons (e : entrada) (es : list entrada) :
  vueltas_dt (e :: es) = (if negb (gpio_get ROT_DT e) then 1 else 0) + vueltas_dt es.
Proof.
  unfold vueltas_dt. cbn [filter].
  destruct (negb (gpio_get ROT_DT e)); cbn [length]; lia.
Qed.

Lemma siguiente_mod (k m : Z) :
  0 < k <= 1000 -> 0 <= m < k -> Z.rem (wrap_int (m + 1)) k = (m + 1) mod k.
Proof.
  intros Hk Hm. rewrite wrap_int_small by (unfold INT_MIN, INT_MAX; lia).
  apply Z.rem_mod_nonneg; lia.
Qed.

Lemma bucle_menu_giros (pre : list entrada) (m : Z) (s : estado) :
  0 <= m <= 1 ->
  Forall (fun e => rot_sw e = true) pre ->
  oled s = vista_menu m ->
  exists s1,
    bucle_menu pre m s = (false, (m + vueltas_dt pre) mod 2, s1) /\
    oled s1 = vista_menu ((m + vueltas_dt pre) mod 2) /\
    motor_en s1 = motor_en s /\
    forall (e : entrada) (post : list entrada),
      rot_sw e = false ->
      bucle_menu (pre ++ e :: post) m s
      = (true, (m + vueltas_dt pre) mod 2, sleep_ms 200 s1).
Proof.
  intros Hm Hpre. revert m s Hm.
  induction Hpre as [|e0 pre Hsw Hpre IH]; intros m s Hm Hv.
  - exists s. change (vueltas_dt []) with 0.
    rewrite Z.add_0_r, Z.mod_small by lia.
    repeat split; try assumption.
    intros e post He. cbn [app bucle_menu]. rewrite gpio_get_ROT_SW, He. reflexivity.
  - rewrite vueltas_dt_cons. cbn [app bucle_menu].
    rewrite gpio_get_ROT_SW, Hsw. cbn [negb].
    destruct (negb (gpio_get ROT_DT e0)).
    + rewrite (siguiente_mod 2 m) by lia. cbn zeta.
      assert (Hm' : 0 <= (m + 1) mod 2 <= 1)
        by (pose proof (Z.mod_pos_bound (m + 1) 2 ltac:(lia)); lia).
      destruct (IH ((m + 1) mod 2)
                   (sleep_ms 300 (mostrar_menu ((m + 1) mod 2) s)) Hm' eq_refl)
        as (s1 & H1 & H2 & H3 & H4).
      replace ((m + (1 + vueltas_dt pre)) mod 2)
        with (((m + 1) mod 2 + vueltas_dt pre) mod 2)
        by (rewrite Zplus_mod_idemp_l; f_equal; lia).
      exists s1. repeat split; assumption.
    + destruct (IH m s Hm Hv) as (s1 & H1 & H2 & H3 & H4).
      replace (m + (0 + vueltas_dt pre)) with (m + vueltas_dt pre) by lia.
      exists s1. repeat split; assumption.
Qed.

(** X14. The main menu of [main]: with the switch released, every pass that
    finds DT low moves the marker to the other option, so after the passes
    [pre] the option is (menu_state + number of DT-low passes) mod 2, the
    panel shows the menu with the marker on that option, and the first pass
    with the switch pressed leaves the loop with it after the 200 ms
    debounce delay, whatever DT is in that pass and whatever follows.  The
    motor-enable output is not touched. *)
Theorem menu_principal_elige (pre : list entrada) (menu_state : Z) (s : estado) :
  0 <= menu_state <= 1 ->
  Forall (fun e => rot_sw e = true) pre ->
  exists s1,
    menu_principal pre menu_state s
    = (false, (menu_state + vueltas_dt pre) mod 2, s1) /\
    oled s1 = vista_menu ((menu_state + vueltas_dt pre) mod 2) /\
    motor_en s1 = motor_en s /\
    forall (e : entrada) (post : list entrada),
      rot_sw e = false ->
      menu_principal (pre ++ e :: post) menu_state s
      = (true, (menu_state + vueltas_dt pre) mod 2, sleep_ms 200 s1).
Proof.
  intros Hm Hpre. unfold menu_principal.
  destruct (bucle_menu_giros pre menu_state (mostrar_menu menu_state s) Hm Hpre eq_refl)
    as (s1 & H1 & H2 & H3 & H4).
  exists s1. repeat split; assumption.
Qed.

Lemma menu_principal_elige_witness :
  0 <= 0 <= 1 /\
  Forall (fun e => rot_sw e = true)
         [Entrada [] 0 true false true []; pasa; Entrada [] 0 true false true [];
          Entrada [] 0 false false true []] /\
  exists s1,
    menu_principal
      [Entrada [] 0 true false true []; pasa; Entrada [] 0 true false true [];
       Entrada [] 0 false false true []] 0 estado_inicial
    = (false, (0 + vueltas_dt
                      [Entrada [] 0 true false true []; pasa;
                       Entrada [] 0 true false true [];
                       Entrada [] 0 false false true []]) mod 2, s1) /\
    oled s1 = vista_menu 1.
Proof.
  assert (H : Forall (fun e => rot_sw e = true)
                [Entrada [] 0 true false true []; pasa; Entrada [] 0 true false true [];
                 Entrada [] 0 false false true []])
    by (repeat constructor).
  split; [lia|]. split; [exact H|].
  destruct (menu_principal_elige
              [Entrada [] 0 true false true []; pasa; Entrada [] 0 true false true [];
               Entrada [] 0 false false true []] 0 estado_inicial ltac:(lia) H)
    as (s1 & H1 & H2 & _).
  exists s1. split; [exact H1 | exact H2].
Defined.

Lemma rama_de_valida (m r : Z) :
  0 <= m <= 1 -> 0 <= r <= 2 ->
  rama_de m r
  = Some (if r =? 2 then Volver
          else if m =? 0 then (if r =? 0 then RamaHiloManual else RamaHiloAuto)
          else (if r =? 0 then RamaCobreManual else RamaCobreAuto)).
Proof.
  intros Hm Hr.
  assert (Cm : m = 0 \/ m = 1) by lia.
  assert (Cr : r = 0 \/ r = 1 \/ r = 2) by lia.
  destruct Cm as [->| ->], Cr as [->|[->| ->]]; reflexivity.
Qed.

Lemma bucle_submenu_giros (pre : list entrada) (m r : Z) (s : estado) :
  0 <= m <= 1 -> 0 <= r <= 2 ->
  Forall (fun e => rot_sw e = true) pre ->
  oled s = vista_submenu m r ->
  exists s1,
    bucle_submenu pre m r s = (None, (r + vueltas_dt pre) mod 3, s1) /\
    oled s1 = vista_submenu m ((r + vueltas_dt pre) mod 3) /\
    motor_en s1 = motor_en s /\
    forall (e : entrada) (post : list entrada),
      rot_sw e = false ->
      bucle_submenu (pre ++ e :: post) m r s
      = (rama_de m ((r + vueltas_dt pre) mod 3),
         (r + vueltas_dt pre) mod 3, sleep_ms 200 s1).
Proof.
  intros Hm Hr Hpre. revert r s Hr.
  induction Hpre as [|e0 pre Hsw Hpre IH]; intros r s Hr Hv.
  - exists s. change (vueltas_dt []) with 0.
    rewrite Z.add_0_r, Z.mod_small by lia.
    repeat split; try assumption.
    intros e post He. cbn [app bucle_submenu]. rewrite gpio_get_ROT_SW, He.
    cbn [negb]. rewrite (rama_de_valida m r Hm Hr). reflexivity.
  - rewrite vueltas_dt_cons. cbn [app bucle_submenu].
    rewrite gpio_get_ROT_SW, Hsw. cbn [negb].
    destruct (negb (gpio_get ROT_DT e0)).
    + rewrite (siguiente_mod 3 r) by lia. cbn zeta.
      assert (Hr' : 0 <= (r + 1) mod 3 <= 2)
        by (pose proof (Z.mod_pos_bound (r + 1) 3 ltac:(lia)); lia).
      destruct (IH ((r + 1) mod 3)
                   (sleep_ms 300 (mostrar_submenu m ((r + 1) mod 3) s)) Hr' eq_refl)
        as (s1 & H1 & H2 & H3 & H4).
      replace ((r + (1 + vueltas_dt pre)) mod 3)
        with (((r + 1) mod 3 + vueltas_dt pre) mod 3)
        by (rewrite Zplus_mod_idemp_l; f_equal; lia).
      exists s1. repeat split; assumption.
    + destruct (IH r s Hr Hv) as (s1 & H1 & H2 & H3 & H4).
      replace (r + (0 + vueltas_dt pre)) with (r + vueltas_dt pre) by lia.
      exists s1. repeat split; assumption.
Qed.

(** X15. The submenu of [main] starts on "Manual" each time it is entered;
    with the switch released every DT-low pass moves the marker one line
    down, cyclically over Manual, Auto, Volver, and the panel shows the
    marker on the current line.  The first pass with the switch pressed
    always leaves the loop: through "Volver" when the marker is on the
    third line, otherwise into the routine of the material chosen in the
    main menu (0 thread, 1 copper) and of the line (0 manual, 1 automatic).
    The motor-enable output is not touched before that. *)
Theorem submenu_elige (pre : list entrada) (menu_state : Z) (s : estado) :
  0 <= menu_state <= 1 ->
  Forall (fun e => rot_sw e = true) pre ->
  exists s1,
    submenu pre menu_state s = (None, vueltas_dt pre mod 3, s1) /\
    oled s1 = vista_submenu menu_state (vueltas_dt pre mod 3) /\
    motor_en s1 = motor_en s /\
    forall (e : entrada) (post : list entrada),
      rot_sw e = false ->
      submenu (pre ++ e :: post) menu_state s
      = (Some (if vueltas_dt pre mod 3 =? 2 then Volver
               else if menu_state =? 0
                    then (if vueltas_dt pre mod 3 =? 0
                          then RamaHiloManual else RamaHiloAuto)
                    else (if vueltas_dt pre mod 3 =? 0
                          then RamaCobreManual else RamaCobreAuto)),
         vueltas_dt pre mod 3, sleep_ms 200 s1).
Proof.
  intros Hm Hpre. unfold submenu.
  destruct (bucle_submenu_giros pre menu_state 0 (mostrar_submenu menu_state 0 s)
              Hm ltac:(lia) Hpre eq_refl)
    as (s1 & H1 & H2 & H3 & H4).
  change (0 + vueltas_dt pre) with (vueltas_dt pre) in *.
  exists s1. repeat split; try assumption.
  intros e post He. rewrite (H4 e post He).
  rewrite rama_de_valida; [reflexivity | assumption|].
  pose proof (Z.mod_pos_bound (vueltas_dt pre) 3 ltac:(lia)). lia.
Qed.

Lemma submenu_elige_witness :
  0 <= 1 <= 1 /\
  Forall (fun e => rot_sw e = true) [Entrada [] 0 true false true []; pasa] /\
  submenu ([Entrada [] 0 true false true []; pasa] ++ pulsa_sw :: [pasa]) 1
          estado_inicial
  = (Some RamaCobreAuto, 1,
     sleep_ms 200
       (snd (submenu [Entrada [] 0 true false true []; pasa] 1 estado_inicial))).
Proof.
  assert (H : Forall (fun e => rot_sw e = true)
                [Entrada [] 0 true false true []; pasa])
    by (repeat constructor).
  split; [lia|]. split; [exact H|].
  destruct (submenu_elige [Entrada [] 0 true false true []; pasa] 1 estado_inicial
              ltac:(lia) H)
    as (s1 & H1 & _ & _ & H4).
  rewrite (H4 pulsa_sw [pasa] eq_refl), H1. reflexivity.
Defined.

(** X16. A winding routine restarts the pulse count and owns the motor:
    whatever the count and the motor-enable output were before the call,
    while the routine is in its loop the motor is enabled and the count is
    the number of falling edges of the optical encoder served since the
    routine started (counted from 0, in [int] arithmetic), and once it has
    returned, for whatever reason, the motor is disabled. *)
Theorem motor_y_cuenta (sensor : entrada -> Z) (m : modo) (es : list entrada)
    (s : estado) :
  match enrollar sensor m es s with
  | EnCurso _ s1 =>
      motor_en s1 = true /\
      pulsos_encoder s1 = contar (concat (map irq es)) 0
  | Termina _ s' => motor_en s' = false
  end.
Proof.
  destruct (enrollar sensor m es s) as [u s1|r s'] eqn:E.
  - destruct (corrida_en_curso sensor m es s u s1 E) as (Hc & _).
    split.
    + exact (control_motor _ _ _ _ Hc).
    + exact (control_pulsos _ _ _ _ Hc).
  - exact (proj1 (corrida_termina sensor m es s r s' E)).
Qed.

(** ** The interrupt handler *)

Lemma es_flanco_bit (ge : Z * Z) :
  es_flanco ge = (fst ge =? 15) && Z.testbit (snd ge) 2.
Proof.
  unfold es_flanco, OPT_ENCODER_DT, GPIO_IRQ_EDGE_FALL. f_equal.
  change 4 with (Z.shiftl 1 2).
  destruct (Z.eqb_spec (Z.land (snd ge) (Z.shiftl 1 2)) 0) as [E|E]; cbn [negb].
  - assert (H : Z.testbit (Z.land (snd ge) (Z.shiftl 1 2)) 2 = false)
      by (rewrite E; apply Z.bits_0).
    rewrite Z.land_spec, bit_de_mascara in H by lia.
    cbn [Z.eqb Pos.eqb] in H. now rewrite andb_true_r in H.
  - destruct (Z.testbit (snd ge) 2) eqn:B; [reflexivity|].
    exfalso. apply E. apply Z.bits_inj'. intros n Hn.
    rewrite Z.land_spec, bit_de_mascara, Z.bits_0 by lia.
    destruct (Z.eqb_spec 2 n) as [<-|_].
    + now rewrite B.
    + apply andb_false_r.
Qed.

Lemma flancos_de_bajada_eq (l : list (Z * Z)) : flancos_de_bajada l = flancos l.
Proof.
  unfold flancos_de_bajada, flancos. do 2 f_equal.
  apply filter_ext. intros ge. symmetry. apply es_flanco_bit.
Qed.

(** X17. The interrupt handler counts the falling edges of the optical
    encoder and nothing else: after a batch of interrupts the pulse count
    has grown by the number of interrupts that come from pin 15 with the
    falling-edge bit (bit 2, value 4) set in their event mask, whatever other
    bits are set; interrupts of other pins or without that bit are ignored,
    and the rest of the machine state is unchanged.  (As long as the count
    stays within the [int] range.) *)
Theorem isr_cuenta_flancos (l : list (Z * Z)) (s : estado) :
  INT_MIN <= pulsos_encoder s ->
  pulsos_encoder s + flancos_de_bajada l <= INT_MAX ->
  atender l s = set_pulsos_encoder (pulsos_encoder s + flancos_de_bajada l) s.
Proof.
  intros Hlo Hhi. rewrite atender_spec. f_equal.
  rewrite flancos_de_bajada_eq in *. now apply contar_flancos.
Qed.

Lemma isr_cuenta_flancos_witness :
  INT_MIN <= pulsos_encoder estado_inicial /\
  pulsos_encoder estado_inicial
  + flancos_de_bajada [(15, 4); (15, 8); (11, 4); (15, 12)] <= INT_MAX /\
  atender [(15, 4); (15, 8); (11, 4); (15, 12)] estado_inicial
  = set_pulsos_encoder 2 estado_inicial.
Proof.
  assert (H1 : INT_MIN <= pulsos_encoder estado_inicial) by (vm_compute; discriminate).
  assert (H2 : pulsos_encoder estado_inicial
               + flancos_de_bajada [(15, 4); (15, 8); (11, 4); (15, 12)] <= INT_MAX)
    by (vm_compute; discriminate).
  split; [exact H1|]. split; [exact H2|].
  exact (isr_cuenta_flancos [(15, 4); (15, 8); (11, 4); (15, 12)] estado_inicial H1 H2).
Defined.
